(** * Brand protection analyst agent: a shallow embedding and its properties

    The development follows the Python sources [agent/utils.py],
    [agent/agent.py], [agent/models.py], [agent/prompt.py] and [main.py].

    - A Python [str] is modelled by the [string] of the bytes of its UTF-8
      encoding.  Concatenation, equality, [in], [startswith] and [replace]
      act on the encoding as they act on the text.
    - [str.lower], [str.upper] and [str.strip] follow the Unicode character
      database.  They are the operations of a structure [PyStr.UnicodeData],
      of which only their values on ASCII text are known; the statements
      hold for every such structure.
    - Python dictionaries with string keys are modelled by [gmap string _].
    - Untyped Python values (the contents of a decoded JSON document, the
      fields of a verdict dictionary) are modelled by [pyval].
    - The generation service, the random source, the clock, the files read
      and the refusals of the file system are oracles. *)

From Stdlib Require Import ZArith QArith Lqa Ascii String List SpecFloat.
From stdpp Require Import base option list strings pretty gmap.
Import ListNotations.

Local Open Scope string_scope.
Local Open Scope list_scope.

(** ** Python strings *)

Module PyStr.

Definition is_upper (c : ascii) : bool :=
  let n := N_of_ascii c in ((65 <=? n) && (n <=? 90))%N.

Definition is_lower (c : ascii) : bool :=
  let n := N_of_ascii c in ((97 <=? n) && (n <=? 122))%N.

Definition lower_char (c : ascii) : ascii :=
  if is_upper c then ascii_of_N (N_of_ascii c + 32) else c.

Definition upper_char (c : ascii) : ascii :=
  if is_lower c then ascii_of_N (N_of_ascii c - 32) else c.

Fixpoint map_chars (f : ascii -> ascii) (s : string) : string :=
  match s with
  | EmptyString => EmptyString
  | String c t => String (f c) (map_chars f t)
  end.

(** Text of ASCII characters only: every byte is below 128. *)
Definition is_ascii_char (c : ascii) : bool := (N_of_ascii c <? 128)%N.

Fixpoint is_ascii (s : string) : bool :=
  match s with
  | EmptyString => true
  | String c t => is_ascii_char c && is_ascii t
  end.

(** [s.lower()] and [s.upper()] on ASCII text *)
Definition ascii_lower (s : string) : string := map_chars lower_char s.
Definition ascii_upper (s : string) : string := map_chars upper_char s.

(** [s.startswith(p)] *)
Fixpoint startswith (s p : string) {struct p} : bool :=
  match p, s with
  | EmptyString, _ => true
  | String a p', String b s' => if Ascii.eqb a b then startswith s' p' else false
  | String _ _, EmptyString => false
  end.

(** [needle in hay] on strings: some suffix of [hay] starts with [needle] *)
Fixpoint contains (needle hay : string) : bool :=
  startswith hay needle ||
  match hay with
  | EmptyString => false
  | String _ t => contains needle t
  end.

(** [bool(s)]: a string is truthy when it is not empty *)
Definition nonempty (s : string) : bool :=
  match s with EmptyString => false | _ => true end.

(** [s.replace(old, empty)] for a non-empty [old]: scan from the left and drop
    every non-overlapping occurrence. *)
Fixpoint drop (n : nat) (s : string) : string :=
  match n, s with
  | O, _ => s
  | S n', String _ t => drop n' t
  | S _, EmptyString => EmptyString
  end.

Fixpoint remove_all_fuel (fuel : nat) (old s : string) : string :=
  match fuel with
  | O => s
  | S fuel' =>
      match s with
      | EmptyString => EmptyString
      | String c t =>
          if startswith s old
          then remove_all_fuel fuel' old (drop (String.length old) s)
          else String c (remove_all_fuel fuel' old t)
      end
  end.

Definition remove_all (old s : string) : string :=
  remove_all_fuel (String.length s) old s.

(** [s.strip()] on ASCII text: white space removed at both ends *)
Definition is_space (c : ascii) : bool :=
  let n := N_of_ascii c in
  ((n =? 32) || ((9 <=? n) && (n <=? 13)) || ((28 <=? n) && (n <=? 31)))%N.

Fixpoint lstrip (s : string) : string :=
  match s with
  | String c t => if is_space c then lstrip t else s
  | EmptyString => s
  end.

Fixpoint rstrip (s : string) : string :=
  match s with
  | String c t =>
      match rstrip t with
      | EmptyString => if is_space c then EmptyString else String c EmptyString
      | r => String c r
      end
  | EmptyString => s
  end.

Definition ascii_strip (s : string) : string := rstrip (lstrip s).

(** The methods of [str] that follow the Unicode character database:
    [s.lower()], [s.upper()] and [s.strip()].  On ASCII text they are the
    functions above. *)
Class UnicodeData : Type :=
  { lower : string -> string;
    upper : string -> string;
    strip : string -> string;
    lower_on_ascii : forall s, is_ascii s = true -> lower s = ascii_lower s;
    upper_on_ascii : forall s, is_ascii s = true -> upper s = ascii_upper s;
    strip_on_ascii : forall s, is_ascii s = true -> strip s = ascii_strip s }.

(** The structure in which the three methods are the ASCII functions on
    every text; the closed instances of the development are evaluated in
    it, on ASCII text. *)
Definition ascii_only : UnicodeData :=
  {| lower := ascii_lower;
     upper := ascii_upper;
     strip := ascii_strip;
     lower_on_ascii := fun _ _ => eq_refl;
     upper_on_ascii := fun _ _ => eq_refl;
     strip_on_ascii := fun _ _ => eq_refl |}.

(** The substring relation that [contains] decides. *)
Definition substring_of (needle hay : string) : Prop :=
  exists pre post, hay = (pre ++ needle ++ post)%string.

Section CaseInsensitive.

Context {unicode : UnicodeData}.

(** [needle] occurs in [hay] when letter case is ignored. *)
Definition contains_ci (needle hay : string) : bool :=
  contains (lower needle) (lower hay).

Definition is_lowercase (s : string) : Prop := lower s = s.

End CaseInsensitive.

(** The characters of a text: each byte that is not a continuation byte of
    the encoding starts one. *)
Definition is_continuation (c : ascii) : bool :=
  let n := N_of_ascii c in ((128 <=? n) && (n <? 192))%N.

Fixpoint chars (s : string) : list string :=
  match s with
  | EmptyString => []
  | String c t =>
      match chars t with
      | String c' r :: rest =>
          if is_continuation c' then String c (String c' r) :: rest
          else String c EmptyString :: String c' r :: rest
      | other => String c EmptyString :: other
      end
  end.

End PyStr.

(** ** Domain loader and keyword filter ([agent/utils.py], [DomainLoader]) *)

Module DomainLoader.

Section Unicode.

Context {unicode : PyStr.UnicodeData}.

(** The comprehension of [load_domains]: the lines that are not blank,
    stripped and lower-cased. *)
Definition clean_lines (lines : list string) : list string :=
  map (fun line => PyStr.lower (PyStr.strip line))
    (List.filter (fun line => PyStr.nonempty (PyStr.strip line)) lines).

(** [filter_full_word_matches]: the loop appends to [matches] every domain
    in which the lower-cased keyword occurs. *)
Fixpoint filter_loop (keyword_lower : string) (domains matches : list string)
  : list string :=
  match domains with
  | [] => matches
  | domain :: rest =>
      if PyStr.contains keyword_lower domain
      then filter_loop keyword_lower rest (matches ++ [domain])
      else filter_loop keyword_lower rest matches
  end.

Definition filter_full_word_matches (domains : list string) (keyword : string)
  : list string :=
  let keyword_lower := PyStr.lower keyword in
  filter_loop keyword_lower domains [].

End Unicode.

End DomainLoader.

(** ** Python floats

    A finite Python [float] is modelled by the rational number it denotes.
    IEEE 754 binary64 arithmetic returns the representable number nearest to
    the exact result, ties going to the even significand; [RN] is that
    rounding (53 significant bits, gradual underflow at 2^-1074).  The
    quantities formed by the program are far below the overflow threshold,
    which is not modelled. *)

Module PyFloat.

Local Open Scope Z_scope.

(** The integer nearest to [p/q], ties to even. *)
Definition round_half_even (p : Z) (q : positive) : Z :=
  let fl := p / Z.pos q in
  let r := p mod Z.pos q in
  match 2 * r ?= Z.pos q with
  | Lt => fl
  | Gt => fl + 1
  | Eq => if Z.even fl then fl else fl + 1
  end.

(** [floor (log2 (a/b))] *)
Definition ilog2 (a b : positive) : Z :=
  let d := Z.log2 (Z.pos a) - Z.log2 (Z.pos b) in
  if Z.pos b * 2 ^ Z.max 0 d <=? Z.pos a * 2 ^ Z.max 0 (- d) then d else d - 1.

(** Exponent of the unit in the last place of the binade of [a/b]. *)
Definition ulp_exp (a b : positive) : Z := Z.max (ilog2 a b - 52) (-1074).

Definition RN_pos (a b : positive) : Q :=
  let k := ulp_exp a b in
  if 0 <=? k
  then inject_Z (round_half_even (Z.pos a) (b * Z.to_pos (2 ^ k)) * 2 ^ k)
  else Qmake (round_half_even (Z.pos a * 2 ^ (- k)) b) (Z.to_pos (2 ^ (- k))).

Definition RN (x : Q) : Q :=
  match Qnum x with
  | Z0 => 0%Q
  | Z.pos a => RN_pos a (Qden x)
  | Z.neg a => Qopp (RN_pos a (Qden x))
  end.

(** A float literal such as [0.95], and the conversion [float("0.95")]. *)
Definition float_lit (num : Z) (den : positive) : Q := RN (Qmake num den).

(** [a / b] on integers (true division, correctly rounded), [b > 0]. *)
Definition int_truediv (a : Z) (b : positive) : Q := RN (Qmake a b).

(** [x * y] and [x + y] on floats. *)
Definition fmul (x y : Q) : Q := RN (Qmult x y).
Definition fadd (x y : Q) : Q := RN (Qplus x y).

(** Number of tenths nearest to [x], ties to even: the digits that
    [format(x, ".1f")] prints and that [round(x, 1)] keeps. *)
Definition tenths (x : Q) : Z := round_half_even (10 * Qnum x) (Qden x).

(** [f"{x:.1f}"] *)
Definition format_1f (x : Q) : string :=
  let t := Z.abs (tenths x) in
  let sign := if Qnum x <? 0 then "-" else EmptyString in
  (sign ++ pretty (Z.to_N (t / 10)) ++ "." ++ pretty (Z.to_N (t mod 10)))%string.

(** [round(x, 1)]: the float nearest to the decimal with one fractional
    digit nearest to [x]. *)
Definition round1 (x : Q) : Q := RN (Qmake (tenths x) 10).

(** The same percentage computed with the binary64 operations of the
    standard library's specification of floating-point arithmetic, against
    which the rounding above is checked. *)
Definition sf_of_Z (z : Z) : spec_float := binary_normalize 53 1024 z 0 false.

Definition sf_value (f : spec_float) : option Q :=
  match f with
  | S754_zero _ => Some 0%Q
  | S754_finite s m e =>
      let n := if s then Z.neg m else Z.pos m in
      Some (if 0 <=? e then inject_Z (n * 2 ^ e) else Qmake n (Z.to_pos (2 ^ (- e))))
  | _ => None
  end.

Definition sf_percentage (part whole : Z) : spec_float :=
  SFmul 53 1024 (SFdiv 53 1024 (sf_of_Z part) (sf_of_Z whole)) (sf_of_Z 100).

End PyFloat.

(** ** Untyped Python values *)

#[warnings="-register-all"]
Inductive pyval : Type :=
| PNone
| PBool (b : bool)
| PInt (z : Z)
| PFloat (q : Q)
| PStr (s : string)
| PList (l : list pyval)
| PDict (kvs : list (string * pyval)).

Module Py.

(** [bool(v)] *)
Definition truthy (v : pyval) : bool :=
  match v with
  | PNone => false
  | PBool b => b
  | PInt z => negb (z =? 0)%Z
  | PFloat q => negb (Qnum q =? 0)%Z
  | PStr s => PyStr.nonempty s
  | PList l => match l with [] => false | _ => true end
  | PDict kvs => match kvs with [] => false | _ => true end
  end.

(** Lookup in a decoded object; a later binding of a key overrides an
    earlier one, as when a dictionary is filled from left to right. *)
Fixpoint assoc_get (k : string) (kvs : list (string * pyval)) : option pyval :=
  match kvs with
  | [] => None
  | (k', v) :: rest =>
      match assoc_get k rest with
      | Some v' => Some v'
      | None => if String.eqb k k' then Some v else None
      end
  end.

(** [v.get(k, dflt)]; [None] stands for the [AttributeError] raised when
    [v] is not a dictionary. *)
Definition get (v : pyval) (k : string) (dflt : pyval) : option pyval :=
  match v with
  | PDict kvs => Some (default dflt (assoc_get k kvs))
  | _ => None
  end.

(** [iter(v)]: the items a [for] loop visits; [None] stands for the
    [TypeError] raised when [v] is not iterable. *)
Definition iter (v : pyval) : option (list pyval) :=
  match v with
  | PList l => Some l
  | PStr s => Some (map PStr (PyStr.chars s))
  | PDict kvs => Some (map (fun kv => PStr (fst kv)) kvs)
  | _ => None
  end.

(** [v.lower()]; only strings have the method. *)
Definition lower {unicode : PyStr.UnicodeData} (v : pyval) : option pyval :=
  match v with
  | PStr s => Some (PStr (PyStr.lower s))
  | _ => None
  end.

(** [v in l] for a list [l] of strings: true when [v] is a string equal to
    an element of [l]. *)
Definition in_strs (v : pyval) (l : list string) : bool :=
  match v with
  | PStr s => bool_decide (s ∈ l)
  | _ => false
  end.

(** [x or d] on an optional string: [None] and the empty string are falsy. *)
Definition or_str (x : option string) (d : string) : string :=
  match x with
  | Some s => if PyStr.nonempty s then s else d
  | None => d
  end.

(** [f"{x}"] on an optional string *)
Definition fstr (x : option string) : string :=
  match x with
  | Some s => s
  | None => "None"
  end.

End Py.

(** ** Data model ([agent/models.py]) *)

Module ThreatAnalysis.
Record t : Type := mk
  { domain : string;
    is_threat : pyval;
    confidence : pyval;
    reason : pyval;
    risk_level : pyval;
    timestamp : string }.
End ThreatAnalysis.

Module AnalysisMetadata.
Record t : Type := mk
  { brand : string;
    keyword : string;
    total_domains : nat;
    threat_count : nat;
    filtered_count : nat;
    false_positive_reduction : string;
    timestamp : string;
    batch_size : pyval }.
End AnalysisMetadata.

Module BrandAnalysisResult.
Record t : Type := mk
  { metadata : AnalysisMetadata.t;
    threats : list ThreatAnalysis.t;
    filtered : list ThreatAnalysis.t }.
End BrandAnalysisResult.

(** The brand configuration dictionary built by [BrandProtectionConfig]. *)
Module BrandConfig.
Record t : Type := mk
  { name : string;
    industry : string;
    description : string;
    context_notes : list string }.
End BrandConfig.

(** A verdict is a dictionary with string keys. *)
Abbreviation verdict := (gmap string pyval).

Definition mk_verdict (relevant : bool) (confidence reason risk_level : pyval)
  : verdict :=
  <["relevant" := PBool relevant]>
    (<["confidence" := confidence]>
       (<["reason" := reason]>
          (<["risk_level" := risk_level]> ∅))).

(** The verdict dictionaries built by the analyzer also record the domain. *)
Definition domain_verdict (domain : string) (relevant : bool)
  (confidence reason risk_level : pyval) : verdict :=
  <["domain" := PStr domain]> (mk_verdict relevant confidence reason risk_level).

Definition half : Q := PyFloat.float_lit 5 10.

(** ** Paths ([os.path] on a POSIX system) *)

Module OsPath.

(** [s.endswith(p)] *)
Definition endswith (s p : string) : bool :=
  (String.length p <=? String.length s)%nat
  && String.eqb (PyStr.drop (String.length s - String.length p) s) p.

(** [os.path.join(a, b)] *)
Definition join (a b : string) : string :=
  if PyStr.startswith b "/" then b
  else if negb (PyStr.nonempty a) then (a ++ b)%string
  else if endswith a "/" then (a ++ b)%string
  else (a ++ "/" ++ b)%string.

(** [s.rfind(c)]: index of the last occurrence of [c] *)
Fixpoint rfind_from (i : nat) (c : ascii) (s : string) (last : option nat) : option nat :=
  match s with
  | EmptyString => last
  | String a t => rfind_from (S i) c t (if Ascii.eqb a c then Some i else last)
  end.

Definition rfind (c : ascii) (s : string) : option nat := rfind_from 0 c s None.

Fixpoint all_dots (s : string) : bool :=
  match s with
  | EmptyString => true
  | String a t => Ascii.eqb a "." && all_dots t
  end.

(** [os.path.splitext(p)[0]]: the extension starts at the last dot of the
    last component, leading dots of that component excepted. *)
Definition splitext_root (p : string) : string :=
  match rfind "." p with
  | None => p
  | Some dot_index =>
      let filename_index :=
        match rfind "/" p with
        | None => 0
        | Some sep_index => S sep_index
        end in
      if (filename_index <=? dot_index)%nat
      then
        if all_dots (String.substring filename_index (dot_index - filename_index) p)
        then p
        else String.substring 0 dot_index p
      else p
  end.

(** [os.path.basename(p)] *)
Definition basename (p : string) : string :=
  match rfind "/" p with
  | None => p
  | Some i => PyStr.drop (S i) p
  end.

End OsPath.

(** ** Results processor ([agent/utils.py], [ResultsProcessor]) *)

Module ResultsProcessor.

(** The default passed to [llm_results.get(domain, ...)]. *)
Definition unavailable : verdict :=
  mk_verdict true (PFloat half) (PStr "LLM evaluation unavailable") (PStr "medium").

(** The [ThreatAnalysis] built in the body of the loop. *)
Definition threat_analysis (llm_results : gmap string verdict)
  (timestamp domain : string) : ThreatAnalysis.t :=
  let result := default unavailable (llm_results !! domain) in
  {| ThreatAnalysis.domain := domain;
     ThreatAnalysis.is_threat := default (PBool true) (result !! "relevant");
     ThreatAnalysis.confidence := default (PFloat half) (result !! "confidence");
     ThreatAnalysis.reason := default (PStr EmptyString) (result !! "reason");
     ThreatAnalysis.risk_level := default (PStr "medium") (result !! "risk_level");
     ThreatAnalysis.timestamp := timestamp |}.

Fixpoint partition_loop (llm_results : gmap string verdict) (timestamp : string)
  (domains : list string) (threats filtered : list ThreatAnalysis.t)
  : list ThreatAnalysis.t * list ThreatAnalysis.t :=
  match domains with
  | [] => (threats, filtered)
  | domain :: rest =>
      let ta := threat_analysis llm_results timestamp domain in
      if Py.truthy (ThreatAnalysis.is_threat ta)
      then partition_loop llm_results timestamp rest (threats ++ [ta]) filtered
      else partition_loop llm_results timestamp rest threats (filtered ++ [ta])
  end.

(** [f"{len(filtered) / len(domains) * 100:.1f}%" if domains else "0.0%"] *)
Definition false_positive_reduction (filtered_count total : nat) : string :=
  match total with
  | O => "0.0%"
  | S _ =>
      (PyFloat.format_1f
         (PyFloat.fmul
            (PyFloat.int_truediv (Z.of_nat filtered_count) (Pos.of_nat total))
            (inject_Z 100))
         ++ "%")%string
  end.

Definition process_results {unicode : PyStr.UnicodeData} (domains : list string)
  (llm_results : gmap string verdict) (brand_config : BrandConfig.t)
  (batch_size : pyval) (timestamp : string) : BrandAnalysisResult.t :=
  let '(threats, filtered) := partition_loop llm_results timestamp domains [] [] in
  let metadata :=
    {| AnalysisMetadata.brand := BrandConfig.name brand_config;
       AnalysisMetadata.keyword := PyStr.lower (BrandConfig.name brand_config);
       AnalysisMetadata.total_domains := length domains;
       AnalysisMetadata.threat_count := length threats;
       AnalysisMetadata.filtered_count := length filtered;
       AnalysisMetadata.false_positive_reduction :=
         false_positive_reduction (length filtered) (length domains);
       AnalysisMetadata.timestamp := timestamp;
       AnalysisMetadata.batch_size := batch_size |} in
  {| BrandAnalysisResult.metadata := metadata;
     BrandAnalysisResult.threats := threats;
     BrandAnalysisResult.filtered := filtered |}.

(** Serialisation: [to_dict] of the three dataclasses. *)
Definition threat_to_dict (ta : ThreatAnalysis.t) : pyval :=
  PDict [ ("domain", PStr (ThreatAnalysis.domain ta));
          ("is_threat", ThreatAnalysis.is_threat ta);
          ("confidence", ThreatAnalysis.confidence ta);
          ("reason", ThreatAnalysis.reason ta);
          ("risk_level", ThreatAnalysis.risk_level ta);
          ("timestamp", PStr (ThreatAnalysis.timestamp ta)) ].

Definition metadata_to_dict (m : AnalysisMetadata.t) : pyval :=
  PDict [ ("brand", PStr (AnalysisMetadata.brand m));
          ("keyword", PStr (AnalysisMetadata.keyword m));
          ("total_domains", PInt (Z.of_nat (AnalysisMetadata.total_domains m)));
          ("threat_count", PInt (Z.of_nat (AnalysisMetadata.threat_count m)));
          ("filtered_count", PInt (Z.of_nat (AnalysisMetadata.filtered_count m)));
          ("false_positive_reduction", PStr (AnalysisMetadata.false_positive_reduction m));
          ("timestamp", PStr (AnalysisMetadata.timestamp m));
          ("batch_size", AnalysisMetadata.batch_size m) ].

Definition result_to_dict (r : BrandAnalysisResult.t) : pyval :=
  PDict [ ("metadata", metadata_to_dict (BrandAnalysisResult.metadata r));
          ("relevant_domains", PList (map threat_to_dict (BrandAnalysisResult.threats r)));
          ("filtered_domains", PList (map threat_to_dict (BrandAnalysisResult.filtered r))) ].

(** What [save_results] does to the file system, in order. *)
Inductive fs_event : Type :=
| Mkdir (path : string)
| MkdirParentOf (path : string)
| WriteCsv (path : string) (fieldnames : list string) (rows : list pyval)
| WriteJson (path : string) (content : pyval).

Definition fieldnames : list string :=
  ["domain"; "is_threat"; "confidence"; "reason"; "risk_level"; "timestamp"].

Definition output_base_path (output_path : string) : string :=
  if negb (PyStr.startswith output_path "data/")
     && negb (PyStr.startswith output_path "data\")
  then
    let base_name :=
      PyStr.remove_all ".json" (PyStr.remove_all ".csv" output_path) in
    OsPath.join "data" base_name
  else OsPath.splitext_root output_path.

Definition save_results (results : BrandAnalysisResult.t) (output_path : string)
  : list fs_event :=
  let base := output_base_path output_path in
  [Mkdir "data"; MkdirParentOf base]
  ++ (match BrandAnalysisResult.threats results with
      | [] => []
      | _ => [WriteCsv (base ++ "_threats.csv")%string fieldnames
                (map threat_to_dict (BrandAnalysisResult.threats results))]
      end)
  ++ (match BrandAnalysisResult.filtered results with
      | [] => []
      | _ => [WriteCsv (base ++ "_filtered.csv")%string fieldnames
                (map threat_to_dict (BrandAnalysisResult.filtered results))]
      end)
  ++ [WriteJson (base ++ "_complete.json")%string (result_to_dict results)].

(** The operations of [save_results] are carried out in order, and the
    first one that the operating system refuses raises [OSError]:
    [os_error done op] tells whether [op], coming after the operations
    [done], is refused.  [perform] returns the operations carried out and the
    one that raised, if any. *)
Fixpoint perform (os_error : list fs_event -> fs_event -> bool)
  (done todo : list fs_event) : list fs_event * option fs_event :=
  match todo with
  | [] => (done, None)
  | op :: rest =>
      if os_error done op then (done, Some op)
      else perform os_error (done ++ [op]) rest
  end.

End ResultsProcessor.


(** ** Brand configuration ([agent/utils.py], [BrandProtectionConfig]) *)

Module BrandProtectionConfig.

(** The double-quote character *)
Definition dq : string := String (ascii_of_N 34) EmptyString.

Section Unicode.

Context {unicode : PyStr.UnicodeData}.

Definition _create_dynamic_brand_config (brand_name : string)
  (company_name industry description : option string) : BrandConfig.t :=
  let industry := Py.or_str industry "Business" in
  let description :=
    Py.or_str description
      (Py.fstr company_name ++
       " is a company that users want to protect from domain impersonation and cybersquatting.")%string in
  let company_name := Py.or_str company_name brand_name in
  {| BrandConfig.name := PyStr.upper company_name;
     BrandConfig.industry := industry;
     BrandConfig.description := description;
     BrandConfig.context_notes :=
       [ ("Focus on domains that could confuse customers of " ++ company_name)%string;
         ("Consider domains that impersonate " ++ brand_name ++ " services")%string;
         ("Filter out domains where " ++ dq ++ PyStr.lower brand_name ++ dq
            ++ " appears coincidentally")%string;
         "Evaluate based on business context and customer confusion potential" ] |}.

Definition get_brand_config (brand_name company_name industry description : option string)
  : option BrandConfig.t :=
  match brand_name with
  | Some b =>
      if PyStr.nonempty b
      then Some (_create_dynamic_brand_config b company_name industry description)
      else None
  | None => None
  end.

End Unicode.

End BrandProtectionConfig.


(** ** A JSON decoder

    The analyzer is parametric in [json.loads].  [Json.loads] is a decoder
    for the JSON texts of RFC 8259, with which the closed examples of this
    development are evaluated.  Of what [json.loads] accepts, it leaves out
    the literals [NaN], [Infinity] and [-Infinity] and the escapes of
    surrogates, and it does not turn a number too large for a float into
    infinity. *)

Module Json.

Definition quote : ascii := ascii_of_N 34.
Definition backslash : ascii := ascii_of_N 92.

Definition is_ws (c : ascii) : bool :=
  let n := N_of_ascii c in
  ((n =? 32) || (n =? 9) || (n =? 10) || (n =? 13))%N.

Fixpoint skip_ws (s : string) : string :=
  match s with
  | String c t => if is_ws c then skip_ws t else s
  | EmptyString => s
  end.

Definition digit_of (c : ascii) : option Z :=
  let n := N_of_ascii c in
  if ((48 <=? n) && (n <=? 57))%N then Some (Z.of_N (n - 48)) else None.

Definition hex_of (c : ascii) : option N :=
  let n := N_of_ascii c in
  if ((48 <=? n) && (n <=? 57))%N then Some (n - 48)%N
  else if ((97 <=? n) && (n <=? 102))%N then Some (n - 87)%N
  else if ((65 <=? n) && (n <=? 70))%N then Some (n - 55)%N
  else None.

(** Reads a maximal run of digits: its value, its length and the rest. *)
Fixpoint digits (s : string) (acc : Z) (len : nat) : Z * nat * string :=
  match s with
  | String c t =>
      match digit_of c with
      | Some d => digits t (10 * acc + d)%Z (S len)
      | None => (acc, len, s)
      end
  | EmptyString => (acc, len, s)
  end.

(** The UTF-8 encoding of a code point below 65536. *)
Definition utf8 (code : N) : string :=
  let byte (n : N) := String (ascii_of_N n) EmptyString in
  if (code <? 128)%N then byte code
  else if (code <? 2048)%N then
    (byte (192 + code / 64)%N ++ byte (128 + code mod 64)%N)%string
  else
    (byte (224 + code / 4096)%N ++ byte (128 + (code / 64) mod 64)%N
       ++ byte (128 + code mod 64)%N)%string.

(** The characters of a string literal up to its closing quote. *)
Fixpoint string_body (s : string) : option (string * string) :=
  match s with
  | EmptyString => None
  | String c t =>
      if Ascii.eqb c quote then Some (EmptyString, t)
      else if Ascii.eqb c backslash then
        match t with
        | String e t' =>
            let simple (x : ascii) :=
              match string_body t' with
              | Some (r, rest) => Some (String x r, rest)
              | None => None
              end in
            if Ascii.eqb e quote then simple quote
            else if Ascii.eqb e backslash then simple backslash
            else if Ascii.eqb e "/" then simple "/"%char
            else if Ascii.eqb e "b" then simple (ascii_of_N 8)
            else if Ascii.eqb e "f" then simple (ascii_of_N 12)
            else if Ascii.eqb e "n" then simple (ascii_of_N 10)
            else if Ascii.eqb e "r" then simple (ascii_of_N 13)
            else if Ascii.eqb e "t" then simple (ascii_of_N 9)
            else if Ascii.eqb e "u" then
              match t' with
              | String h1 (String h2 (String h3 (String h4 t''))) =>
                  match hex_of h1, hex_of h2, hex_of h3, hex_of h4 with
                  | Some a, Some b, Some c', Some d =>
                      let code := (((a * 16 + b) * 16 + c') * 16 + d)%N in
                      if ((55296 <=? code) && (code <? 57344))%N then None
                      else
                        match string_body t'' with
                        | Some (r, rest) => Some ((utf8 code ++ r)%string, rest)
                        | None => None
                        end
                  | _, _, _, _ => None
                  end
              | _ => None
              end
            else None
        | EmptyString => None
        end
      else if (N_of_ascii c <? 32)%N then None
      else
        match string_body t with
        | Some (r, rest) => Some (String c r, rest)
        | None => None
        end
  end.

(** A number: an optional minus sign, an integer part without leading
    zeros, an optional fraction and an optional exponent.  It is an integer
    when there is neither fraction nor exponent, a float otherwise. *)
Definition number (s : string) : option (pyval * string) :=
  let '(neg, s1) :=
    match s with
    | String "-" t => (true, t)
    | _ => (false, s)
    end in
  let '(ip, ilen, s2) :=
    match s1 with
    | String "0" t => (0%Z, 1%nat, t)
    | _ => digits s1 0%Z 0%nat
    end in
  match ilen with
  | O => None
  | S _ =>
      let frac :=
        match s2 with
        | String "." t =>
            let '(fp, flen, s3) := digits t 0%Z 0%nat in
            match flen with
            | O => None
            | S _ => Some (Some (fp, flen), s3)
            end
        | _ => Some (None, s2)
        end in
      match frac with
      | None => None
      | Some (fr, s3) =>
          let expo :=
            match s3 with
            | String c t =>
                if Ascii.eqb c "e" || Ascii.eqb c "E" then
                  let '(eneg, t1) :=
                    match t with
                    | String "-" u => (true, u)
                    | String "+" u => (false, u)
                    | _ => (false, t)
                    end in
                  let '(ev, elen, s4) := digits t1 0%Z 0%nat in
                  match elen with
                  | O => Some (None, s3)
                  | S _ => Some (Some (if eneg then (- ev)%Z else ev), s4)
                  end
                else Some (None, s3)
            | EmptyString => Some (None, s3)
            end in
          match expo with
          | None => None
          | Some (ex, s4) =>
              let sign (z : Z) := if neg : bool then (- z)%Z else z in
              match fr, ex with
              | None, None => Some (PInt (sign ip), s4)
              | _, _ =>
                  let '(fp, flen) := default (0%Z, 0%nat) fr in
                  let e := (default 0%Z ex - Z.of_nat flen)%Z in
                  let m := sign (ip * 10 ^ Z.of_nat flen + fp)%Z in
                  let q :=
                    if (0 <=? e)%Z then inject_Z (m * 10 ^ e)
                    else Qmake m (Z.to_pos (10 ^ (- e))) in
                  Some (PFloat (PyFloat.RN q), s4)
              end
          end
      end
  end.

(** Assignment [d[k] = v] on a dictionary kept in insertion order. *)
Fixpoint dict_set (k : string) (v : pyval) (kvs : list (string * pyval))
  : list (string * pyval) :=
  match kvs with
  | [] => [(k, v)]
  | (k', v') :: rest =>
      if String.eqb k k' then (k', v) :: rest else (k', v') :: dict_set k v rest
  end.

Inductive context : Type :=
| CValue
| CArray (acc : list pyval)
| CObject (acc : list (string * pyval)).

Fixpoint parse (fuel : nat) (c : context) (s : string) : option (pyval * string) :=
  match fuel with
  | O => None
  | S fuel' =>
      match c with
      | CValue =>
          match skip_ws s with
          | EmptyString => None
          | String a t as s0 =>
              if Ascii.eqb a "{" then
                match skip_ws t with
                | String "}" t' => Some (PDict [], t')
                | t' => parse fuel' (CObject []) t'
                end
              else if Ascii.eqb a "[" then
                match skip_ws t with
                | String "]" t' => Some (PList [], t')
                | t' => parse fuel' (CArray []) t'
                end
              else if Ascii.eqb a quote then
                match string_body t with
                | Some (str, rest) => Some (PStr str, rest)
                | None => None
                end
              else if PyStr.startswith s0 "true" then Some (PBool true, PyStr.drop 4 s0)
              else if PyStr.startswith s0 "false" then Some (PBool false, PyStr.drop 5 s0)
              else if PyStr.startswith s0 "null" then Some (PNone, PyStr.drop 4 s0)
              else number s0
          end
      | CArray acc =>
          match parse fuel' CValue s with
          | Some (v, rest) =>
              match skip_ws rest with
              | String "," t => parse fuel' (CArray (acc ++ [v])) t
              | String "]" t => Some (PList (acc ++ [v]), t)
              | _ => None
              end
          | None => None
          end
      | CObject acc =>
          match skip_ws s with
          | String a t =>
              if Ascii.eqb a quote then
                match string_body t with
                | Some (k, rest) =>
                    match skip_ws rest with
                    | String ":" t2 =>
                        match parse fuel' CValue t2 with
                        | Some (v, rest2) =>
                            match skip_ws rest2 with
                            | String "," t3 => parse fuel' (CObject (dict_set k v acc)) t3
                            | String "}" t3 => Some (PDict (dict_set k v acc), t3)
                            | _ => None
                            end
                        | None => None
                        end
                    | _ => None
                    end
                | None => None
                end
              else None
          | EmptyString => None
          end
      end
  end.

(** [json.loads(s)]; [None] stands for [JSONDecodeError]. *)
Definition loads (s : string) : option pyval :=
  match parse (2 * String.length s + 2) CValue s with
  | Some (v, rest) =>
      match skip_ws rest with
      | EmptyString => Some v
      | _ => None
      end
  | None => None
  end.

(** Writes a text with ['] where the JSON text has the double quote. *)
Definition q (s : string) : string :=
  PyStr.map_chars (fun c => if Ascii.eqb c "'" then quote else c) s.

End Json.


(** ** The LLM client ([agent/agent.py], [GeminiAnalyzer]) *)

Module GeminiAnalyzer.

(** The token counts of a response; a count may be [None]. *)
Record usage_metadata : Type := mk_usage
  { prompt_token_count : option nat;
    candidates_token_count : option nat;
    total_token_count : option nat }.

(** A response object: its text and, when the attribute is there, its
    [usage_metadata] (which may itself be [None]). *)
Record response : Type := mk_response
  { text : option string;
    usage : option (option usage_metadata) }.

(** The outcome of one call of [generate_content]: an exception, given by
    its message [str(e)], or a response object (possibly [None]). *)
Inductive outcome : Type :=
| Raises (error_msg : string)
| Returns (r : option response).

Inductive sleep_kind : Type := Backoff | RateLimit.

Inductive log_event : Type :=
| WarnNotConfigured
| WarnInvalidBatchSize (batch_size : pyval)
| InfoAnalyzing (n_domains total_batches batch_size : nat)
| InfoRateLimits (total_batches : nat)
| InfoProcessingBatch (batch_num total_batches n : nat)
| InfoTokenUsage (batch_num input_tokens output_tokens total_tokens : nat)
| WarnBatchError (batch_num attempt : nat) (error_msg : string)
| WarnOverloadedWaiting (wait_time : Q)
| WarnMaxRetries (batch_num : nat)
| WarnNonRecoverable (batch_num : nat) (error_msg : string)
| InfoWaitingNextBatch (wait_time : Q)
| InfoTotalTokenUsage (input_tokens output_tokens total_tokens : nat)
| ParseJsonDecodeError
| ParseNoJsonFound
| ParseError.

(** The mutable state of a run: the number of requests sent, the number of
    random draws, the calls of [time.sleep], the log, and the running token
    counters of the analyzer. *)
Record world : Type := mk_world
  { calls : nat;
    draws : nat;
    sleeps : list (sleep_kind * Q);
    log : list log_event;
    total_input_tokens : nat;
    total_output_tokens : nat;
    total_tokens_used : nat }.

Definition initial_world : world := mk_world 0 0 [] [] 0 0 0.

Definition tick_call (w : world) : world :=
  mk_world (S (calls w)) (draws w) (sleeps w) (log w)
    (total_input_tokens w) (total_output_tokens w) (total_tokens_used w).

Definition tick_draw (w : world) : world :=
  mk_world (calls w) (S (draws w)) (sleeps w) (log w)
    (total_input_tokens w) (total_output_tokens w) (total_tokens_used w).

Definition sleep (k : sleep_kind) (seconds : Q) (w : world) : world :=
  mk_world (calls w) (draws w) (sleeps w ++ [(k, seconds)]) (log w)
    (total_input_tokens w) (total_output_tokens w) (total_tokens_used w).

Definition emit (e : log_event) (w : world) : world :=
  mk_world (calls w) (draws w) (sleeps w) (log w ++ [e])
    (total_input_tokens w) (total_output_tokens w) (total_tokens_used w).

Definition set_tokens (i o t : nat) (w : world) : world :=
  mk_world (calls w) (draws w) (sleeps w) (log w) i o t.

Section Unicode.

Context {unicode : PyStr.UnicodeData}.

(** [is_configured]: the key is there and is not blank. *)
Definition is_configured (api_key : option string) : bool :=
  match api_key with
  | Some k => PyStr.nonempty (PyStr.strip k)
  | None => false
  end.

Definition max_retries : nat := 3.
Definition base_wait : Z := 15.
Definition default_batch_size : nat := 200.

(** The batch size in use: an [int] greater than zero is kept ([True] is
    the integer 1), anything else is replaced by the default. *)
Definition valid_batch_size (batch_size : pyval) : option nat :=
  match batch_size with
  | PInt z => if (0 <? z)%Z then Some (Z.to_nat z) else None
  | PBool true => Some 1
  | _ => None
  end.

Definition is_overload (error_msg : string) : bool :=
  PyStr.contains "503" error_msg
  || PyStr.contains "overloaded" (PyStr.lower error_msg)
  || PyStr.contains "unavailable" (PyStr.lower error_msg).

Definition no_threat (domain : string) : verdict :=
  domain_verdict domain false (PFloat (PyFloat.float_lit 95 100))
    (PStr "No threat detected") (PStr "low").

Definition overloaded_fallback (domain : string) : verdict :=
  domain_verdict domain true (PFloat half)
    (PStr "API overloaded after 3 retries") (PStr "medium").

Definition error_fallback (error_msg domain : string) : verdict :=
  domain_verdict domain true (PFloat half)
    (PStr ("API error: " ++ error_msg)) (PStr "medium").

(** [base_wait * (2 ** attempt) + jitter] and [base_wait + jitter] *)
Definition backoff_wait (attempt : nat) (jitter : Q) : Q :=
  PyFloat.fadd (inject_Z (base_wait * 2 ^ Z.of_nat attempt)) jitter.

Definition rate_limit_wait (jitter : Q) : Q :=
  PyFloat.fadd (inject_Z base_wait) jitter.

(** [for domain in batch: results[domain] = v(domain)] *)
Fixpoint assign_all (v : string -> verdict) (batch : list string)
  (results : gmap string verdict) : gmap string verdict :=
  match batch with
  | [] => results
  | domain :: rest => assign_all v rest (<[domain := v domain]> results)
  end.

(** The match of the pattern [\{.*\}] with [re.DOTALL]: from the first
    opening brace to the last closing brace after it. *)
Fixpoint from_first (c : ascii) (s : string) : option string :=
  match s with
  | EmptyString => None
  | String a t => if Ascii.eqb a c then Some s else from_first c t
  end.

Fixpoint up_to_last (c : ascii) (s : string) : option string :=
  match s with
  | EmptyString => None
  | String a t =>
      match up_to_last c t with
      | Some r => Some (String a r)
      | None => if Ascii.eqb a c then Some (String a EmptyString) else None
      end
  end.

Definition search_braces (response_text : string) : option string :=
  match from_first "{" response_text with
  | Some s => up_to_last "}" s
  | None => None
  end.

(** The dictionary written for one entry of the [threats] array that names
    [domain]; [None] when [risk_level] has no method [lower]. *)
Definition threat_verdict (threat : pyval) (domain : string) : option verdict :=
  match Py.get threat "confidence" (PFloat (PyFloat.float_lit 8 10)),
        Py.get threat "reason" (PStr "Potential threat"),
        Py.get threat "risk_level" (PStr "medium") with
  | Some confidence, Some reason, Some risk_level =>
      match Py.lower risk_level with
      | Some risk => Some (domain_verdict domain true confidence reason risk)
      | None => None
      end
  | _, _, _ => None
  end.

(** The second loop of [_parse_response]; [None] stands for an exception. *)
Fixpoint update_threats (threats : list pyval) (batch_domains : list string)
  (results : gmap string verdict) : option (gmap string verdict) :=
  match threats with
  | [] => Some results
  | threat :: rest =>
      match Py.get threat "domain" PNone with
      | None => None
      | Some domain =>
          match domain with
          | PStr d =>
              if bool_decide (d ∈ batch_domains)
              then
                match threat_verdict threat d with
                | Some v => update_threats rest batch_domains (<[d := v]> results)
                | None => None
                end
              else update_threats rest batch_domains results
          | _ => update_threats rest batch_domains results
          end
      end
  end.

(** The body of the inner [try] of [_parse_response] once the text is
    decoded; [None] stands for an exception other than [JSONDecodeError]. *)
Definition build_results (data : pyval) (batch_domains : list string)
  : option (gmap string verdict) :=
  match Py.get data "threats" (PList []) with
  | None => None
  | Some threats =>
      let results := assign_all no_threat batch_domains ∅ in
      match Py.iter threats with
      | None => None
      | Some items => update_threats items batch_domains results
      end
  end.

(** Reading the [threats] array: whether an entry names [d], the verdict
    written by the last entry that names [d], and the entries the second loop
    handles without raising: objects whose [risk_level], when the entry names
    a domain of the batch, is absent or a string. *)
Definition names (d : string) (threat : pyval) : bool :=
  match Py.get threat "domain" PNone with
  | Some (PStr s) => String.eqb s d
  | _ => false
  end.

Fixpoint last_verdict (d : string) (threats : list pyval) : option verdict :=
  match threats with
  | [] => None
  | threat :: rest =>
      match last_verdict d rest with
      | Some v => Some v
      | None => if names d threat then threat_verdict threat d else None
      end
  end.

Definition shaped (batch_domains : list string) (threat : pyval) : Prop :=
  match threat with
  | PDict kvs =>
      match default PNone (Py.assoc_get "domain" kvs) with
      | PStr d =>
          In d batch_domains ->
          exists risk,
            default (PStr "medium") (Py.assoc_get "risk_level" kvs) = PStr risk
      | _ => True
      end
  | _ => False
  end.

(** The log only grows. *)
Definition log_extends (w w' : world) : Prop := exists l, log w' = log w ++ l.

Section Client.

(** [generate n batch]: the outcome of the [n]-th request, sent for [batch]
    (the prompt is a function of the batch and of the brand configuration,
    which does not change during a run). *)
Variable generate : nat -> list string -> outcome.

(** [uniform n a b]: the [n]-th draw, [random.uniform(a, b)]. *)
Variable uniform : nat -> Q -> Q -> Q.

(** [json.loads] *)
Variable json_loads : string -> option pyval.

(** [_parse_response] with the events it logs. *)
Definition parse_response_log (response_text : string) (batch_domains : list string)
  : gmap string verdict * list log_event :=
  match search_braces response_text with
  | Some json_str =>
      match json_loads json_str with
      | Some data =>
          match build_results data batch_domains with
          | Some results => (results, [])
          | None => (∅, [ParseError])
          end
      | None => (∅, [ParseJsonDecodeError])
      end
  | None => (∅, [ParseNoJsonFound])
  end.

Definition _parse_response (response_text : string) (batch_domains : list string)
  : gmap string verdict :=
  fst (parse_response_log response_text batch_domains).

(** What the body of the [try] statement ends with. *)
Inductive try_result : Type :=
| Break (w : world) (results : gmap string verdict)
| FallThrough (w : world)
| Except (w : world) (error_msg : string).

Definition type_error : string :=
  "unsupported operand type(s) for +=: 'int' and 'NoneType'".

(** The token accounting: three additions in sequence, each of which
    raises [TypeError] when the count is [None]. *)
Definition account (u : option usage_metadata) (batch_num : nat) (w : world)
  : world + world :=
  let get (f : usage_metadata -> option nat) : option nat :=
    match u with
    | Some m => f m
    | None => Some 0
    end in
  match get prompt_token_count, get candidates_token_count, get total_token_count with
  | Some i, Some o, Some t =>
      inl (emit (InfoTokenUsage batch_num i o t)
             (set_tokens (total_input_tokens w + i) (total_output_tokens w + o)
                (total_tokens_used w + t) w))
  | None, _, _ => inr w
  | Some i, None, _ =>
      inr (set_tokens (total_input_tokens w + i) (total_output_tokens w)
             (total_tokens_used w) w)
  | Some i, Some o, None =>
      inr (set_tokens (total_input_tokens w + i) (total_output_tokens w + o)
             (total_tokens_used w) w)
  end.

Definition try_body (batch : list string) (batch_num : nat) (w : world)
  (results : gmap string verdict) : try_result :=
  let w1 := tick_call w in
  match generate (calls w) batch with
  | Raises error_msg => Except w1 error_msg
  | Returns None => FallThrough w1
  | Returns (Some r) =>
      match text r with
      | None => FallThrough w1
      | Some response_text =>
          if PyStr.nonempty response_text then
            let accounted :=
              match usage r with
              | Some u => account u batch_num w1
              | None => inl w1
              end in
            match accounted with
            | inr w2 => Except w2 type_error
            | inl w2 =>
                let '(batch_results, events) := parse_response_log response_text batch in
                Break (foldl (fun acc e => emit e acc) w2 events)
                  (batch_results ∪ results)
            end
          else FallThrough w1
      end
  end.

(** [for attempt in range(max_retries)], entered at [attempt] with
    [remaining] iterations left. *)
Fixpoint attempt_loop (remaining attempt : nat) (batch : list string)
  (batch_num : nat) (w : world) (results : gmap string verdict)
  : world * gmap string verdict :=
  match remaining with
  | O => (w, results)
  | S remaining' =>
      match try_body batch batch_num w results with
      | Break w' results' => (w', results')
      | FallThrough w' =>
          attempt_loop remaining' (S attempt) batch batch_num w' results
      | Except w' error_msg =>
          let w1 := emit (WarnBatchError batch_num (attempt + 1) error_msg) w' in
          if is_overload error_msg then
            if (attempt <? max_retries - 1)%nat then
              let wait_time := backoff_wait attempt (uniform (draws w1) 0 5) in
              let w2 := emit (WarnOverloadedWaiting wait_time) (tick_draw w1) in
              attempt_loop remaining' (S attempt) batch batch_num
                (sleep Backoff wait_time w2) results
            else
              let w2 := emit (WarnMaxRetries batch_num) w1 in
              attempt_loop remaining' (S attempt) batch batch_num w2
                (assign_all overloaded_fallback batch results)
          else
            (emit (WarnNonRecoverable batch_num error_msg) w1,
             assign_all (error_fallback error_msg) batch results)
      end
  end.

(** The body of the loop over the batches, for the batch starting at [i]. *)
Definition process_batch (domains : list string) (batch_size total_batches : nat)
  (st : world * gmap string verdict) (i : nat) : world * gmap string verdict :=
  let '(w, results) := st in
  let batch := take batch_size (drop i domains) in
  let batch_num := i / batch_size + 1 in
  let w0 := emit (InfoProcessingBatch batch_num total_batches (length batch)) w in
  let '(w1, results1) := attempt_loop max_retries 0 batch batch_num w0 results in
  if (batch_num <? total_batches)%nat then
    let wait_time := rate_limit_wait (uniform (draws w1) 0 3) in
    (sleep RateLimit wait_time (emit (InfoWaitingNextBatch wait_time) (tick_draw w1)),
     results1)
  else (w1, results1).

(** [range(0, n, step)] for [step > 0] *)
Definition range_step (n step : nat) : list nat :=
  map (fun k => k * step) (seq 0 ((n + step - 1) / step)).

Definition analyze_domains (api_key : option string) (domains : list string)
  (batch_size : pyval) (w : world) : world * gmap string verdict :=
  if negb (is_configured api_key) then (emit WarnNotConfigured w, ∅)
  else
    let '(w1, batch_size) :=
      match valid_batch_size batch_size with
      | Some n => (w, n)
      | None => (emit (WarnInvalidBatchSize batch_size) w, default_batch_size)
      end in
    let total_batches := (length domains + batch_size - 1) / batch_size in
    let w2 :=
      emit (InfoRateLimits total_batches)
        (emit (InfoAnalyzing (length domains) total_batches batch_size) w1) in
    let '(w3, results) :=
      foldl (process_batch domains batch_size total_batches) (w2, ∅)
        (range_step (length domains) batch_size) in
    (emit (InfoTotalTokenUsage (total_input_tokens w3) (total_output_tokens w3)
             (total_tokens_used w3)) w3,
     results).

End Client.

End Unicode.

End GeminiAnalyzer.

(** ** The orchestrator ([agent/agent.py], [BrandProtectionAgent]) *)

Module BrandProtectionAgent.

(** What a run has built and done: the result, the state of the client and
    the operations carried out on the file system. *)
Record run : Type := mk_run
  { result : BrandAnalysisResult.t;
    final : GeminiAnalyzer.world;
    written : list ResultsProcessor.fs_event }.

(** The exceptions that leave [analyze_domains]; the [OSError] of
    [save_results] comes with the operation that raised it and with what the
    run had built and done by then. *)
Inductive error : Type :=
| ValueError (msg : string)
| FileNotFoundError (file_path : string)
| OSError (failed : ResultsProcessor.fs_event) (r : run).

Section Agent.

Context {unicode : PyStr.UnicodeData}.

Variable generate : nat -> list string -> GeminiAnalyzer.outcome.
Variable uniform : nat -> Q -> Q -> Q.
Variable json_loads : string -> option pyval.

(** [read path]: the lines of the file at [path], when it is a file. *)
Variable read : string -> option (list string).

(** [datetime.now().isoformat()] *)
Variable now : string.

(** Whether the operating system refuses an operation of [save_results]. *)
Variable os_error :
  list ResultsProcessor.fs_event -> ResultsProcessor.fs_event -> bool.

Definition load_domains (file_path : string) : option (list string) :=
  match read file_path with
  | Some lines => Some (DomainLoader.clean_lines lines)
  | None =>
      match read (OsPath.join "data" (OsPath.basename file_path)) with
      | Some lines => Some (DomainLoader.clean_lines lines)
      | None => None
      end
  end.

Definition analyze_domains (api_key : option string) (domains_file : string)
  (brand_name company_name industry description output_path : option string)
  (batch_size : pyval) : error + run :=
  if negb (GeminiAnalyzer.is_configured api_key)
  then inl (ValueError
    "GEMINI_API_KEY not found. Please set your API key in environment variables or .env file.")
  else
    match BrandProtectionConfig.get_brand_config brand_name company_name
            industry description with
    | None => inl (ValueError "No valid brand configuration provided. Use --brand-name")
    | Some brand_config =>
        let keyword :=
          Py.or_str brand_name (PyStr.lower (BrandConfig.name brand_config)) in
        match load_domains domains_file with
        | None => inl (FileNotFoundError domains_file)
        | Some all_domains =>
            let relevant_domains :=
              DomainLoader.filter_full_word_matches all_domains keyword in
            match relevant_domains with
            | [] =>
                let metadata :=
                  {| AnalysisMetadata.brand := BrandConfig.name brand_config;
                     AnalysisMetadata.keyword := keyword;
                     AnalysisMetadata.total_domains := 0;
                     AnalysisMetadata.threat_count := 0;
                     AnalysisMetadata.filtered_count := 0;
                     AnalysisMetadata.false_positive_reduction := "0.0%";
                     AnalysisMetadata.timestamp := now;
                     AnalysisMetadata.batch_size := batch_size |} in
                inr (mk_run (BrandAnalysisResult.mk metadata [] [])
                       GeminiAnalyzer.initial_world [])
            | _ =>
                let '(w, llm_results) :=
                  GeminiAnalyzer.analyze_domains generate uniform json_loads
                    api_key relevant_domains batch_size
                    GeminiAnalyzer.initial_world in
                let results :=
                  ResultsProcessor.process_results relevant_domains llm_results
                    brand_config batch_size now in
                match output_path with
                | Some path =>
                    if PyStr.nonempty path
                    then
                      match ResultsProcessor.perform os_error []
                              (ResultsProcessor.save_results results path) with
                      | (written, None) => inr (mk_run results w written)
                      | (written, Some failed) =>
                          inl (OSError failed (mk_run results w written))
                      end
                    else inr (mk_run results w [])
                | None => inr (mk_run results w [])
                end
            end
        end
    end.

End Agent.

End BrandProtectionAgent.

(** ** The prompt ([agent/prompt.py]) *)

Module Prompt.

Definition nl : string := String (ascii_of_N 10) EmptyString.

(** [sep.join(parts)] *)
Fixpoint join (sep : string) (parts : list string) : string :=
  match parts with
  | [] => EmptyString
  | [p] => p
  | p :: rest => (p ++ sep ++ join sep rest)%string
  end.

(** A text given by its lines. *)
Definition text (lines : list string) : string := join nl lines.

(** The three literal parts of the prompt: what comes before the list of
    domains, the rules after it, and the expected JSON format.  A double
    quote of the source is written ['] and put back by [Json.q]. *)
Definition head (brand_config : BrandConfig.t) (context_notes : string) : string :=
  ((text
      [ "You are a Brand Protection Analyst for " ])
   ++ BrandConfig.name brand_config
   ++ (text
      [ " (" ])
   ++ BrandConfig.industry brand_config
   ++ (text
      [ ") for several years now.";
        EmptyString;
        "    BRAND CONTEXT:";
        "    - Company: " ])
   ++ BrandConfig.name brand_config
   ++ (text
      [ EmptyString;
        "    - Industry: " ])
   ++ BrandConfig.industry brand_config
   ++ (text
      [ EmptyString;
        "    - Description: " ])
   ++ BrandConfig.description brand_config
   ++ (text
      [ EmptyString;
        EmptyString;
        "    CONTEXT NOTES:";
        "    " ])
   ++ context_notes
   ++ (text
      [ EmptyString;
        EmptyString;
        "    TASK: Analyze these newly registered domains for potential brand threats. Only return domains that could realistically threaten " ])
   ++ BrandConfig.name brand_config
   ++ (text
      [ " through customer confusion or impersonation.";
        EmptyString;
        "    DOMAINS TO CHECK:";
        "    " ]))%string.

Definition rules (brand_config : BrandConfig.t) : string :=
  (Json.q (text
      [ EmptyString;
        EmptyString;
        "    CRITICAL THREAT ASSESSMENT RULES:";
        "    1. Domains that combine the brand name with legitimate business terms (com, corp, group, tech, solutions, services, global, etc.) are HIGH RISK - they appear credible and can confuse customers";
        "    2. Domains that look 'professional' or 'official' and could confuse customers";
        "    3. Domains that could represent official services, divisions, or products";
        "    4. Consider: 'Would a customer believe this could be an official " ])
   ++ BrandConfig.name brand_config
   ++ Json.q (text
      [ " website or service?'";
        "    5. The more legitimate a domain appears, the higher the threat level for customer confusion";
        EmptyString;
        EmptyString;
        "    NEVER FLAG as threats:";
        "    1. Brand name + random character strings";
        "    2. Domains where suspicious TLD is the only concerning factor";
        EmptyString;
        "    Your response should be in this exact JSON format:";
        "    " ]))%string.

Definition format : string :=
  Json.q (text
      [ EmptyString;
        "    {";
        "        'threats': [";
        "            {";
        "                'domain': 'risky-domain.com',";
        "                'reason': 'Could impersonate official services',";
        "                'risk_level': 'HIGH',";
        "                'confidence': 0.9";
        "            }";
        "        ]";
        "    }";
        EmptyString;
        "    If no domains are risky, respond with:";
        "    {";
        "        'threats': []";
        "    }";
        EmptyString;
        "    Analyze now:" ]).

(** [for i, domain in enumerate(domains, i): prompt += f"{i}. {domain}\n"] *)
Fixpoint add_domains (i : nat) (domains : list string) (prompt : string) : string :=
  match domains with
  | [] => prompt
  | domain :: rest =>
      add_domains (S i) rest (prompt ++ pretty i ++ ". " ++ domain ++ nl)%string
  end.

Definition create_evaluation_prompt (domains : list string)
  (brand_config : BrandConfig.t) : string :=
  let context_notes :=
    join nl (map (fun note => ("- " ++ note)%string)
               (BrandConfig.context_notes brand_config)) in
  let prompt := head brand_config context_notes in
  let prompt := add_domains 1 domains prompt in
  let prompt := (prompt ++ rules brand_config)%string in
  (prompt ++ format)%string.

End Prompt.

(** ** Analyst modes ([agent/agent.py], [GeminiAnalyzer]) *)

Module AnalystMode.

(** The arguments given to [GenerateContentConfig]. *)
Record GenerateContentConfig : Type := mk
  { temperature : pyval;
    top_k : Z;
    top_p : pyval;
    seed : Z;
    max_output_tokens : Z;
    response_mime_type : string }.

Definition junior : GenerateContentConfig :=
  mk (PInt 0) 1 (PInt 0) 42 65536 "application/json".

Definition senior : GenerateContentConfig :=
  mk (PFloat (PyFloat.float_lit 1 10)) 3 (PFloat (PyFloat.float_lit 1 10)) 42 65536
    "application/json".

Definition expert : GenerateContentConfig :=
  mk (PFloat (PyFloat.float_lit 2 10)) 5 (PFloat (PyFloat.float_lit 2 10)) 42 65536
    "application/json".

(** [get_generation_config]: the configuration, and whether the fall-back
    to senior was logged.  The recursive call of the last branch is on the
    constant senior, whose branch returns at once. *)
Definition get_generation_config (mode : string) : GenerateContentConfig * bool :=
  if String.eqb mode "junior" then (junior, false)
  else if String.eqb mode "senior" then (senior, false)
  else if String.eqb mode "expert" then (expert, false)
  else (senior, true).

Definition get_mode_description (mode : string) : string :=
  if String.eqb mode "junior"
  then "Entry-level analyst - Follows established patterns, consistent threat detection"
  else if String.eqb mode "senior"
  then "Experienced analyst - Balanced expertise with nuanced reasoning"
  else if String.eqb mode "expert"
  then "specialist - Advanced pattern recognition and novel threat detection"
  else "Unknown analyst level".

End AnalystMode.

(** ** Resolving the API key ([agent/utils.py], [get_api_key]) *)

Module ApiKey.

(** What [getpass] gives: the text typed, or [KeyboardInterrupt]/[EOFError]. *)
Inductive interactive : Type :=
| Typed (s : string)
| Interrupted.

Inductive outcome : Type :=
| Key (api_key : string)
| Exit (status : Z)
| ValueError (msg : string).

Definition truthy (x : option string) : bool :=
  match x with
  | Some s => PyStr.nonempty s
  | None => false
  end.

(** [get_api_key]: [arg] is [args.api_key], [env] the environment variable
    when the function is entered, [env_dotenv] the variable once
    [load_dotenv] has run, [input] what the user does at the prompt. *)
Definition get_api_key {unicode : PyStr.UnicodeData}
  (arg env env_dotenv : option string) (input : interactive) : outcome :=
  if truthy arg then Key (default EmptyString arg)
  else if truthy env then Key (default EmptyString env)
  else if truthy env_dotenv then Key (default EmptyString env_dotenv)
  else
    match input with
    | Typed typed =>
        let api_key := PyStr.strip typed in
        if PyStr.nonempty api_key then Key (PyStr.strip api_key)
        else ValueError "No API key provided"
    | Interrupted => Exit 1
    end.

End ApiKey.

(** ** The command line ([main.py]) *)

Module Main.

(** The parsed arguments. *)
Record args : Type := mk_args
  { domains : string;
    brand_name : string;
    api_key : option string;
    company_name : option string;
    industry : option string;
    description : option string;
    batch_size : Z;
    output : option string;
    analyst : string }.

(** What [main] logs after a run: the metadata, and the threats it lists
    (none when the count is zero, where it logs that no threat was found). *)
Record summary : Type := mk_summary
  { metadata : AnalysisMetadata.t;
    mode : string;
    investigate : list ThreatAnalysis.t }.

Inductive outcome : Type :=
| Exit (status : Z)
| Return (s : summary) (r : BrandProtectionAgent.run).

Section Main.

Context {unicode : PyStr.UnicodeData}.

Variable generate : nat -> list string -> GeminiAnalyzer.outcome.
Variable uniform : nat -> Q -> Q -> Q.
Variable json_loads : string -> option pyval.
Variable read : string -> option (list string).
Variable now : string.
Variable os_error :
  list ResultsProcessor.fs_event -> ResultsProcessor.fs_event -> bool.

(** The environment variable, before and after [load_dotenv], and the
    user at the prompt. *)
Variable env env_dotenv : option string.
Variable input : ApiKey.interactive.

Definition main (a : args) : outcome :=
  if negb (PyStr.nonempty (domains a)) then Exit 1
  else if negb (PyStr.nonempty (brand_name a)) then Exit 1
  else
    match ApiKey.get_api_key (api_key a) env env_dotenv input with
    | ApiKey.Exit status => Exit status
    | ApiKey.ValueError _ => Exit 1
    | ApiKey.Key key =>
        if negb (PyStr.nonempty key) then Exit 1
        else
          match BrandProtectionAgent.analyze_domains generate uniform json_loads
                  read now os_error (Some key) (domains a) (Some (brand_name a))
                  (company_name a) (industry a) (description a) (output a)
                  (PInt (batch_size a)) with
          | inl _ => Exit 1
          | inr r =>
              let m := BrandAnalysisResult.metadata (BrandProtectionAgent.result r) in
              let listed :=
                if (0 <? AnalysisMetadata.threat_count m)%nat
                then BrandAnalysisResult.threats (BrandProtectionAgent.result r)
                else [] in
              Return (mk_summary m (PyStr.upper (analyst a)) listed) r
          end
    end.

End Main.

End Main.

(** ** The batches of a run *)

Module Batching.

(** The slices [domains[i:i + batch_size]] taken by the loop of
    [GeminiAnalyzer.analyze_domains], in order. *)
Definition batches (domains : list string) (batch_size : nat) : list (list string) :=
  map (fun i => take batch_size (drop i domains))
    (GeminiAnalyzer.range_step (length domains) batch_size).

Definition total_batches (domains : list string) (batch_size : nat) : nat :=
  (length domains + batch_size - 1) / batch_size.

(** The sleeps of one kind among the calls of [time.sleep]. *)
Definition count_sleeps (k : GeminiAnalyzer.sleep_kind)
  (sleeps : list (GeminiAnalyzer.sleep_kind * Q)) : nat :=
  length (List.filter
            (fun s => match fst s, k with
                      | GeminiAnalyzer.Backoff, GeminiAnalyzer.Backoff => true
                      | GeminiAnalyzer.RateLimit, GeminiAnalyzer.RateLimit => true
                      | _, _ => false
                      end) sleeps).

(** The lines [Processing batch k/total: n domains] of a log, in order. *)
Definition processing (log : list GeminiAnalyzer.log_event) : list (nat * nat * nat) :=
  flat_map (fun e => match e with
                     | GeminiAnalyzer.InfoProcessingBatch batch_num total_batches n =>
                         [(batch_num, total_batches, n)]
                     | _ => []
                     end) log.

End Batching.

(** ** Sample oracles, for the closed instances below *)

Module Sample.

(** A service that flags tui-corp.com, whatever the batch. *)
Definition generate (n : nat) (batch : list string) : GeminiAnalyzer.outcome :=
  GeminiAnalyzer.Returns
    (Some (GeminiAnalyzer.mk_response
             (Some (Json.q "{'threats': [{'domain': 'tui-corp.com', 'risk_level': 'HIGH', 'confidence': 0.9}]}"))
             None)).

(** A service that is always overloaded, and one that always fails. *)
Definition overloaded (n : nat) (batch : list string) : GeminiAnalyzer.outcome :=
  GeminiAnalyzer.Raises "503 Service Unavailable".

Definition failing (n : nat) (batch : list string) : GeminiAnalyzer.outcome :=
  GeminiAnalyzer.Raises "400 Bad Request".

Definition uniform (n : nat) (a b : Q) : Q := (a + 1)%Q.

Definition read (path : string) : option (list string) :=
  Some ["TUI-corp.com "; "other.com"; "mytuiglobal.net"].

Definition now : string := "2025-01-01T00:00:00".

(** A file system that refuses nothing, and one on which no directory can
    be made. *)
Definition os_error (done : list ResultsProcessor.fs_event)
  (op : ResultsProcessor.fs_event) : bool := false.

Definition read_only (done : list ResultsProcessor.fs_event)
  (op : ResultsProcessor.fs_event) : bool :=
  match op with
  | ResultsProcessor.Mkdir _ | ResultsProcessor.MkdirParentOf _ => true
  | _ => false
  end.

(** A file with one domain that contains ibm. *)
Definition read_ibm (path : string) : option (list string) :=
  Some ["ibm-cloud.com"; "other.com"].

(** The letter dotless i (U+0131), whose encoding is the two bytes C4 B1,
    and [str.upper] on texts made of ASCII characters and of that letter,
    which it turns into the ASCII letter I. *)
Definition dotless_i : string :=
  String (ascii_of_N 196) (String (ascii_of_N 177) EmptyString).

Fixpoint upper_with_dotless_i (s : string) : string :=
  match s with
  | EmptyString => EmptyString
  | String a t =>
      if (N_of_ascii a =? 196)%N then
        match t with
        | String b t' =>
            if (N_of_ascii b =? 177)%N then String "I" (upper_with_dotless_i t')
            else String a (upper_with_dotless_i t)
        | EmptyString => String a EmptyString
        end
      else String (PyStr.upper_char a) (upper_with_dotless_i t)
  end.

Lemma upper_with_dotless_i_on_ascii (s : string) :
  PyStr.is_ascii s = true -> upper_with_dotless_i s = PyStr.ascii_upper s.
Proof.
  induction s as [|a s IH]; [reflexivity|].
  cbn [PyStr.is_ascii upper_with_dotless_i]. intros H.
  apply andb_prop in H as [Ha Hs]. unfold PyStr.is_ascii_char in Ha.
  destruct (N.eqb_spec (N_of_ascii a) 196) as [E|_].
  - rewrite E in Ha. discriminate.
  - rewrite (IH Hs). reflexivity.
Qed.

(** A structure whose [upper] knows that letter; [lower] leaves it as it
    is, the letter being a lower-case one. *)
Definition with_dotless_i : PyStr.UnicodeData :=
  {| PyStr.lower := PyStr.ascii_lower;
     PyStr.upper := upper_with_dotless_i;
     PyStr.strip := PyStr.ascii_strip;
     PyStr.lower_on_ascii := fun _ _ => eq_refl;
     PyStr.upper_on_ascii := upper_with_dotless_i_on_ascii;
     PyStr.strip_on_ascii := fun _ _ => eq_refl |}.

(** Responses without text, with token counts, and with a count missing. *)
Definition no_text (n : nat) (batch : list string) : GeminiAnalyzer.outcome :=
  GeminiAnalyzer.Returns (Some (GeminiAnalyzer.mk_response None None)).

Definition with_counts (n : nat) (batch : list string) : GeminiAnalyzer.outcome :=
  GeminiAnalyzer.Returns (Some (GeminiAnalyzer.mk_response (Some (Json.q "{'threats': []}"))
                   (Some (Some (GeminiAnalyzer.mk_usage (Some 10) (Some 5) (Some 15)))))).

Definition missing_count (n : nat) (batch : list string) : GeminiAnalyzer.outcome :=
  GeminiAnalyzer.Returns (Some (GeminiAnalyzer.mk_response (Some (Json.q "{'threats': []}"))
                   (Some (Some (GeminiAnalyzer.mk_usage (Some 10) None (Some 10)))))).

End Sample.

(** ** Predicates of the statements *)

Import GeminiAnalyzer.

(** The text does not start with white space. *)
Definition head_not_space (s : string) : Prop :=
  match s with
  | String c _ => PyStr.is_space c = false
  | EmptyString => True
  end.

(** A sleep of the retry loop. *)
Definition is_backoff (s : sleep_kind * Q) : Prop := fst s = Backoff.

(** [adds w w' lines]: the log of [w'] is the log of [w] followed by events
    whose [Processing batch] lines are [lines]. *)
Definition adds (w w' : world) (lines : list (nat * nat * nat)) : Prop :=
  exists l, log w' = log w ++ l /\ Batching.processing l = lines.

(** Every verdict the client writes for [d] records [d], a boolean
    [relevant], a confidence, a reason and a risk level that is a string. *)
Definition well_formed (d : string) (v : verdict) : Prop :=
  exists relevant confidence reason risk,
    v = domain_verdict d relevant confidence reason (PStr risk).

(** Every domain of the batch has a verdict. *)
Definition covers (batch : list string) (results : gmap string verdict) : Prop :=
  forall d, In d batch -> is_Some (results !! d).

(** Every verdict is for one of the domains and is well formed. *)
Definition within (domains : list string) (results : gmap string verdict) : Prop :=
  forall d v, results !! d = Some v -> In d domains /\ well_formed d v.

(** A response that the client treats as absent: [None], or one whose text
    is [None] or empty. *)
Definition without_text (o : outcome) : Prop :=
  match o with
  | Returns None => True
  | Returns (Some r) =>
      match text r with
      | Some t => PyStr.nonempty t = false
      | None => True
      end
  | Raises _ => False
  end.

(** * Properties *)

Section Properties.

(** The statements hold in every structure for the case mappings. *)
Context {unicode : PyStr.UnicodeData}.

(** ** Strings *)

Lemma startswith_app (p post : string) : PyStr.startswith (p ++ post)%string p = true.
Proof.
  induction p as [|a p IH]; simpl; [reflexivity|].
  rewrite Ascii.eqb_refl. exact IH.
Qed.

Lemma startswith_inv (s p : string) :
  PyStr.startswith s p = true -> exists post, s = (p ++ post)%string.
Proof.
  revert s. induction p as [|a p IH]; intros s H; simpl in *.
  - exists s. reflexivity.
  - destruct s as [|b s]; [discriminate|].
    destruct (Ascii.eqb_spec a b) as [->|]; [|discriminate].
    destruct (IH _ H) as [post ->]. exists post. reflexivity.
Qed.

Lemma contains_iff_substring (needle hay : string) :
  PyStr.contains needle hay = true <-> PyStr.substring_of needle hay.
Proof.
  split.
  - induction hay as [|c hay IH]; simpl; intros H.
    + apply orb_prop in H as [H|H]; [|discriminate].
      apply startswith_inv in H as [post ->]. exists EmptyString, post. reflexivity.
    + apply orb_prop in H as [H|H].
      * apply startswith_inv in H as [post ->]. exists EmptyString, post. reflexivity.
      * destruct (IH H) as (pre & post & ->). exists (String c pre), post. reflexivity.
  - intros (pre & post & ->).
    induction pre as [|c pre IH]; simpl.
    + destruct (needle ++ post)%string eqn:E; simpl;
        rewrite <- E, startswith_app; reflexivity.
    + rewrite IH. apply orb_true_r.
Qed.

Lemma append_empty_r (s : string) : (s ++ EmptyString)%string = s.
Proof.
  induction s as [|c s IH]; [reflexivity|].
  change (String c (s ++ EmptyString)%string = String c s). rewrite IH. reflexivity.
Qed.

Lemma lower_char_idem (c : ascii) :
  PyStr.lower_char (PyStr.lower_char c) = PyStr.lower_char c.
Proof. destruct c as [[] [] [] [] [] [] [] []]; reflexivity. Qed.

Lemma lower_upper_char (c : ascii) :
  PyStr.lower_char (PyStr.upper_char c) = PyStr.lower_char c.
Proof. destruct c as [[] [] [] [] [] [] [] []]; reflexivity. Qed.

Lemma ascii_lower_idem (s : string) :
  PyStr.ascii_lower (PyStr.ascii_lower s) = PyStr.ascii_lower s.
Proof.
  induction s as [|c s IH]; simpl; [reflexivity|].
  unfold PyStr.ascii_lower in *. simpl. rewrite lower_char_idem, IH. reflexivity.
Qed.

Lemma ascii_lower_upper (s : string) :
  PyStr.ascii_lower (PyStr.ascii_upper s) = PyStr.ascii_lower s.
Proof.
  induction s as [|c s IH]; simpl; [reflexivity|].
  unfold PyStr.ascii_lower, PyStr.ascii_upper in *. simpl.
  rewrite lower_upper_char, IH. reflexivity.
Qed.

(** ASCII text stays ASCII under the three ASCII functions. *)
Lemma is_ascii_map_chars (f : ascii -> ascii) (s : string) :
  (forall c, PyStr.is_ascii_char c = true -> PyStr.is_ascii_char (f c) = true) ->
  PyStr.is_ascii s = true -> PyStr.is_ascii (PyStr.map_chars f s) = true.
Proof.
  intros Hf. induction s as [|c s IH]; cbn [PyStr.is_ascii PyStr.map_chars];
    [reflexivity|].
  intros H. apply andb_prop in H as [Hc Hs]. rewrite (Hf c Hc), (IH Hs). reflexivity.
Qed.

Lemma is_ascii_lower (s : string) :
  PyStr.is_ascii s = true -> PyStr.is_ascii (PyStr.ascii_lower s) = true.
Proof.
  apply is_ascii_map_chars.
  intros c. destruct c as [[] [] [] [] [] [] [] []]; auto.
Qed.

Lemma is_ascii_upper (s : string) :
  PyStr.is_ascii s = true -> PyStr.is_ascii (PyStr.ascii_upper s) = true.
Proof.
  apply is_ascii_map_chars.
  intros c. destruct c as [[] [] [] [] [] [] [] []]; auto.
Qed.

Lemma is_ascii_lstrip (s : string) :
  PyStr.is_ascii s = true -> PyStr.is_ascii (PyStr.lstrip s) = true.
Proof.
  induction s as [|c s IH]; [reflexivity|]. cbn [PyStr.lstrip].
  destruct (PyStr.is_space c); [|auto].
  cbn [PyStr.is_ascii]. intros H. apply andb_prop in H as [_ H]. auto.
Qed.

Lemma is_ascii_rstrip (s : string) :
  PyStr.is_ascii s = true -> PyStr.is_ascii (PyStr.rstrip s) = true.
Proof.
  induction s as [|c s IH]; [reflexivity|]. cbn [PyStr.rstrip PyStr.is_ascii].
  intros H. apply andb_prop in H as [Hc Hs]. specialize (IH Hs).
  destruct (PyStr.rstrip s).
  - destruct (PyStr.is_space c); cbn [PyStr.is_ascii]; rewrite ?Hc; reflexivity.
  - cbn [PyStr.is_ascii] in *. rewrite Hc. exact IH.
Qed.

Lemma is_ascii_strip (s : string) :
  PyStr.is_ascii s = true -> PyStr.is_ascii (PyStr.ascii_strip s) = true.
Proof. intros H. apply is_ascii_rstrip, is_ascii_lstrip, H. Qed.

(** What every structure gives on ASCII text. *)
Lemma lower_idem_on_ascii (s : string) :
  PyStr.is_ascii s = true -> PyStr.lower (PyStr.lower s) = PyStr.lower s.
Proof.
  intros H. rewrite (PyStr.lower_on_ascii s H).
  rewrite PyStr.lower_on_ascii by (apply is_ascii_lower, H).
  apply ascii_lower_idem.
Qed.

Lemma lower_upper_on_ascii (s : string) :
  PyStr.is_ascii s = true -> PyStr.lower (PyStr.upper s) = PyStr.lower s.
Proof.
  intros H. rewrite (PyStr.upper_on_ascii s H), (PyStr.lower_on_ascii s H).
  rewrite PyStr.lower_on_ascii by (apply is_ascii_upper, H).
  apply ascii_lower_upper.
Qed.

(** Rewrites the three methods on closed ASCII texts into the ASCII
    functions. *)
Ltac on_ascii :=
  repeat match goal with
    | |- context [PyStr.lower ?s] => rewrite (PyStr.lower_on_ascii s eq_refl)
    | |- context [PyStr.upper ?s] => rewrite (PyStr.upper_on_ascii s eq_refl)
    | |- context [PyStr.strip ?s] => rewrite (PyStr.strip_on_ascii s eq_refl)
    end.

(** ** Keyword filter *)

Lemma filter_loop_spec (keyword_lower : string) (domains matches : list string) :
  DomainLoader.filter_loop keyword_lower domains matches
  = matches ++ List.filter (PyStr.contains keyword_lower) domains.
Proof.
  revert matches. induction domains as [|d ds IH]; intros matches; simpl.
  - rewrite app_nil_r. reflexivity.
  - destruct (PyStr.contains keyword_lower d); rewrite IH; [|reflexivity].
    rewrite <- app_assoc. reflexivity.
Qed.

(** On any list, the filter keeps, in order, the domains in which the
    lower-cased keyword occurs as written. *)
Lemma filter_full_word_matches_spec (domains : list string) (keyword : string) :
  DomainLoader.filter_full_word_matches domains keyword
  = List.filter (PyStr.contains (PyStr.lower keyword)) domains.
Proof. unfold DomainLoader.filter_full_word_matches. apply filter_loop_spec. Qed.

Lemma filter_ext_Forall {A} (f g : A -> bool) (l : list A) :
  Forall (fun x => f x = g x) l -> List.filter f l = List.filter g l.
Proof.
  induction 1 as [|x l Hx _ IH]; simpl; [reflexivity|].
  rewrite Hx, IH. reflexivity.
Qed.

(** C2: for every list of domains, a domain being a text in lower case as
    the domain loader produces it, and every keyword,
    [filter_full_word_matches] returns exactly the order-preserving
    subsequence of the domains that contain the keyword as a case-insensitive
    substring; a domain is returned if and only if it is an input domain with
    that substring; and on tui-corp.com, other.com, mytuiglobal.net with
    keyword tui the result is tui-corp.com, mytuiglobal.net.  This holds
    whatever [str.lower] does outside ASCII. *)
Theorem C2_filter_on_lowercase_domains (domains : list string) (keyword : string) :
  Forall PyStr.is_lowercase domains ->
  DomainLoader.filter_full_word_matches domains keyword
  = List.filter (PyStr.contains_ci keyword) domains
  /\ (forall d, In d (DomainLoader.filter_full_word_matches domains keyword) <->
                In d domains
                /\ PyStr.substring_of (PyStr.lower keyword) (PyStr.lower d))
  /\ DomainLoader.filter_full_word_matches
       ["tui-corp.com"; "other.com"; "mytuiglobal.net"] "tui"
     = ["tui-corp.com"; "mytuiglobal.net"].
Proof.
  intros Hlow.
  assert (E : DomainLoader.filter_full_word_matches domains keyword
              = List.filter (PyStr.contains_ci keyword) domains).
  { rewrite filter_full_word_matches_spec. apply filter_ext_Forall.
    eapply Forall_impl; [exact Hlow|].
    intros d Hd. unfold PyStr.contains_ci. rewrite Hd. reflexivity. }
  split; [exact E|]. split.
  - intros d. rewrite E, filter_In. unfold PyStr.contains_ci.
    rewrite contains_iff_substring. reflexivity.
  - rewrite filter_full_word_matches_spec, (PyStr.lower_on_ascii "tui" eq_refl).
    reflexivity.
Qed.

(** ** Results processor *)

Section ProcessResults.

Variable llm_results : gmap string verdict.
Variable timestamp : string.

Let analysis := ResultsProcessor.threat_analysis llm_results timestamp.
Let is_threat (ta : ThreatAnalysis.t) : bool := Py.truthy (ThreatAnalysis.is_threat ta).
Let not_threat (ta : ThreatAnalysis.t) : bool := negb (is_threat ta).

Lemma partition_loop_spec (domains : list string) (threats filtered : list ThreatAnalysis.t) :
  ResultsProcessor.partition_loop llm_results timestamp domains threats filtered
  = (threats ++ List.filter is_threat (map analysis domains),
     filtered ++ List.filter not_threat (map analysis domains)).
Proof.
  revert threats filtered.
  induction domains as [|d ds IH]; intros threats filtered; simpl.
  - rewrite !app_nil_r. reflexivity.
  - unfold not_threat, is_threat, analysis in *.
    destruct (Py.truthy _) eqn:E; rewrite IH; simpl; rewrite <- app_assoc; reflexivity.
Qed.

Lemma analysis_domain (domains : list string) :
  map ThreatAnalysis.domain (map analysis domains) = domains.
Proof.
  induction domains as [|d ds IH]; simpl; [reflexivity|]. rewrite IH. reflexivity.
Qed.

Lemma filter_complement_perm {A} (f : A -> bool) (l : list A) :
  Permutation (List.filter f l ++ List.filter (fun x => negb (f x)) l) l.
Proof.
  induction l as [|x l IH]; simpl; [constructor|].
  destruct (f x); simpl.
  - constructor. exact IH.
  - symmetry. apply Permutation_cons_app. symmetry. exact IH.
Qed.

Lemma in_filtered_analysis (f : ThreatAnalysis.t -> bool) (domains : list string) (d : string) :
  In d (map ThreatAnalysis.domain (List.filter f (map analysis domains))) ->
  In d domains /\ f (analysis d) = true.
Proof.
  rewrite in_map_iff. intros (ta & <- & Hta).
  apply filter_In in Hta as [Hin Hf].
  apply in_map_iff in Hin as (d' & <- & Hd'). auto.
Qed.

End ProcessResults.

(** The fields of the metadata that are copied from the arguments. *)
Lemma process_results_metadata (domains : list string)
  (llm_results : gmap string verdict) (brand_config : BrandConfig.t)
  (batch_size : pyval) (timestamp : string) :
  let m := BrandAnalysisResult.metadata
             (ResultsProcessor.process_results domains llm_results brand_config
                batch_size timestamp) in
  AnalysisMetadata.brand m = BrandConfig.name brand_config
  /\ AnalysisMetadata.keyword m = PyStr.lower (BrandConfig.name brand_config)
  /\ AnalysisMetadata.batch_size m = batch_size
  /\ AnalysisMetadata.timestamp m = timestamp.
Proof.
  unfold ResultsProcessor.process_results.
  destruct (ResultsProcessor.partition_loop _ _ _ _ _). repeat split; reflexivity.
Qed.

(** The facts about the two partitions, shared by the statements below. *)
Lemma process_results_partition_facts (domains : list string)
  (llm_results : gmap string verdict) (brand_config : BrandConfig.t)
  (batch_size : pyval) (timestamp : string) :
  let r := ResultsProcessor.process_results domains llm_results brand_config
             batch_size timestamp in
  let analysis := ResultsProcessor.threat_analysis llm_results timestamp in
  let threats := BrandAnalysisResult.threats r in
  let filtered := BrandAnalysisResult.filtered r in
  threats
  = List.filter (fun ta => Py.truthy (ThreatAnalysis.is_threat ta)) (map analysis domains)
  /\ filtered
     = List.filter (fun ta => negb (Py.truthy (ThreatAnalysis.is_threat ta)))
         (map analysis domains)
  /\ Permutation (map ThreatAnalysis.domain (threats ++ filtered)) domains
  /\ (forall d, In d (map ThreatAnalysis.domain threats) ->
                ~ In d (map ThreatAnalysis.domain filtered))
  /\ length threats + length filtered = length domains
  /\ AnalysisMetadata.total_domains (BrandAnalysisResult.metadata r) = length domains
  /\ AnalysisMetadata.threat_count (BrandAnalysisResult.metadata r) = length threats
  /\ AnalysisMetadata.filtered_count (BrandAnalysisResult.metadata r) = length filtered
  /\ (forall d, In d domains -> llm_results !! d = None ->
        analysis d
        = ThreatAnalysis.mk d (PBool true) (PFloat half)
            (PStr "LLM evaluation unavailable") (PStr "medium") timestamp
        /\ In (analysis d) threats).
Proof.
  intros r analysis threats filtered.
  unfold threats, filtered, r, ResultsProcessor.process_results.
  rewrite partition_loop_spec. simpl.
  set (th := List.filter _ _). set (fl := List.filter _ _).
  assert (Hperm : Permutation (th ++ fl) (map analysis domains))
    by apply filter_complement_perm.
  split; [reflexivity|]. split; [reflexivity|].
  split.
  { eapply Permutation_trans; [apply Permutation_map; exact Hperm|].
    unfold analysis. rewrite analysis_domain. reflexivity. }
  split.
  { intros d Ht Hf.
    apply in_filtered_analysis in Ht as [_ Ht].
    apply in_filtered_analysis in Hf as [_ Hf].
    rewrite Ht in Hf. discriminate. }
  split.
  { rewrite <- length_app, (Permutation_length Hperm). apply length_map. }
  do 3 (split; [reflexivity|]).
  intros d Hd Hnone.
  assert (E : analysis d
              = ThreatAnalysis.mk d (PBool true) (PFloat half)
                  (PStr "LLM evaluation unavailable") (PStr "medium") timestamp).
  { unfold analysis, ResultsProcessor.threat_analysis. rewrite Hnone. reflexivity. }
  split; [exact E|].
  apply filter_In. split; [apply in_map; exact Hd|].
  fold analysis. rewrite E. reflexivity.
Qed.

(** C1: for every list of domains and every verdict mapping,
    [process_results] builds one [ThreatAnalysis] per input domain; [threats]
    holds, in input order, those whose [is_threat] is true and [filtered], in
    input order, those whose [is_threat] is false; the domains of both lists
    together are a rearrangement of the input; no domain is in both; the two
    lengths add up to the number of input domains (and the metadata counts
    are these lengths); a domain without verdict gets the fallback entry
    (threat, confidence 0.5, reason LLM evaluation unavailable, risk medium)
    and is among the threats. *)
Theorem C1_process_results_partition (domains : list string)
  (llm_results : gmap string verdict) (brand_config : BrandConfig.t)
  (batch_size : pyval) (timestamp : string) :
  let r := ResultsProcessor.process_results domains llm_results brand_config
             batch_size timestamp in
  let analysis := ResultsProcessor.threat_analysis llm_results timestamp in
  let threats := BrandAnalysisResult.threats r in
  let filtered := BrandAnalysisResult.filtered r in
  threats
  = List.filter (fun ta => Py.truthy (ThreatAnalysis.is_threat ta)) (map analysis domains)
  /\ filtered
     = List.filter (fun ta => negb (Py.truthy (ThreatAnalysis.is_threat ta)))
         (map analysis domains)
  /\ Permutation (map ThreatAnalysis.domain (threats ++ filtered)) domains
  /\ (forall d, In d (map ThreatAnalysis.domain threats) ->
                ~ In d (map ThreatAnalysis.domain filtered))
  /\ length threats + length filtered = length domains
  /\ AnalysisMetadata.total_domains (BrandAnalysisResult.metadata r) = length domains
  /\ AnalysisMetadata.threat_count (BrandAnalysisResult.metadata r) = length threats
  /\ AnalysisMetadata.filtered_count (BrandAnalysisResult.metadata r) = length filtered
  /\ (forall d, In d domains -> llm_results !! d = None ->
        analysis d
        = ThreatAnalysis.mk d (PBool true) (PFloat half)
            (PStr "LLM evaluation unavailable") (PStr "medium") timestamp
        /\ In (analysis d) threats).
Proof. apply process_results_partition_facts. Qed.

(** ** Brand configuration *)

(** What the builder returns on any input: the name, the industry, the
    description when a company name or a description is given, and the four
    notes. *)
Lemma create_dynamic_brand_config_fields (brand_name : string)
  (company_name industry description : option string) :
  let cfg := BrandProtectionConfig._create_dynamic_brand_config brand_name
               company_name industry description in
  let company := Py.or_str company_name brand_name in
  BrandConfig.name cfg = PyStr.upper company
  /\ BrandConfig.industry cfg = Py.or_str industry "Business"
  /\ BrandConfig.description cfg
     = Py.or_str description
         (Py.fstr company_name ++
          " is a company that users want to protect from domain impersonation and cybersquatting.")%string
  /\ length (BrandConfig.context_notes cfg) = 4
  /\ BrandConfig.context_notes cfg
     = [ ("Focus on domains that could confuse customers of " ++ company)%string;
         ("Consider domains that impersonate " ++ brand_name ++ " services")%string;
         ("Filter out domains where " ++ BrandProtectionConfig.dq
            ++ PyStr.lower brand_name ++ BrandProtectionConfig.dq
            ++ " appears coincidentally")%string;
         "Evaluate based on business context and customer confusion potential" ].
Proof. repeat split; reflexivity. Qed.

(** C7 (the code at the failing input): with brand name tui and neither
    company name nor description, the name is TUI, the industry Business and
    there are four notes, and the generated description starts with the word
    None: it is built before the company name is defaulted to the brand
    name, and mentions neither. *)
Theorem C7_default_description_says_None :
  let cfg := BrandProtectionConfig.get_brand_config (Some "tui") None None None in
  option_map BrandConfig.description cfg
  = Some "None is a company that users want to protect from domain impersonation and cybersquatting."
  /\ option_map (fun c => PyStr.contains_ci "tui" (BrandConfig.description c)) cfg
     = Some false
  /\ option_map BrandConfig.name cfg = Some "TUI"
  /\ option_map BrandConfig.industry cfg = Some "Business"
  /\ option_map (fun c => length (BrandConfig.context_notes c)) cfg = Some 4.
Proof.
  cbn. unfold PyStr.contains_ci. on_ascii. repeat split; reflexivity.
Qed.

(** ** Saving the results *)

(** A relative path outside [data/] is put under [data/], when what is left
    of it once the extensions are removed does not start with a slash. *)
Lemma output_base_path_relative (output_path : string) :
  PyStr.startswith output_path "data/" = false ->
  PyStr.startswith output_path "data\" = false ->
  let base_name := PyStr.remove_all ".json" (PyStr.remove_all ".csv" output_path) in
  PyStr.nonempty base_name = true ->
  PyStr.startswith base_name "/" = false ->
  ResultsProcessor.output_base_path output_path = ("data/" ++ base_name)%string.
Proof.
  intros H1 H2 base_name Hne H3.
  unfold ResultsProcessor.output_base_path. rewrite H1, H2. simpl.
  fold base_name. unfold OsPath.join. rewrite H3. reflexivity.
Qed.

(** The files written, for any result and path: the two CSV files only for
    a non-empty partition, with the six columns, and always the JSON file. *)
Lemma save_results_files (results : BrandAnalysisResult.t) (output_path : string) :
  let base := ResultsProcessor.output_base_path output_path in
  let threats := BrandAnalysisResult.threats results in
  let filtered := BrandAnalysisResult.filtered results in
  let columns :=
    ["domain"; "is_threat"; "confidence"; "reason"; "risk_level"; "timestamp"] in
  ResultsProcessor.save_results results output_path
  = [ResultsProcessor.Mkdir "data"; ResultsProcessor.MkdirParentOf base]
    ++ (if bool_decide (threats = []) then []
        else [ResultsProcessor.WriteCsv (base ++ "_threats.csv")%string columns
                (map ResultsProcessor.threat_to_dict threats)])
    ++ (if bool_decide (filtered = []) then []
        else [ResultsProcessor.WriteCsv (base ++ "_filtered.csv")%string columns
                (map ResultsProcessor.threat_to_dict filtered)])
    ++ [ResultsProcessor.WriteJson (base ++ "_complete.json")%string
          (ResultsProcessor.result_to_dict results)].
Proof.
  intros base threats filtered columns.
  unfold ResultsProcessor.save_results. fold base threats filtered.
  destruct threats, filtered; reflexivity.
Qed.

Ltac in_cases H :=
  match type of H with
  | _ \/ _ => destruct H as [H|H]
  | In _ (_ :: _) => destruct H as [H|H]
  | In _ [] => destruct H
  | In _ (if ?b then _ else _) => destruct b
  end.

(** C8 (the code at the failing input): for the absolute path /tmp/out.csv
    and any result, the base path is /tmp/out, so the files are written as
    /tmp/out_threats.csv, /tmp/out_filtered.csv and /tmp/out_complete.json,
    none of them under data/. *)
Theorem C8_absolute_path_leaves_data_dir (results : BrandAnalysisResult.t) :
  ResultsProcessor.output_base_path "/tmp/out.csv" = "/tmp/out"
  /\ In (ResultsProcessor.WriteJson "/tmp/out_complete.json"
           (ResultsProcessor.result_to_dict results))
        (ResultsProcessor.save_results results "/tmp/out.csv")
  /\ PyStr.startswith "/tmp/out_complete.json" "data/" = false
  /\ (forall path content,
        In (ResultsProcessor.WriteJson path content)
           (ResultsProcessor.save_results results "/tmp/out.csv") ->
        path = "/tmp/out_complete.json")
  /\ (forall path columns rows,
        In (ResultsProcessor.WriteCsv path columns rows)
           (ResultsProcessor.save_results results "/tmp/out.csv") ->
        path = "/tmp/out_threats.csv" \/ path = "/tmp/out_filtered.csv").
Proof.
  assert (E : ResultsProcessor.output_base_path "/tmp/out.csv" = "/tmp/out")
    by reflexivity.
  split; [exact E|].
  rewrite save_results_files. cbv zeta. rewrite E.
  split; [|split; [reflexivity|split]].
  - rewrite !in_app_iff. do 3 right. left. reflexivity.
  - intros path content. rewrite !in_app_iff. intros H.
    repeat in_cases H; try discriminate.
    injection H as <- _. reflexivity.
  - intros path columns rows. rewrite !in_app_iff. intros H.
    repeat in_cases H; try discriminate.
    + injection H as <- _ _. left. reflexivity.
    + injection H as <- _ _. right. reflexivity.
Qed.

(** ** The LLM client *)

Lemma assign_all_lookup (v : string -> verdict) (batch : list string)
  (results : gmap string verdict) (d : string) :
  (In d batch -> assign_all v batch results !! d = Some (v d))
  /\ (~ In d batch -> assign_all v batch results !! d = results !! d).
Proof.
  revert results. induction batch as [|b batch IH]; intros results; simpl.
  - split; [intros []|reflexivity].
  - destruct (IH (<[b := v b]> results)) as [IH1 IH2].
    destruct (in_dec string_dec d batch) as [Hin|Hnin].
    + split; [intros _; apply IH1, Hin|].
      intros H. exfalso. apply H. right. exact Hin.
    + split.
      * intros [->|H]; [|contradiction].
        rewrite IH2 by assumption. apply lookup_insert_eq.
      * intros H. rewrite IH2 by assumption.
        apply lookup_insert_ne. intros ->. apply H. left. reflexivity.
Qed.

Lemma log_extends_refl (w : world) : log_extends w w.
Proof. exists []. rewrite app_nil_r. reflexivity. Qed.

Lemma log_extends_trans (w1 w2 w3 : world) :
  log_extends w1 w2 -> log_extends w2 w3 -> log_extends w1 w3.
Proof.
  intros [l1 H1] [l2 H2]. exists (l1 ++ l2). rewrite H2, H1, app_assoc. reflexivity.
Qed.

Lemma log_extends_emit (e : log_event) (w w' : world) :
  log_extends w w' -> log_extends w (emit e w').
Proof. intros [l H]. exists (l ++ [e]). simpl. rewrite H, app_assoc. reflexivity. Qed.

Lemma log_extends_same (w w' w'' : world) :
  log w'' = log w' -> log_extends w w' -> log_extends w w''.
Proof. intros E [l H]. exists l. rewrite E. exact H. Qed.

Lemma log_extends_emits (events : list log_event) (w w' : world) :
  log_extends w w' -> log_extends w (foldl (fun acc e => emit e acc) w' events).
Proof.
  revert w'. induction events as [|e events IH]; intros w' H; simpl; [exact H|].
  apply IH, log_extends_emit, H.
Qed.

Section ClientProperties.

Variable generate : nat -> list string -> outcome.
Variable uniform : nat -> Q -> Q -> Q.
Variable json_loads : string -> option pyval.

Lemma account_log (u : option usage_metadata) (batch_num : nat) (w : world) :
  match account u batch_num w with
  | inl w' | inr w' => log_extends w w' /\ calls w' = calls w
  end.
Proof.
  unfold account.
  destruct u as [[[i|] [o|] [t|]]|]; simpl;
    (split; [|reflexivity]);
    try apply log_extends_emit;
    (eapply log_extends_same; [|apply log_extends_refl]; reflexivity).
Qed.

Lemma try_body_log (batch : list string) (batch_num : nat) (w : world)
  (results : gmap string verdict) :
  match try_body generate json_loads batch batch_num w results with
  | Break w' _ | FallThrough w' | Except w' _ => log_extends w w'
  end.
Proof.
  unfold try_body.
  assert (H0 : log_extends w (tick_call w))
    by (eapply log_extends_same; [|apply log_extends_refl]; reflexivity).
  destruct (generate _ _) as [msg|[r|]]; try exact H0.
  destruct (text r) as [response_text|]; try exact H0.
  destruct (PyStr.nonempty response_text); try exact H0.
  destruct (usage r) as [u|].
  - pose proof (account_log u batch_num (tick_call w)) as Ha.
    destruct (account u batch_num (tick_call w)) as [w2|w2]; destruct Ha as [Ha _].
    + destruct (parse_response_log _ _ _) as [batch_results events].
      apply log_extends_emits. eapply log_extends_trans; [exact H0|exact Ha].
    + eapply log_extends_trans; [exact H0|exact Ha].
  - destruct (parse_response_log _ _ _) as [batch_results events].
    apply log_extends_emits. exact H0.
Qed.

Lemma attempt_loop_log (remaining attempt : nat) (batch : list string)
  (batch_num : nat) (w : world) (results : gmap string verdict) :
  log_extends w
    (fst (attempt_loop generate uniform json_loads remaining attempt batch
            batch_num w results)).
Proof.
  revert attempt w results.
  induction remaining as [|remaining IH]; intros attempt w results; simpl.
  - apply log_extends_refl.
  - pose proof (try_body_log batch batch_num w results) as Ht.
    destruct (try_body _ _ _ _ _ _) as [w' results'|w'|w' msg]; simpl.
    + exact Ht.
    + eapply log_extends_trans; [exact Ht|apply IH].
    + destruct (is_overload msg).
      * destruct (Nat.ltb _ _).
        -- eapply log_extends_trans; [|apply IH].
           eapply log_extends_same with (w' := emit _ (tick_draw (emit _ w')));
             [reflexivity|].
           apply log_extends_emit.
           eapply log_extends_same with (w' := emit _ w'); [reflexivity|].
           apply log_extends_emit, Ht.
        -- eapply log_extends_trans; [|apply IH].
           do 2 apply log_extends_emit. exact Ht.
      * simpl. do 2 apply log_extends_emit. exact Ht.
Qed.

Lemma process_batch_log (domains : list string) (batch_size total_batches : nat)
  (st : world * gmap string verdict) (i : nat) :
  log_extends (fst st)
    (fst (process_batch generate uniform json_loads domains batch_size
            total_batches st i)).
Proof.
  destruct st as [w results]. unfold process_batch.
  set (batch := take _ _). set (batch_num := _ + 1).
  pose proof (attempt_loop_log max_retries 0 batch batch_num
                (emit (InfoProcessingBatch batch_num total_batches (length batch)) w)
                results) as H.
  destruct (attempt_loop _ _ _ _ _ _ _ _ _) as [w1 results1]. simpl in *.
  assert (H1 : log_extends w w1).
  { eapply log_extends_trans; [|exact H]. apply log_extends_emit, log_extends_refl. }
  destruct (batch_num <? total_batches)%nat; simpl; [|exact H1].
  eapply log_extends_same with (w' := emit _ (tick_draw w1)); [reflexivity|].
  apply log_extends_emit.
  eapply log_extends_same; [|exact H1]. reflexivity.
Qed.

Lemma batches_log (domains : list string) (batch_size total_batches : nat)
  (starts : list nat) (st : world * gmap string verdict) :
  log_extends (fst st)
    (fst (foldl (process_batch generate uniform json_loads domains batch_size
                   total_batches) st starts)).
Proof.
  revert st. induction starts as [|i starts IH]; intros st; simpl.
  - apply log_extends_refl.
  - eapply log_extends_trans; [apply process_batch_log|apply IH].
Qed.

Lemma analyze_domains_log (api_key : option string) (domains : list string)
  (batch_size : pyval) (w : world) :
  log_extends w
    (fst (analyze_domains generate uniform json_loads api_key domains batch_size w)).
Proof.
  unfold analyze_domains.
  destruct (is_configured api_key); simpl.
  2:{ apply log_extends_emit, log_extends_refl. }
  set (choice := match valid_batch_size batch_size with
                 | Some n => (w, n)
                 | None => _ end).
  assert (Hc : log_extends w (fst choice)).
  { unfold choice. destruct (valid_batch_size batch_size); simpl.
    - apply log_extends_refl.
    - apply log_extends_emit, log_extends_refl. }
  destruct choice as [w1 n]. simpl in Hc.
  match goal with
  | |- context [foldl ?f ?st ?l] =>
      pose proof (batches_log domains n ((length domains + n - 1) / n) l st) as Hb;
      destruct (foldl f st l) as [w3 results]
  end.
  simpl in *. apply log_extends_emit.
  eapply log_extends_trans; [|exact Hb].
  do 2 apply log_extends_emit. exact Hc.
Qed.

(** An invalid batch size is reported and replaced by 200: the run is the
    run with batch size 200 that starts after the warning. *)
Lemma analyze_domains_invalid_batch_size (api_key : option string)
  (domains : list string) (batch_size : pyval) (w : world) :
  is_configured api_key = true ->
  valid_batch_size batch_size = None ->
  analyze_domains generate uniform json_loads api_key domains batch_size w
  = analyze_domains generate uniform json_loads api_key domains (PInt 200)
      (emit (WarnInvalidBatchSize batch_size) w).
Proof.
  intros Hk Hv. unfold analyze_domains. rewrite Hk, Hv. reflexivity.
Qed.

End ClientProperties.

(** ** Floats: bounds on the rounding *)

Section FloatBounds.

Local Open Scope Z_scope.

Lemma round_half_even_le (p : Z) (q : positive) (N : Z) :
  p <= N * Z.pos q -> PyFloat.round_half_even p q <= N.
Proof.
  intros H. unfold PyFloat.round_half_even.
  pose proof (Z.div_mod p (Z.pos q) ltac:(lia)) as Hdm.
  pose proof (Z.mod_pos_bound p (Z.pos q) ltac:(lia)) as Hr.
  set (fl := p / Z.pos q) in *. set (r := p mod Z.pos q) in *.
  assert (Hfl : fl <= N) by nia.
  destruct (Z.compare_spec (2 * r) (Z.pos q)); [destruct (Z.even fl)| |]; nia.
Qed.

Lemma round_half_even_ge (p : Z) (q : positive) (N : Z) :
  N * Z.pos q <= p -> N <= PyFloat.round_half_even p q.
Proof.
  intros H. unfold PyFloat.round_half_even.
  pose proof (Z.div_mod p (Z.pos q) ltac:(lia)) as Hdm.
  pose proof (Z.mod_pos_bound p (Z.pos q) ltac:(lia)) as Hr.
  set (fl := p / Z.pos q) in *. set (r := p mod Z.pos q) in *.
  assert (Hfl : N <= fl) by nia.
  destruct (Z.compare_spec (2 * r) (Z.pos q)); [destruct (Z.even fl)| |]; nia.
Qed.

(** Below 2^52 the unit in the last place is a negative power of two. *)
Lemma ulp_exp_neg (a b : positive) :
  Z.pos a < 2 ^ 52 * Z.pos b -> PyFloat.ulp_exp a b < 0.
Proof.
  intros H. unfold PyFloat.ulp_exp, PyFloat.ilog2.
  assert (Hd : Z.log2 (Z.pos a) - Z.log2 (Z.pos b) <= 52).
  { assert (Z.log2 (Z.pos a) <= Z.log2 (Z.pos b * 2 ^ 52))
      by (apply Z.log2_le_mono; lia).
    rewrite Z.log2_mul_pow2 in * by lia. lia. }
  set (d := Z.log2 (Z.pos a) - Z.log2 (Z.pos b)) in *.
  destruct (Z.leb_spec (Z.pos b * 2 ^ Z.max 0 d) (Z.pos a * 2 ^ Z.max 0 (- d))) as [L|L];
    [|lia].
  destruct (Z.eq_dec d 52) as [E|E]; [|lia].
  rewrite E in L. change (Z.max 0 52) with 52 in L. change (Z.max 0 (- (52))) with 0 in L.
  lia.
Qed.

Lemma RN_pos_bounds (a b : positive) (N M : Z) :
  Z.pos a < 2 ^ 52 * Z.pos b ->
  N * Z.pos b <= Z.pos a -> Z.pos a <= M * Z.pos b ->
  (inject_Z N <= PyFloat.RN_pos a b /\ PyFloat.RN_pos a b <= inject_Z M)%Q.
Proof.
  intros Hlt HN HM. unfold PyFloat.RN_pos.
  pose proof (ulp_exp_neg a b Hlt) as Hk.
  set (k := PyFloat.ulp_exp a b) in *.
  destruct (Z.leb_spec 0 k) as [?|_]; [lia|].
  assert (Hp : 0 < 2 ^ (- k)) by (apply Z.pow_pos_nonneg; lia).
  unfold Qle. simpl. rewrite Z2Pos.id by exact Hp.
  split.
  - rewrite Z.mul_1_r. apply round_half_even_ge. nia.
  - rewrite Z.mul_1_r. apply round_half_even_le. nia.
Qed.

(** A non-negative number below 2^52 that lies between two integers is
    rounded to a number between them. *)
Lemma RN_bounds (x : Q) (N M : Z) :
  0 <= N ->
  (inject_Z N <= x)%Q -> (x <= inject_Z M)%Q -> M < 2 ^ 52 ->
  (inject_Z N <= PyFloat.RN x /\ PyFloat.RN x <= inject_Z M)%Q.
Proof.
  intros HN0 HN HM HM52. unfold PyFloat.RN.
  destruct x as [n d]. unfold Qle in HN, HM. simpl in *.
  rewrite Z.mul_1_r in HN, HM.
  destruct n as [|a|a].
  - unfold Qle. simpl. lia.
  - apply RN_pos_bounds; nia.
  - lia.
Qed.

Lemma RN_nonneg_num (x : Q) : 0 <= Qnum x -> 0 <= Qnum (PyFloat.RN x).
Proof.
  intros H. unfold PyFloat.RN. destruct (Qnum x) as [|a|a]; [simpl; lia| |lia].
  unfold PyFloat.RN_pos.
  destruct (0 <=? PyFloat.ulp_exp a (Qden x)); simpl.
  - apply Z.mul_nonneg_nonneg; [|apply Z.pow_nonneg; lia].
    apply round_half_even_ge. lia.
  - apply round_half_even_ge. simpl.
    assert (0 <= 2 ^ (- PyFloat.ulp_exp a (Qden x))) by (apply Z.pow_nonneg; lia).
    nia.
Qed.

End FloatBounds.

(** ** Retries and fallbacks *)

Section Retries.

Variable generate : nat -> list string -> outcome.
Variable uniform : nat -> Q -> Q -> Q.
Variable json_loads : string -> option pyval.

Lemma try_body_raises (batch : list string) (batch_num : nat) (w : world)
  (results : gmap string verdict) (error_msg : string) :
  generate (calls w) batch = Raises error_msg ->
  try_body generate json_loads batch batch_num w results
  = Except (tick_call w) error_msg.
Proof. intros H. unfold try_body. rewrite H. reflexivity. Qed.

Lemma attempt_loop_overload_retry (remaining attempt : nat) (batch : list string)
  (batch_num : nat) (w : world) (results : gmap string verdict) (error_msg : string) :
  generate (calls w) batch = Raises error_msg ->
  is_overload error_msg = true ->
  (attempt < 2)%nat ->
  attempt_loop generate uniform json_loads (S remaining) attempt batch batch_num w results
  = let wait_time := backoff_wait attempt (uniform (draws w) 0 5) in
    attempt_loop generate uniform json_loads remaining (S attempt) batch batch_num
      (sleep Backoff wait_time
         (emit (WarnOverloadedWaiting wait_time)
            (tick_draw
               (emit (WarnBatchError batch_num (attempt + 1) error_msg) (tick_call w)))))
      results.
Proof.
  intros Hg Ho Ha. simpl. rewrite (try_body_raises _ _ _ _ _ Hg), Ho.
  destruct (Nat.ltb_spec attempt 2) as [_|?]; [reflexivity|lia].
Qed.

Lemma attempt_loop_overload_last (remaining attempt : nat) (batch : list string)
  (batch_num : nat) (w : world) (results : gmap string verdict) (error_msg : string) :
  generate (calls w) batch = Raises error_msg ->
  is_overload error_msg = true ->
  (2 <= attempt)%nat ->
  attempt_loop generate uniform json_loads (S remaining) attempt batch batch_num w results
  = attempt_loop generate uniform json_loads remaining (S attempt) batch batch_num
      (emit (WarnMaxRetries batch_num)
         (emit (WarnBatchError batch_num (attempt + 1) error_msg) (tick_call w)))
      (assign_all overloaded_fallback batch results).
Proof.
  intros Hg Ho Ha. simpl. rewrite (try_body_raises _ _ _ _ _ Hg), Ho.
  destruct (Nat.ltb_spec attempt 2) as [?|_]; [lia|reflexivity].
Qed.

Lemma attempt_loop_other_error (remaining attempt : nat) (batch : list string)
  (batch_num : nat) (w : world) (results : gmap string verdict) (error_msg : string) :
  generate (calls w) batch = Raises error_msg ->
  is_overload error_msg = false ->
  attempt_loop generate uniform json_loads (S remaining) attempt batch batch_num w results
  = (emit (WarnNonRecoverable batch_num error_msg)
       (emit (WarnBatchError batch_num (attempt + 1) error_msg) (tick_call w)),
     assign_all (error_fallback error_msg) batch results).
Proof.
  intros Hg Ho. simpl. rewrite (try_body_raises _ _ _ _ _ Hg), Ho. reflexivity.
Qed.

(** The waits of the two retries: each within five seconds above
    [15 * 2^attempt], the second longer than the first. *)
Lemma backoff_waits_increase (j0 j1 : Q) :
  (0 <= j0)%Q -> (j0 < 5)%Q -> (0 <= j1)%Q -> (j1 < 5)%Q ->
  (15 <= backoff_wait 0 j0)%Q /\ (backoff_wait 0 j0 <= 20)%Q
  /\ (30 <= backoff_wait 1 j1)%Q /\ (backoff_wait 1 j1 <= 35)%Q
  /\ (backoff_wait 0 j0 < backoff_wait 1 j1)%Q.
Proof.
  intros H0 H0' H1 H1'.
  destruct (RN_bounds (inject_Z 15 + j0) 15 20) as [A B];
    [lia|change (inject_Z 15) with 15%Q; lra
        |change (inject_Z 15) with 15%Q; change (inject_Z 20) with 20%Q; lra
        |reflexivity|].
  destruct (RN_bounds (inject_Z 30 + j1) 30 35) as [C D];
    [lia|change (inject_Z 30) with 30%Q; lra
        |change (inject_Z 30) with 30%Q; change (inject_Z 35) with 35%Q; lra
        |reflexivity|].
  unfold backoff_wait, PyFloat.fadd.
  change (inject_Z (base_wait * 2 ^ Z.of_nat 0)) with (inject_Z 15).
  change (inject_Z (base_wait * 2 ^ Z.of_nat 1)) with (inject_Z 30).
  change (inject_Z 15) with 15%Q in *. change (inject_Z 20) with 20%Q in *.
  change (inject_Z 30) with 30%Q in *. change (inject_Z 35) with 35%Q in *.
  repeat split; try assumption. lra.
Qed.

End Retries.

Section BatchFallbacks.

Variable generate : nat -> list string -> outcome.
Variable uniform : nat -> Q -> Q -> Q.
Variable json_loads : string -> option pyval.

(** C3: for every batch, when each of the attempts raises an error whose
    message indicates overload, and the jitter drawn is in [0,5), the client
    sends exactly three requests (the three tries allowed by [max_retries]),
    sleeps between them for ([15 * 2^attempt] plus jitter) seconds, attempt
    being 0 then 1, the second wait longer than the first, then gives every
    domain of the batch the fallback verdict (relevant, confidence 0.5, reason
    API overloaded after 3 retries, risk medium), leaves the other verdicts
    as they were, and goes on with the next batch. *)
Theorem C3_overload_three_attempts_then_fallback
  (domains : list string) (batch_size total_batches : nat)
  (w : world) (results : gmap string verdict) (i : nat) :
  let batch := take batch_size (drop i domains) in
  let batch_num := i / batch_size + 1 in
  (forall k, k < 3 ->
     exists error_msg,
       generate (calls w + k) batch = Raises error_msg
       /\ is_overload error_msg = true) ->
  (forall n, (0 <= uniform n 0 5)%Q /\ (uniform n 0 5 < 5)%Q) ->
  exists w' results',
    process_batch generate uniform json_loads domains batch_size total_batches
      (w, results) i = (w', results')
    /\ calls w' = calls w + 3
    /\ (let wait0 := backoff_wait 0 (uniform (draws w) 0 5) in
        let wait1 := backoff_wait 1 (uniform (S (draws w)) 0 5) in
        sleeps w'
        = sleeps w ++ [(Backoff, wait0); (Backoff, wait1)]
          ++ (if (batch_num <? total_batches)%nat
              then [(RateLimit, rate_limit_wait (uniform (S (S (draws w))) 0 3))]
              else [])
        /\ (15 <= wait0)%Q /\ (wait0 <= 20)%Q
        /\ (30 <= wait1)%Q /\ (wait1 <= 35)%Q
        /\ (wait0 < wait1)%Q)
    /\ (forall d, In d batch ->
          results' !! d
          = Some (domain_verdict d true (PFloat half)
                    (PStr "API overloaded after 3 retries") (PStr "medium")))
    /\ (forall d, ~ In d batch -> results' !! d = results !! d)
    /\ (forall rest,
          foldl (process_batch generate uniform json_loads domains batch_size
                   total_batches) (w, results) (i :: rest)
          = foldl (process_batch generate uniform json_loads domains batch_size
                     total_batches) (w', results') rest).
Proof.
  intros batch batch_num Hgen Hjit.
  set (step := process_batch generate uniform json_loads domains batch_size
                 total_batches).
  enough (exists w' results',
            step (w, results) i = (w', results')
            /\ calls w' = calls w + 3
            /\ sleeps w'
               = sleeps w
                 ++ [(Backoff, backoff_wait 0 (uniform (draws w) 0 5));
                     (Backoff, backoff_wait 1 (uniform (S (draws w)) 0 5))]
                 ++ (if (batch_num <? total_batches)%nat
                     then [(RateLimit, rate_limit_wait (uniform (S (S (draws w))) 0 3))]
                     else [])
            /\ results' = assign_all overloaded_fallback batch results)
    as (w' & results' & E & Hc & Hs & ->).
  { pose proof (assign_all_lookup overloaded_fallback batch results) as Hlk.
    exists w', (assign_all overloaded_fallback batch results).
    split; [exact E|]. split; [exact Hc|].
    split.
    { split; [exact Hs|].
      apply backoff_waits_increase; apply Hjit. }
    split; [intros d Hd; apply Hlk, Hd|].
    split; [intros d Hd; apply Hlk, Hd|].
    intros rest. cbn [foldl]. rewrite E. reflexivity. }
  destruct (Hgen 0 ltac:(lia)) as (m0 & G0 & O0).
  destruct (Hgen 1 ltac:(lia)) as (m1 & G1 & O1).
  destruct (Hgen 2 ltac:(lia)) as (m2 & G2 & O2).
  rewrite Nat.add_0_r in G0.
  replace (calls w + 1) with (S (calls w)) in G1 by lia.
  replace (calls w + 2) with (S (S (calls w))) in G2 by lia.
  unfold step, process_batch. fold batch. fold batch_num.
  unfold max_retries.
  rewrite attempt_loop_overload_retry with (error_msg := m0) by (auto; lia).
  cbv zeta.
  rewrite attempt_loop_overload_retry with (error_msg := m1) by (auto; lia).
  cbv zeta.
  rewrite attempt_loop_overload_last with (error_msg := m2) by (auto; lia).
  cbn [attempt_loop].
  destruct (batch_num <? total_batches)%nat; eexists; eexists;
    (split; [reflexivity|]);
    (split; [simpl; lia|]);
    (split; [simpl; rewrite <- !app_assoc; reflexivity|reflexivity]).
Qed.

(** C4: for every batch, when the first attempt raises an error whose
    message does not indicate overload, the client sends exactly one request
    and does not sleep for a backoff (the only sleep is the pause before the
    next batch, when there is one); every domain of the batch gets the
    fallback verdict (relevant, confidence 0.5, risk medium) whose reason is
    API error: followed by the text of the error, the other verdicts stay as
    they were, and the client goes on with the next batch. *)
Theorem C4_other_error_single_attempt
  (domains : list string) (batch_size total_batches : nat)
  (w : world) (results : gmap string verdict) (i : nat) (error_msg : string) :
  let batch := take batch_size (drop i domains) in
  let batch_num := i / batch_size + 1 in
  generate (calls w) batch = Raises error_msg ->
  is_overload error_msg = false ->
  exists w' results',
    process_batch generate uniform json_loads domains batch_size total_batches
      (w, results) i = (w', results')
    /\ calls w' = S (calls w)
    /\ sleeps w'
       = sleeps w
         ++ (if (batch_num <? total_batches)%nat
             then [(RateLimit, rate_limit_wait (uniform (draws w) 0 3))]
             else [])
    /\ (forall d, In d batch ->
          results' !! d
          = Some (domain_verdict d true (PFloat half)
                    (PStr ("API error: " ++ error_msg)) (PStr "medium")))
    /\ PyStr.substring_of error_msg ("API error: " ++ error_msg)
    /\ (forall d, ~ In d batch -> results' !! d = results !! d)
    /\ (forall rest,
          foldl (process_batch generate uniform json_loads domains batch_size
                   total_batches) (w, results) (i :: rest)
          = foldl (process_batch generate uniform json_loads domains batch_size
                     total_batches) (w', results') rest).
Proof.
  intros batch batch_num Hgen Hover.
  set (step := process_batch generate uniform json_loads domains batch_size
                 total_batches).
  enough (exists w' results',
            step (w, results) i = (w', results')
            /\ calls w' = S (calls w)
            /\ sleeps w'
               = sleeps w
                 ++ (if (batch_num <? total_batches)%nat
                     then [(RateLimit, rate_limit_wait (uniform (draws w) 0 3))]
                     else [])
            /\ results' = assign_all (error_fallback error_msg) batch results)
    as (w' & results' & E & Hc & Hs & ->).
  { pose proof (assign_all_lookup (error_fallback error_msg) batch results) as Hlk.
    exists w', (assign_all (error_fallback error_msg) batch results).
    split; [exact E|]. split; [exact Hc|]. split; [exact Hs|].
    split; [intros d Hd; apply Hlk, Hd|].
    split; [exists "API error: ", EmptyString; rewrite append_empty_r; reflexivity|].
    split; [intros d Hd; apply Hlk, Hd|].
    intros rest. cbn [foldl]. rewrite E. reflexivity. }
  unfold step, process_batch. fold batch. fold batch_num.
  unfold max_retries.
  rewrite attempt_loop_other_error with (error_msg := error_msg) by auto.
  destruct (batch_num <? total_batches)%nat; eexists; eexists;
    (split; [reflexivity|]);
    (split; [reflexivity|]);
    (split; [simpl; rewrite ?app_nil_r; reflexivity|reflexivity]).
Qed.

End BatchFallbacks.

(** ** The orchestrator *)

Section AgentProperties.

Variable generate : nat -> list string -> outcome.
Variable uniform : nat -> Q -> Q -> Q.
Variable json_loads : string -> option pyval.
Variable read : string -> option (list string).
Variable now : string.
Variable os_error :
  list ResultsProcessor.fs_event -> ResultsProcessor.fs_event -> bool.

(** A run with a credential, a brand name, a readable file and at least one
    domain containing the keyword goes through the client and the results
    processor; the keyword is the brand name as given.  The run returns,
    unless an output path is given and [save_results] raises. *)
Lemma agent_run_classified (api_key : option string) (domains_file brand_name : string)
  (company_name industry description output_path : option string)
  (batch_size : pyval) (all_domains : list string) :
  is_configured api_key = true ->
  PyStr.nonempty brand_name = true ->
  BrandProtectionAgent.load_domains read domains_file = Some all_domains ->
  let relevant_domains :=
    DomainLoader.filter_full_word_matches all_domains brand_name in
  relevant_domains <> [] ->
  let brand_config :=
    BrandProtectionConfig._create_dynamic_brand_config brand_name company_name
      industry description in
  let client :=
    analyze_domains generate uniform json_loads api_key relevant_domains batch_size
      initial_world in
  let results :=
    ResultsProcessor.process_results relevant_domains (snd client) brand_config
      batch_size now in
  let run :=
    BrandProtectionAgent.analyze_domains generate uniform json_loads read now os_error
      api_key domains_file (Some brand_name) company_name industry description
      output_path batch_size in
  exists written,
    let r := BrandProtectionAgent.mk_run results (fst client) written in
    (run = inr r \/ exists failed, run = inl (BrandProtectionAgent.OSError failed r))
    /\ (Py.or_str output_path EmptyString = EmptyString -> run = inr r).
Proof.
  intros Hk Hb Hl relevant_domains Hne brand_config client results run.
  assert (Hrun :
    run
    = match output_path with
      | Some path =>
          if PyStr.nonempty path
          then
            match ResultsProcessor.perform os_error []
                    (ResultsProcessor.save_results results path) with
            | (written, None) =>
                inr (BrandProtectionAgent.mk_run results (fst client) written)
            | (written, Some failed) =>
                inl (BrandProtectionAgent.OSError failed
                       (BrandProtectionAgent.mk_run results (fst client) written))
            end
          else inr (BrandProtectionAgent.mk_run results (fst client) [])
      | None => inr (BrandProtectionAgent.mk_run results (fst client) [])
      end).
  { unfold run, BrandProtectionAgent.analyze_domains.
    rewrite Hk. simpl negb. cbv iota.
    unfold BrandProtectionConfig.get_brand_config. rewrite Hb, Hl.
    unfold Py.or_str. rewrite Hb. fold relevant_domains.
    destruct relevant_domains as [|d ds] eqn:E; [contradiction|].
    fold brand_config. unfold results, client.
    destruct (analyze_domains _ _ _ _ _ _ _) as [w llm_results]. reflexivity. }
  clearbody run results client. subst run.
  destruct output_path as [path|]; cbn [Py.or_str].
  - destruct (PyStr.nonempty path) eqn:Hp.
    + destruct (ResultsProcessor.perform os_error [] _) as [written [failed|]];
        exists written; cbv zeta.
      * split; [right; exists failed; reflexivity|].
        intros ->. discriminate.
      * split; [left; reflexivity|]. intros ->. discriminate.
    + exists []. cbv zeta. split; [left; reflexivity|reflexivity].
  - exists []. cbv zeta. split; [left; reflexivity|reflexivity].
Qed.

(** C10 (as amended): in a run that reaches the results processor, the
    keyword recorded in the metadata is the lower-cased name of the brand
    configuration, that is the lower-cased upper-cased company name when one
    is given, while the domains analysed are those filtered with the brand
    name as given.  The recorded keyword differs from the brand name exactly
    when the lower-cased upper-cased company name does; this is so whenever
    the company name is ASCII text and differs from the brand name, case
    ignored: the recorded keyword is then the lower-cased company name, and is
    neither the brand name nor the lower-cased brand name. *)
Theorem C10_recorded_keyword_is_not_filter_keyword (api_key : option string)
  (domains_file brand_name company_name : string)
  (industry description output_path : option string)
  (batch_size : pyval) (all_domains : list string) :
  is_configured api_key = true ->
  PyStr.nonempty brand_name = true ->
  PyStr.nonempty company_name = true ->
  BrandProtectionAgent.load_domains read domains_file = Some all_domains ->
  DomainLoader.filter_full_word_matches all_domains brand_name <> [] ->
  let run :=
    BrandProtectionAgent.analyze_domains generate uniform json_loads read now os_error
      api_key domains_file (Some brand_name) (Some company_name) industry description
      output_path batch_size in
  exists r,
    (run = inr r \/ exists failed, run = inl (BrandProtectionAgent.OSError failed r))
    /\ (Py.or_str output_path EmptyString = EmptyString -> run = inr r)
    /\ (let res := BrandProtectionAgent.result r in
        let recorded := AnalysisMetadata.keyword (BrandAnalysisResult.metadata res) in
        recorded = PyStr.lower (AnalysisMetadata.brand (BrandAnalysisResult.metadata res))
        /\ AnalysisMetadata.brand (BrandAnalysisResult.metadata res)
           = PyStr.upper company_name
        /\ recorded = PyStr.lower (PyStr.upper company_name)
        /\ Permutation
             (map ThreatAnalysis.domain
                (BrandAnalysisResult.threats res ++ BrandAnalysisResult.filtered res))
             (DomainLoader.filter_full_word_matches all_domains brand_name)
        /\ (recorded <> brand_name <->
            PyStr.lower (PyStr.upper company_name) <> brand_name)
        /\ (PyStr.is_ascii company_name = true ->
            PyStr.lower company_name <> PyStr.lower brand_name ->
            recorded = PyStr.lower company_name
            /\ recorded <> brand_name
            /\ recorded <> PyStr.lower brand_name)).
Proof.
  intros Hk Hb Hc Hl Hne run.
  destruct (agent_run_classified api_key domains_file brand_name (Some company_name)
              industry description output_path batch_size all_domains Hk Hb Hl Hne)
    as [written [E E']].
  eexists. split; [exact E|]. split; [exact E'|].
  cbn [BrandProtectionAgent.result].
  match goal with
  | |- context [ResultsProcessor.process_results ?ds ?llm ?cfg ?bs ?ts] =>
      pose proof (process_results_partition_facts ds llm cfg bs ts) as [_ [_ [Hperm _]]];
      pose proof (process_results_metadata ds llm cfg bs ts) as [Hbrand [Hkey _]]
  end.
  cbv zeta in *. rewrite Hkey, Hbrand.
  assert (Hname : BrandConfig.name
                    (BrandProtectionConfig._create_dynamic_brand_config brand_name
                       (Some company_name) industry description)
                  = PyStr.upper company_name).
  { unfold BrandProtectionConfig._create_dynamic_brand_config, Py.or_str.
    cbn [BrandConfig.name]. rewrite Hc. reflexivity. }
  rewrite Hname.
  split; [reflexivity|]. split; [reflexivity|]. split; [reflexivity|].
  split; [exact Hperm|]. split; [reflexivity|].
  intros Hascii Hdiff. rewrite (lower_upper_on_ascii company_name Hascii).
  split; [reflexivity|]. split; [|exact Hdiff].
  intros Heq. apply Hdiff. rewrite <- Heq.
  rewrite (lower_idem_on_ascii company_name Hascii). reflexivity.
Qed.

End AgentProperties.

(** ** Parsing the response *)

Lemma from_first_spec (c : ascii) (s r : string) :
  from_first c s = Some r ->
  exists pre, s = (pre ++ r)%string
              /\ PyStr.contains (String c EmptyString) pre = false
              /\ PyStr.startswith r (String c EmptyString) = true.
Proof.
  revert r. induction s as [|a s IH]; intros r H; simpl in H; [discriminate|].
  destruct (Ascii.eqb_spec a c) as [->|Hne].
  - injection H as <-. exists EmptyString. simpl. rewrite Ascii.eqb_refl. auto.
  - destruct (IH _ H) as (pre & -> & Hpre & Hr).
    exists (String a pre). split; [reflexivity|]. split; [|exact Hr].
    simpl. rewrite Hpre.
    destruct (Ascii.eqb_spec c a) as [->|_]; [contradiction|reflexivity].
Qed.

Lemma up_to_last_none (c : ascii) (s : string) :
  up_to_last c s = None -> PyStr.contains (String c EmptyString) s = false.
Proof.
  induction s as [|a s IH]; simpl; intros H; [reflexivity|].
  destruct (up_to_last c s); [discriminate|].
  rewrite IH by reflexivity.
  destruct (Ascii.eqb_spec a c) as [->|Hne]; [discriminate|].
  destruct (Ascii.eqb_spec c a) as [->|_]; [contradiction|reflexivity].
Qed.

Lemma up_to_last_spec (c : ascii) (s r : string) :
  up_to_last c s = Some r ->
  exists body post,
    r = (body ++ String c EmptyString)%string
    /\ s = (r ++ post)%string
    /\ PyStr.contains (String c EmptyString) post = false.
Proof.
  revert r. induction s as [|a s IH]; intros r H; simpl in H; [discriminate|].
  destruct (up_to_last c s) as [r'|] eqn:E.
  - injection H as <-. destruct (IH _ eq_refl) as (body & post & -> & -> & Hpost).
    exists (String a body), post. auto.
  - destruct (Ascii.eqb_spec a c) as [->|_]; [|discriminate].
    injection H as <-. exists EmptyString, s. split; [reflexivity|].
    split; [reflexivity|]. apply up_to_last_none, E.
Qed.

(** The match of the pattern: the text from the first opening brace to the
    last closing brace. *)
Lemma search_braces_spec (response_text json_str : string) :
  search_braces response_text = Some json_str ->
  exists pre inner post,
    response_text = (pre ++ json_str ++ post)%string
    /\ json_str = ("{" ++ inner ++ "}")%string
    /\ PyStr.contains "{" pre = false
    /\ PyStr.contains "}" post = false.
Proof.
  unfold search_braces. intros H.
  destruct (from_first "{" response_text) as [s|] eqn:E; [|discriminate].
  apply from_first_spec in E as (pre & -> & Hpre & Hs).
  destruct s as [|a s]; cbn [PyStr.startswith] in Hs; [discriminate|].
  destruct (Ascii.eqb_spec "{" a) as [<-|]; [|discriminate].
  simpl in H. destruct (up_to_last "}" s) as [r'|] eqn:E'; [|discriminate].
  injection H as <-.
  apply up_to_last_spec in E' as (inner & post & -> & -> & Hpost).
  exists pre, inner, post. auto.
Qed.

Lemma names_spec (d : string) (threat : pyval) :
  names d threat = true <-> Py.get threat "domain" PNone = Some (PStr d).
Proof.
  unfold names. destruct (Py.get threat "domain" PNone) as [[]|]; split;
    try discriminate; intros H.
  - apply String.eqb_eq in H. subst. reflexivity.
  - injection H as ->. apply String.eqb_refl.
Qed.

Lemma update_threats_spec (batch_domains : list string) (threats : list pyval)
  (results : gmap string verdict) :
  Forall (shaped batch_domains) threats ->
  exists results',
    update_threats threats batch_domains results = Some results'
    /\ forall d,
         results' !! d
         = if bool_decide (d ∈ batch_domains)
           then match last_verdict d threats with
                | Some v => Some v
                | None => results !! d
                end
           else results !! d.
Proof.
  intros Hs. revert results.
  induction Hs as [|threat rest Hthreat _ IH]; intros results.
  - exists results. split; [reflexivity|]. intros d. destruct (bool_decide _); reflexivity.
  - destruct threat as [| | | | |?|kvs]; try contradiction.
    cbn [update_threats Py.get]. cbn [shaped] in Hthreat.
    assert (Hskip :
      (forall d, d ∈ batch_domains -> names d (PDict kvs) = false) ->
      exists results',
        update_threats rest batch_domains results = Some results'
        /\ forall d,
             results' !! d
             = if bool_decide (d ∈ batch_domains)
               then match last_verdict d (PDict kvs :: rest) with
                    | Some v => Some v
                    | None => results !! d
                    end
               else results !! d).
    { intros Hn. destruct (IH results) as (results' & E & Hl).
      exists results'. split; [exact E|]. intros d. rewrite Hl.
      destruct (bool_decide_reflect (d ∈ batch_domains)) as [Hd|_]; [|reflexivity].
      cbn [last_verdict]. destruct (last_verdict d rest); [reflexivity|].
      rewrite (Hn d Hd). reflexivity. }
    destruct (default PNone (Py.assoc_get "domain" kvs)) as [| | | |s| |] eqn:Edom;
      try (apply Hskip; intros d _; unfold names; cbn [Py.get]; rewrite Edom;
           reflexivity).
    destruct (bool_decide_reflect (s ∈ batch_domains)) as [Hin|Hnin].
    + destruct (Hthreat (proj1 (list_elem_of_In _ _) Hin)) as [risk Erisk].
      unfold threat_verdict. cbn [Py.get]. rewrite Erisk. cbn [Py.lower].
      match goal with
      | |- context [<[s := ?v]> results] => set (v0 := v)
      end.
      destruct (IH (<[s := v0]> results)) as (results' & E & Hl).
      exists results'. split; [exact E|]. intros d. rewrite Hl.
      destruct (bool_decide_reflect (d ∈ batch_domains)) as [Hd|Hd].
      * cbn [last_verdict]. destruct (last_verdict d rest); [reflexivity|].
        unfold names. cbn [Py.get]. rewrite Edom.
        destruct (String.eqb_spec s d) as [->|Hne].
        -- rewrite lookup_insert_eq. unfold threat_verdict. cbn [Py.get].
           rewrite Erisk. reflexivity.
        -- rewrite lookup_insert_ne by exact Hne. reflexivity.
      * apply lookup_insert_ne. intros ->. contradiction.
    + apply Hskip. intros d Hd. unfold names. cbn [Py.get]. rewrite Edom.
      destruct (String.eqb_spec s d) as [->|_]; [|reflexivity].
      contradiction.
Qed.

Lemma last_verdict_some (d : string) (threats : list pyval) (v : verdict) :
  last_verdict d threats = Some v ->
  exists kvs risk,
    In (PDict kvs) threats
    /\ Py.assoc_get "domain" kvs = Some (PStr d)
    /\ default (PStr "medium") (Py.assoc_get "risk_level" kvs) = PStr risk
    /\ v = domain_verdict d true
             (default (PFloat (PyFloat.float_lit 8 10)) (Py.assoc_get "confidence" kvs))
             (default (PStr "Potential threat") (Py.assoc_get "reason" kvs))
             (PStr (PyStr.lower risk)).
Proof.
  induction threats as [|threat rest IH]; cbn [last_verdict]; [discriminate|].
  destruct (last_verdict d rest) as [v'|].
  - intros H. destruct (IH H) as (kvs & risk & Hin & Hrest).
    exists kvs, risk. split; [right; exact Hin|exact Hrest].
  - clear IH. destruct (names d threat) eqn:En; [|discriminate].
    apply names_spec in En.
    destruct threat as [| | | | |?|kvs]; try discriminate.
    cbn [Py.get] in En. unfold threat_verdict. cbn [Py.get].
    destruct (default (PStr "medium") (Py.assoc_get "risk_level" kvs))
      as [| | | |risk| |] eqn:Er; cbn [Py.lower]; try discriminate.
    intros H. injection H as <-.
    exists kvs, risk. split; [left; reflexivity|].
    split; [|split; [exact Er|reflexivity]].
    destruct (Py.assoc_get "domain" kvs); [|discriminate].
    cbn [default] in En. exact En.
Qed.

Lemma last_verdict_none (batch_domains : list string) (d : string)
  (threats : list pyval) :
  Forall (shaped batch_domains) threats ->
  In d batch_domains ->
  last_verdict d threats = None ->
  forall threat, In threat threats -> names d threat = false.
Proof.
  induction 1 as [|threat rest Hthreat _ IH]; intros Hd Hnone t Hin; [destruct Hin|].
  cbn [last_verdict] in Hnone.
  destruct (last_verdict d rest) as [v|] eqn:El; [discriminate|].
  destruct Hin as [<-|Hin]; [|apply IH; auto].
  destruct (names d threat) eqn:En; [|reflexivity]. exfalso.
  apply names_spec in En.
  destruct threat as [| | | | |?|kvs]; try discriminate.
  cbn [Py.get] in En. injection En as En.
  cbn [shaped] in Hthreat. rewrite En in Hthreat.
  destruct (Hthreat Hd) as [risk Er].
  unfold threat_verdict in Hnone. cbn [Py.get] in Hnone.
  rewrite Er in Hnone. discriminate.
Qed.

(** With entries of that shape, the verdict of a named domain is the one
    written from the last entry of the array that names it. *)
Lemma last_verdict_last_entry (batch_domains : list string) (d : string)
  (threats : list pyval) (v : verdict) :
  Forall (shaped batch_domains) threats ->
  In d batch_domains ->
  last_verdict d threats = Some v ->
  exists before kvs after risk,
    threats = before ++ PDict kvs :: after
    /\ Py.assoc_get "domain" kvs = Some (PStr d)
    /\ (forall threat, In threat after -> names d threat = false)
    /\ default (PStr "medium") (Py.assoc_get "risk_level" kvs) = PStr risk
    /\ v = domain_verdict d true
             (default (PFloat (PyFloat.float_lit 8 10)) (Py.assoc_get "confidence" kvs))
             (default (PStr "Potential threat") (Py.assoc_get "reason" kvs))
             (PStr (PyStr.lower risk)).
Proof.
  intros Hs Hd. revert v.
  induction Hs as [|threat rest Hthreat Hrest IH]; intros v; cbn [last_verdict];
    [discriminate|].
  destruct (last_verdict d rest) as [v'|] eqn:El.
  - intros H. injection H as <-.
    destruct (IH v' eq_refl) as (before & kvs & after & risk & -> & Hrest').
    exists (threat :: before), kvs, after, risk. split; [reflexivity|exact Hrest'].
  - intros H.
    destruct (last_verdict_some d (threat :: rest) v) as (kvs & risk & Hin & Hdom & Hrisk & Hv).
    { cbn [last_verdict]. rewrite El. exact H. }
    destruct (names d threat) eqn:En; [|discriminate].
    destruct Hin as [->|Hin].
    + exists [], kvs, rest, risk. split; [reflexivity|]. split; [exact Hdom|].
      split; [|split; [exact Hrisk|exact Hv]].
      apply (last_verdict_none batch_domains); assumption.
    + exfalso.
      assert (Hn : names d (PDict kvs) = false)
        by (apply (last_verdict_none batch_domains d rest); assumption).
      assert (Hy : names d (PDict kvs) = true)
        by (apply names_spec; cbn [Py.get]; rewrite Hdom; reflexivity).
      congruence.
Qed.

Section ParseResponse.

Variable json_loads : string -> option pyval.

(** C5 (as amended): for every response text and batch, [_parse_response]
    takes the text from the first opening brace to the last closing brace and
    decodes it.  It returns the empty mapping when there is no such text, when
    the text is not valid JSON, and when handling the decoded value raises.
    When the decoded object has a [threats] array (or none) whose entries are
    objects, with a string for [risk_level] in each entry that names a batch
    domain, it returns one verdict per batch domain and none for any other
    domain: for a domain that some entry names, the verdict written from the
    last entry of the array naming it, no later entry naming the domain
    (relevant, confidence defaulting to 0.8, reason defaulting to Potential
    threat, risk level lower-cased and defaulting to medium), and for a
    domain that no entry names the default verdict (not relevant, confidence
    0.95, reason No threat detected, risk low). *)
Theorem C5_parse_response_verdicts (response_text : string)
  (batch_domains : list string) :
  let r := _parse_response json_loads response_text batch_domains in
  (search_braces response_text = None -> r = ∅)
  /\ (forall json_str,
        search_braces response_text = Some json_str ->
        (exists pre inner post,
           response_text = (pre ++ json_str ++ post)%string
           /\ json_str = ("{" ++ inner ++ "}")%string
           /\ PyStr.contains "{" pre = false
           /\ PyStr.contains "}" post = false)
        /\ (json_loads json_str = None -> r = ∅)
        /\ (forall data,
              json_loads json_str = Some data ->
              build_results data batch_domains = None -> r = ∅)
        /\ (forall kvs threats,
              json_loads json_str = Some (PDict kvs) ->
              default (PList []) (Py.assoc_get "threats" kvs) = PList threats ->
              Forall (shaped batch_domains) threats ->
              (forall d, ~ In d batch_domains -> r !! d = None)
              /\ (forall d, In d batch_domains ->
                    (last_verdict d threats = None
                     /\ (forall threat, In threat threats -> names d threat = false)
                     /\ r !! d
                        = Some (domain_verdict d false
                                  (PFloat (PyFloat.float_lit 95 100))
                                  (PStr "No threat detected") (PStr "low")))
                    \/ (exists before kvs' after risk,
                          threats = before ++ PDict kvs' :: after
                          /\ Py.assoc_get "domain" kvs' = Some (PStr d)
                          /\ (forall threat, In threat after -> names d threat = false)
                          /\ default (PStr "medium") (Py.assoc_get "risk_level" kvs')
                             = PStr risk
                          /\ r !! d
                             = Some (domain_verdict d true
                                       (default (PFloat (PyFloat.float_lit 8 10))
                                          (Py.assoc_get "confidence" kvs'))
                                       (default (PStr "Potential threat")
                                          (Py.assoc_get "reason" kvs'))
                                       (PStr (PyStr.lower risk))))))).
Proof.
  intros r. unfold r, _parse_response, parse_response_log.
  split; [intros ->; reflexivity|].
  intros json_str Hsearch. rewrite Hsearch.
  split; [apply search_braces_spec, Hsearch|].
  split; [intros ->; reflexivity|].
  split; [intros data -> ->; reflexivity|].
  intros kvs threats -> Hthreats Hshaped.
  unfold build_results. cbn [Py.get]. rewrite Hthreats. cbn [Py.iter].
  destruct (update_threats_spec batch_domains threats
              (assign_all no_threat batch_domains ∅) Hshaped)
    as (results' & -> & Hl).
  cbn [fst].
  pose proof (assign_all_lookup no_threat batch_domains ∅) as Hdef.
  split.
  - intros d Hd. rewrite Hl.
    destruct (bool_decide_reflect (d ∈ batch_domains)) as [Hin|_].
    + apply list_elem_of_In in Hin. contradiction.
    + rewrite (proj2 (Hdef d) Hd). apply lookup_empty.
  - intros d Hd. rewrite Hl.
    destruct (bool_decide_reflect (d ∈ batch_domains)) as [_|Hnin].
    2:{ exfalso. apply Hnin, list_elem_of_In, Hd. }
    destruct (last_verdict d threats) as [v|] eqn:El.
    + right.
      destruct (last_verdict_last_entry batch_domains d threats v Hshaped Hd El)
        as (before & kvs' & after & risk & Hsplit & Hdom & Hafter & Hrisk & ->).
      exists before, kvs', after, risk. auto.
    + left. split; [reflexivity|].
      split; [apply (last_verdict_none batch_domains); assumption|].
      apply (proj1 (Hdef d) Hd).
Qed.

End ParseResponse.

(** ** The false-positive reduction *)

Section Percentage.

Local Open Scope Z_scope.

(** Every decimal with one fractional digit between 0.0 and 100.0 is read
    back from the float nearest to it. *)
Lemma tenths_RN_table :
  forallb (fun t => PyFloat.tenths (PyFloat.RN (Qmake t 10)) =? t)
    (map Z.of_nat (seq 0 1001)) = true.
Proof. vm_compute. reflexivity. Qed.

Lemma tenths_RN (t : Z) :
  0 <= t <= 1000 -> PyFloat.tenths (PyFloat.RN (Qmake t 10)) = t.
Proof.
  intros Ht. pose proof tenths_RN_table as H.
  rewrite forallb_forall in H. apply Z.eqb_eq, H.
  apply in_map_iff. exists (Z.to_nat t). split; [lia|].
  apply in_seq. lia.
Qed.

Lemma tenths_bounds (x : Q) (M : Z) :
  (0 <= x)%Q -> (x <= inject_Z M)%Q -> 0 <= PyFloat.tenths x <= 10 * M.
Proof.
  unfold Qle. simpl. rewrite !Z.mul_1_r. intros H0 HM. unfold PyFloat.tenths.
  split; [apply round_half_even_ge|apply round_half_even_le]; lia.
Qed.

(** Rounding to one decimal does not change what [.1f] prints. *)
Lemma format_round1 (x : Q) :
  (0 <= x)%Q -> (x <= 100)%Q ->
  PyFloat.format_1f (PyFloat.round1 x) = PyFloat.format_1f x.
Proof.
  intros H0 H100.
  pose proof (tenths_bounds x 100 H0 H100) as Ht.
  unfold PyFloat.format_1f, PyFloat.round1.
  rewrite tenths_RN by lia.
  assert (Hx : 0 <= Qnum x) by (unfold Qle in H0; simpl in H0; lia).
  assert (Hr : 0 <= Qnum (PyFloat.RN (Qmake (PyFloat.tenths x) 10)))
    by (apply RN_nonneg_num; simpl; lia).
  destruct (Z.ltb_spec (Qnum x) 0); [lia|].
  destruct (Z.ltb_spec (Qnum (PyFloat.RN (Qmake (PyFloat.tenths x) 10))) 0); [lia|].
  reflexivity.
Qed.

(** The percentage of a part of a whole is a float between 0 and 100. *)
Lemma percentage_bounds (part whole : nat) :
  (part <= whole)%nat -> (0 < whole)%nat ->
  let x := PyFloat.fmul (PyFloat.int_truediv (Z.of_nat part) (Pos.of_nat whole))
             (inject_Z 100) in
  (0 <= x)%Q /\ (x <= 100)%Q.
Proof.
  intros Hle Hpos x. unfold x, PyFloat.fmul, PyFloat.int_truediv.
  assert (Hw : Z.pos (Pos.of_nat whole) = Z.of_nat whole)
    by (destruct whole; [lia|]; rewrite <- Pos.of_nat_succ, Znat.Zpos_P_of_succ_nat; lia).
  destruct (RN_bounds (Qmake (Z.of_nat part) (Pos.of_nat whole)) 0 1) as [A B].
  - lia.
  - unfold Qle. simpl. lia.
  - unfold Qle. simpl. lia.
  - reflexivity.
  - set (y := PyFloat.RN _) in *.
    change (inject_Z 0) with 0%Q in A. change (inject_Z 1) with 1%Q in B.
    apply (RN_bounds (y * inject_Z 100) 0 100).
    + lia.
    + change (inject_Z 0) with 0%Q. change (inject_Z 100) with 100%Q. lra.
    + change (inject_Z 100) with 100%Q. lra.
    + reflexivity.
Qed.

End Percentage.

(** C6: the [false_positive_reduction] of the metadata is the string 0.0%
    when there is no input domain; otherwise it is
    [round(filtered_count / total_domains * 100, 1)] printed with one decimal
    place and followed by the percent sign. *)
Theorem C6_false_positive_reduction (domains : list string)
  (llm_results : gmap string verdict) (brand_config : BrandConfig.t)
  (batch_size : pyval) (timestamp : string) :
  let m := BrandAnalysisResult.metadata
             (ResultsProcessor.process_results domains llm_results brand_config
                batch_size timestamp) in
  let filtered_count := AnalysisMetadata.filtered_count m in
  let total_domains := AnalysisMetadata.total_domains m in
  AnalysisMetadata.false_positive_reduction m
  = match domains with
    | [] => "0.0%"
    | _ :: _ =>
        (PyFloat.format_1f
           (PyFloat.round1
              (PyFloat.fmul
                 (PyFloat.int_truediv (Z.of_nat filtered_count)
                    (Pos.of_nat total_domains))
                 (inject_Z 100)))
           ++ "%")%string
    end.
Proof.
  pose proof (process_results_partition_facts domains llm_results brand_config batch_size timestamp)
    as (_ & _ & _ & _ & Hlen & _).
  cbv zeta in *. unfold ResultsProcessor.process_results in *.
  destruct (ResultsProcessor.partition_loop _ _ _ _ _) as [threats filtered].
  cbn in Hlen |- *.
  destruct domains as [|d ds]; [reflexivity|].
  unfold ResultsProcessor.false_positive_reduction.
  cbn [length] in *.
  destruct (percentage_bounds (length filtered) (S (length ds))) as [H0 H100];
    [lia|lia|].
  rewrite format_round1 by assumption. reflexivity.
Qed.

(** On every part of every whole up to 64, the percentage is the one the
    standard library's binary64 division and multiplication give. *)
Lemma percentage_agrees_with_SpecFloat :
  forallb
    (fun whole =>
       forallb
         (fun part =>
            match PyFloat.sf_value
                    (PyFloat.sf_percentage (Z.of_nat part) (Z.of_nat whole)) with
            | Some q =>
                Qeq_bool q
                  (PyFloat.fmul
                     (PyFloat.int_truediv (Z.of_nat part) (Pos.of_nat whole))
                     (inject_Z 100))
            | None => false
            end)
         (seq 0 (S whole)))
    (seq 1 64) = true.
Proof. vm_compute. reflexivity. Qed.

(** * Further properties *)

(** ** Loading the domains *)

Lemma is_space_lower_char (c : ascii) :
  PyStr.is_space (PyStr.lower_char c) = PyStr.is_space c.
Proof. destruct c as [[] [] [] [] [] [] [] []]; reflexivity. Qed.

Lemma lstrip_lower (s : string) :
  PyStr.lstrip (PyStr.ascii_lower s) = PyStr.ascii_lower (PyStr.lstrip s).
Proof.
  unfold PyStr.ascii_lower. induction s as [|c s IH]; [reflexivity|].
  cbn [PyStr.map_chars PyStr.lstrip]. rewrite is_space_lower_char.
  destruct (PyStr.is_space c); [exact IH|reflexivity].
Qed.

Lemma rstrip_lower (s : string) :
  PyStr.rstrip (PyStr.ascii_lower s) = PyStr.ascii_lower (PyStr.rstrip s).
Proof.
  unfold PyStr.ascii_lower. induction s as [|c s IH]; [reflexivity|].
  cbn [PyStr.map_chars PyStr.rstrip]. rewrite IH, is_space_lower_char.
  destruct (PyStr.rstrip s); cbn [PyStr.map_chars]; [|reflexivity].
  destruct (PyStr.is_space c); reflexivity.
Qed.

Lemma strip_lower (s : string) :
  PyStr.ascii_strip (PyStr.ascii_lower s) = PyStr.ascii_lower (PyStr.ascii_strip s).
Proof. unfold PyStr.ascii_strip. rewrite lstrip_lower, rstrip_lower. reflexivity. Qed.

Lemma lstrip_head (s : string) : head_not_space (PyStr.lstrip s).
Proof.
  induction s as [|c s IH]; [exact I|]. cbn [PyStr.lstrip].
  destruct (PyStr.is_space c) eqn:E; [exact IH|exact E].
Qed.

Lemma lstrip_fixed (s : string) : head_not_space s -> PyStr.lstrip s = s.
Proof. destruct s as [|c s]; [reflexivity|]. simpl. intros ->. reflexivity. Qed.

Lemma rstrip_head (s : string) : head_not_space s -> head_not_space (PyStr.rstrip s).
Proof.
  destruct s as [|c s]; [intros _; exact I|]. cbn [PyStr.rstrip head_not_space].
  intros H. destruct (PyStr.rstrip s); [rewrite H|]; exact H.
Qed.

Lemma rstrip_idem (s : string) : PyStr.rstrip (PyStr.rstrip s) = PyStr.rstrip s.
Proof.
  induction s as [|c s IH]; [reflexivity|]. cbn [PyStr.rstrip].
  destruct (PyStr.rstrip s) as [|c' r] eqn:E.
  - destruct (PyStr.is_space c) eqn:Ec; [reflexivity|].
    cbn [PyStr.rstrip]. rewrite Ec. reflexivity.
  - cbn [PyStr.rstrip] in *. rewrite IH. reflexivity.
Qed.

Lemma strip_idem (s : string) :
  PyStr.ascii_strip (PyStr.ascii_strip s) = PyStr.ascii_strip s.
Proof.
  unfold PyStr.ascii_strip.
  rewrite (lstrip_fixed (PyStr.rstrip (PyStr.lstrip s)))
    by apply rstrip_head, lstrip_head.
  apply rstrip_idem.
Qed.

Lemma nonempty_lower (s : string) :
  PyStr.nonempty (PyStr.ascii_lower s) = PyStr.nonempty s.
Proof. destruct s; reflexivity. Qed.

(** A line of ASCII text, once stripped and lower-cased, is ASCII text in
    lower case without white space at either end. *)
Lemma clean_ascii_line (line : string) :
  PyStr.is_ascii line = true ->
  let d := PyStr.lower (PyStr.strip line) in
  d = PyStr.ascii_lower (PyStr.ascii_strip line)
  /\ PyStr.is_ascii d = true
  /\ PyStr.lower d = d
  /\ PyStr.strip d = d
  /\ PyStr.nonempty d = PyStr.nonempty (PyStr.strip line).
Proof.
  intros H d. unfold d.
  pose proof (is_ascii_strip line H) as Hs.
  pose proof (is_ascii_lower _ Hs) as Hl.
  rewrite (PyStr.strip_on_ascii line H), (PyStr.lower_on_ascii _ Hs).
  split; [reflexivity|]. split; [exact Hl|].
  rewrite (PyStr.lower_on_ascii _ Hl), (PyStr.strip_on_ascii _ Hl).
  split; [apply ascii_lower_idem|].
  split; [rewrite strip_lower, strip_idem; reflexivity|].
  apply nonempty_lower.
Qed.

Lemma clean_lines_spec (lines : list string) (d : string) :
  In d (DomainLoader.clean_lines lines) <->
  exists line,
    In line lines /\ PyStr.nonempty (PyStr.strip line) = true
    /\ d = PyStr.lower (PyStr.strip line).
Proof.
  unfold DomainLoader.clean_lines. rewrite in_map_iff. split.
  - intros (line & <- & Hin). apply filter_In in Hin as [Hin Hne].
    exists line. auto.
  - intros (line & Hin & Hne & ->). exists line. split; [reflexivity|].
    apply filter_In. auto.
Qed.

Section Loading.

Variable read : string -> option (list string).

(** The file that [load_domains] reads: the path itself, or else the file
    of the same name under data/. *)
Lemma load_domains_file (file_path : string) :
  BrandProtectionAgent.load_domains read file_path
  = option_map DomainLoader.clean_lines
      (match read file_path with
       | Some lines => Some lines
       | None => read (OsPath.join "data" (OsPath.basename file_path))
       end).
Proof.
  unfold BrandProtectionAgent.load_domains.
  destruct (read file_path); [reflexivity|].
  destruct (read _); reflexivity.
Qed.

(** The facts about [load_domains], shared by the statements below. *)
Lemma load_domains_clean_aux (file_path : string) :
  (BrandProtectionAgent.load_domains read file_path = None <->
   read file_path = None
   /\ read (OsPath.join "data" (OsPath.basename file_path)) = None)
  /\ (forall domains,
        BrandProtectionAgent.load_domains read file_path = Some domains ->
        exists lines,
          (read file_path = Some lines
           \/ read file_path = None
              /\ read (OsPath.join "data" (OsPath.basename file_path)) = Some lines)
          /\ length domains <= length lines
          /\ (forall d,
                In d domains <->
                exists line,
                  In line lines /\ PyStr.nonempty (PyStr.strip line) = true
                  /\ d = PyStr.lower (PyStr.strip line))
          /\ (Forall (fun line => PyStr.is_ascii line = true) lines ->
              Forall (fun d => PyStr.is_ascii d = true /\ PyStr.lower d = d
                               /\ PyStr.strip d = d /\ PyStr.nonempty d = true)
                domains)).
Proof.
  rewrite load_domains_file. split.
  - destruct (read file_path) as [lines|]; [split; [discriminate|intros [? _]; discriminate]|].
    destruct (read (OsPath.join "data" (OsPath.basename file_path))) as [lines|].
    + split; [discriminate|intros [_ ?]; discriminate].
    + split; auto.
  - intros domains H.
    assert (Hex : exists lines,
               (read file_path = Some lines
                \/ read file_path = None
                   /\ read (OsPath.join "data" (OsPath.basename file_path)) = Some lines)
               /\ domains = DomainLoader.clean_lines lines).
    { destruct (read file_path) as [lines|].
      - injection H as <-. exists lines. auto.
      - destruct (read _) as [lines|]; [|discriminate].
        injection H as <-. exists lines. auto. }
    destruct Hex as (lines & Hread & ->). exists lines.
    split; [exact Hread|]. split.
    { unfold DomainLoader.clean_lines. rewrite length_map. apply filter_length_le. }
    split; [intros d; apply clean_lines_spec|].
    intros Hascii. apply List.Forall_forall. intros d Hd.
    apply clean_lines_spec in Hd as (line & Hin & Hne & ->).
    rewrite List.Forall_forall in Hascii.
    destruct (clean_ascii_line line (Hascii line Hin)) as (_ & A & B & C & D).
    cbv zeta in *. rewrite D. auto.
Qed.

(** X1: [load_domains] fails exactly when neither the path nor the file of
    the same name under data/ is a file; otherwise the domains it returns are
    exactly the stripped and lower-cased forms of the lines of that file that
    are not blank, so there are no more domains than lines; and when the
    lines are ASCII text, every domain is ASCII text in lower case, has no
    white space at either end and is not empty. *)
Theorem load_domains_clean (file_path : string) :
  (BrandProtectionAgent.load_domains read file_path = None <->
   read file_path = None
   /\ read (OsPath.join "data" (OsPath.basename file_path)) = None)
  /\ (forall domains,
        BrandProtectionAgent.load_domains read file_path = Some domains ->
        exists lines,
          (read file_path = Some lines
           \/ read file_path = None
              /\ read (OsPath.join "data" (OsPath.basename file_path)) = Some lines)
          /\ length domains <= length lines
          /\ (forall d,
                In d domains <->
                exists line,
                  In line lines /\ PyStr.nonempty (PyStr.strip line) = true
                  /\ d = PyStr.lower (PyStr.strip line))
          /\ (Forall (fun line => PyStr.is_ascii line = true) lines ->
              Forall (fun d => PyStr.is_ascii d = true /\ PyStr.lower d = d
                               /\ PyStr.strip d = d /\ PyStr.nonempty d = true)
                domains)).
Proof. apply load_domains_clean_aux. Qed.

(** X2: when the files hold ASCII text, the keyword filter is
    case-insensitive on the domains that [load_domains] returns: it keeps, in
    order, exactly the domains that contain the keyword when letter case is
    ignored. *)
Theorem filter_of_loaded_domains_ignores_case (file_path keyword : string)
  (domains : list string) :
  (forall path lines,
     read path = Some lines -> Forall (fun line => PyStr.is_ascii line = true) lines) ->
  BrandProtectionAgent.load_domains read file_path = Some domains ->
  DomainLoader.filter_full_word_matches domains keyword
  = List.filter (PyStr.contains_ci keyword) domains.
Proof.
  intros Hascii H. rewrite filter_full_word_matches_spec. apply filter_ext_Forall.
  destruct (proj2 (load_domains_clean_aux file_path) domains H)
    as (lines & Hread & _ & _ & Hclean).
  assert (Hl : Forall (fun line => PyStr.is_ascii line = true) lines)
    by (destruct Hread as [Hr|[_ Hr]]; eapply Hascii, Hr).
  eapply Forall_impl; [exact (Hclean Hl)|].
  intros d (_ & Hlow & _). unfold PyStr.contains_ci. rewrite Hlow. reflexivity.
Qed.

End Loading.

(** ** Edge cases of the keyword filter *)

Lemma contains_empty (hay : string) : PyStr.contains EmptyString hay = true.
Proof. destruct hay; reflexivity. Qed.

Lemma filter_all {A} (f : A -> bool) (l : list A) :
  (forall x, f x = true) -> List.filter f l = l.
Proof.
  intros H. induction l as [|x l IH]; simpl; [reflexivity|].
  rewrite H, IH. reflexivity.
Qed.

Lemma filter_idem {A} (f : A -> bool) (l : list A) :
  List.filter f (List.filter f l) = List.filter f l.
Proof.
  induction l as [|x l IH]; simpl; [reflexivity|].
  destruct (f x) eqn:E; simpl; [rewrite E, IH|]; auto.
Qed.

Lemma filter_sublist {A} (f : A -> bool) (l : list A) : sublist (List.filter f l) l.
Proof.
  induction l as [|x l IH]; simpl; [constructor|].
  destruct (f x); constructor; exact IH.
Qed.

(** X3: the keyword filter returns a sublist of its input (same order,
    nothing added); filtering its result again with the same keyword changes
    nothing; and an empty keyword keeps every domain. *)
Theorem filter_full_word_matches_edges (domains : list string) (keyword : string) :
  sublist (DomainLoader.filter_full_word_matches domains keyword) domains
  /\ DomainLoader.filter_full_word_matches
       (DomainLoader.filter_full_word_matches domains keyword) keyword
     = DomainLoader.filter_full_word_matches domains keyword
  /\ DomainLoader.filter_full_word_matches domains EmptyString = domains.
Proof.
  rewrite !filter_full_word_matches_spec.
  split; [apply filter_sublist|]. split; [apply filter_idem|].
  rewrite (PyStr.lower_on_ascii EmptyString eq_refl).
  apply filter_all. intros d. apply contains_empty.
Qed.

(** ** The batches *)

Lemma ceil_div_covers (n step : nat) :
  0 < step -> n <= (n + step - 1) / step * step.
Proof.
  intros H. pose proof (Nat.div_mod (n + step - 1) step ltac:(lia)) as Hd.
  pose proof (Nat.mod_upper_bound (n + step - 1) step ltac:(lia)) as Hm.
  nia.
Qed.

Lemma ceil_div_tight (n step : nat) :
  0 < step -> 0 < n -> ((n + step - 1) / step - 1) * step < n.
Proof.
  intros H Hn. pose proof (Nat.div_mod (n + step - 1) step ltac:(lia)) as Hd.
  pose proof (Nat.mod_upper_bound (n + step - 1) step ltac:(lia)) as Hm.
  nia.
Qed.

Lemma slices_concat {A} (step : nat) (count : nat) (l : list A) :
  length l <= count * step ->
  concat (map (fun k => take step (drop (k * step) l)) (seq 0 count)) = l.
Proof.
  revert l. induction count as [|count IH]; intros l Hl.
  - destruct l; [reflexivity|simpl in Hl; lia].
  - cbn [seq map concat]. rewrite <- seq_shift, map_map.
    rewrite (map_ext _ (fun k => take step (drop (k * step) (drop step l)))).
    + rewrite IH; [apply take_drop|]. rewrite length_drop. simpl in Hl. lia.
    + intros k. rewrite drop_drop. repeat f_equal; lia.
Qed.

Lemma batches_partition_aux (domains : list string) (batch_size : nat) :
  0 < batch_size ->
  concat (Batching.batches domains batch_size) = domains
  /\ length (Batching.batches domains batch_size)
     = Batching.total_batches domains batch_size
  /\ (forall k batch,
        Batching.batches domains batch_size !! k = Some batch ->
        batch = take batch_size (drop (k * batch_size) domains)
        /\ 0 < length batch <= batch_size
        /\ (S k < Batching.total_batches domains batch_size ->
            length batch = batch_size)).
Proof.
  intros Hpos. unfold Batching.batches, Batching.total_batches, range_step.
  rewrite map_map. split; [|split].
  - apply slices_concat, ceil_div_covers, Hpos.
  - rewrite length_map, length_seq. reflexivity.
  - intros k batch Hk.
    rewrite list_lookup_fmap in Hk.
    destruct (seq 0 _ !! k) as [k'|] eqn:Ek; [|discriminate].
    injection Hk as <-.
    apply lookup_seq in Ek as [-> Hlt]. cbn [Nat.add] in *.
    split; [reflexivity|].
    rewrite length_take, length_drop.
    assert (Hn : 0 < length domains).
    { destruct domains; [|simpl; lia].
      cbn [length Nat.add] in Hlt. rewrite Nat.div_small in Hlt by lia. lia. }
    pose proof (ceil_div_tight (length domains) batch_size Hpos Hn) as Ht.
    set (c := (length domains + batch_size - 1) / batch_size) in *.
    split; [nia|]. intros Hlast. nia.
Qed.

(** X4: for a batch size greater than zero, the slices taken by the loop of
    the client are a partition of the domains into consecutive batches:
    concatenated they give the list back, there are
    [ceil (len / batch_size)] of them, none is empty or longer than the batch
    size, and all but the last have exactly the batch size. *)
Theorem batches_partition (domains : list string) (batch_size : nat) :
  0 < batch_size ->
  concat (Batching.batches domains batch_size) = domains
  /\ length (Batching.batches domains batch_size)
     = Batching.total_batches domains batch_size
  /\ (forall k batch,
        Batching.batches domains batch_size !! k = Some batch ->
        batch = take batch_size (drop (k * batch_size) domains)
        /\ 0 < length batch <= batch_size
        /\ (S k < Batching.total_batches domains batch_size ->
            length batch = batch_size)).
Proof. apply batches_partition_aux. Qed.

(** ** What a run of the client costs *)

Lemma count_sleeps_app (k : sleep_kind) (l l' : list (sleep_kind * Q)) :
  Batching.count_sleeps k (l ++ l')
  = Batching.count_sleeps k l + Batching.count_sleeps k l'.
Proof. unfold Batching.count_sleeps. rewrite List.filter_app, length_app. reflexivity. Qed.

Lemma count_backoff_all (l : list (sleep_kind * Q)) :
  Forall is_backoff l ->
  Batching.count_sleeps Backoff l = length l
  /\ Batching.count_sleeps RateLimit l = 0.
Proof.
  unfold Batching.count_sleeps.
  induction 1 as [|[k q] l Hk _ [IH1 IH2]]; [split; reflexivity|].
  unfold is_backoff in Hk. simpl in Hk. subst k. simpl. rewrite IH1, IH2. auto.
Qed.

Section ClientEffort.

Variable generate : nat -> list string -> outcome.
Variable uniform : nat -> Q -> Q -> Q.
Variable json_loads : string -> option pyval.

Lemma emits_frame (events : list log_event) (w : world) :
  let w' := foldl (fun acc e => emit e acc) w events in
  calls w' = calls w /\ sleeps w' = sleeps w /\ draws w' = draws w.
Proof.
  revert w. induction events as [|e events IH]; intros w; simpl; [auto|].
  destruct (IH (emit e w)) as (A & B & C). simpl in *. auto.
Qed.

Lemma account_frame (u : option usage_metadata) (batch_num : nat) (w : world) :
  match account u batch_num w with
  | inl w' | inr w' =>
      calls w' = calls w /\ sleeps w' = sleeps w /\ draws w' = draws w
  end.
Proof. unfold account. destruct u as [[[i|] [o|] [t|]]|]; simpl; auto. Qed.

Lemma try_body_frame (batch : list string) (batch_num : nat) (w : world)
  (results : gmap string verdict) :
  match try_body generate json_loads batch batch_num w results with
  | Break w' _ | FallThrough w' | Except w' _ =>
      calls w' = S (calls w) /\ sleeps w' = sleeps w /\ draws w' = draws w
  end.
Proof.
  unfold try_body.
  destruct (generate _ _) as [msg|[r|]]; simpl; auto.
  destruct (text r) as [response_text|]; simpl; auto.
  destruct (PyStr.nonempty response_text); simpl; auto.
  destruct (usage r) as [u|].
  - pose proof (account_frame u batch_num (tick_call w)) as Ha.
    destruct (account u batch_num (tick_call w)) as [w2|w2];
      destruct Ha as (A & B & C); simpl in A, B, C.
    + destruct (parse_response_log _ _ _) as [batch_results events].
      destruct (emits_frame events w2) as (A' & B' & C'). cbv zeta in *.
      rewrite A', B', C'. auto.
    + auto.
  - destruct (parse_response_log _ _ _) as [batch_results events].
    destruct (emits_frame events (tick_call w)) as (A' & B' & C'). cbv zeta in *.
    rewrite A', B', C'. auto.
Qed.

Lemma attempt_loop_effort (remaining attempt : nat) (batch : list string)
  (batch_num : nat) (w : world) (results : gmap string verdict) :
  let w' := fst (attempt_loop generate uniform json_loads remaining attempt batch
                   batch_num w results) in
  exists added,
    sleeps w' = sleeps w ++ added
    /\ Forall is_backoff added
    /\ length added <= remaining
    /\ length added <= 2 - attempt
    /\ draws w' = draws w + length added
    /\ calls w <= calls w' <= calls w + remaining
    /\ (0 < remaining -> calls w < calls w').
Proof.
  revert attempt w results.
  induction remaining as [|remaining IH]; intros attempt w results.
  - exists []. simpl. rewrite app_nil_r. repeat split; auto; lia.
  - cbn [attempt_loop].
    pose proof (try_body_frame batch batch_num w results) as Ht.
    destruct (try_body _ _ _ _ _ _) as [w1 results1|w1|w1 msg];
      destruct Ht as (Hc & Hs & Hd).
    + exists []. simpl. rewrite app_nil_r, Hc, Hs, Hd.
      repeat split; auto; lia.
    + destruct (IH (S attempt) w1 results) as (added & A & B & C & D & E & F & _).
      exists added. cbv zeta in *. rewrite A, E, Hs, Hd.
      repeat split; auto; lia.
    + destruct (is_overload msg).
      * destruct (Nat.ltb_spec attempt (max_retries - 1)) as [Hlt|Hge].
        -- match goal with
           | |- context [attempt_loop _ _ _ remaining (S attempt) _ _ ?w2 ?r2] =>
               destruct (IH (S attempt) w2 r2) as (added & A & B & C & D & E & F & _);
               set (w2' := w2) in *
           end.
           match goal with
           | _ : sleeps _ = sleeps w2' ++ added |- _ => idtac
           end.
           assert (Hs2 : sleeps w2'
                         = sleeps w
                           ++ [(Backoff, backoff_wait attempt (uniform (draws w1) 0 5))])
             by (unfold w2'; simpl; rewrite Hs, Hd; reflexivity).
           assert (Hd2 : draws w2' = S (draws w))
             by (unfold w2'; simpl; rewrite Hd; reflexivity).
           assert (Hc2 : calls w2' = S (calls w))
             by (unfold w2'; simpl; rewrite Hc; reflexivity).
           exists ((Backoff, backoff_wait attempt (uniform (draws w1) 0 5)) :: added).
           cbv zeta in *. rewrite A, E, Hs2, Hd2, <- app_assoc.
           unfold max_retries in Hlt. simpl.
           repeat split; auto; try lia.
           constructor; [reflexivity|exact B].
        -- match goal with
           | |- context [attempt_loop _ _ _ remaining (S attempt) _ _ ?w2 ?r2] =>
               destruct (IH (S attempt) w2 r2) as (added & A & B & C & D & E & F & _)
           end.
           cbv zeta in *. simpl in A, E, F.
           rewrite Hs in A. rewrite Hd in E. rewrite Hc in F.
           exists added. rewrite A, E.
           repeat split; auto; lia.
      * exists []. simpl. rewrite app_nil_r, Hc, Hs, Hd.
        repeat split; auto; lia.
Qed.

End ClientEffort.

Lemma valid_batch_size_pos (batch_size : pyval) (n : nat) :
  valid_batch_size batch_size = Some n -> 0 < n.
Proof.
  destruct batch_size as [|[]|z| | | |]; simpl; try discriminate.
  - intros E. injection E as <-. lia.
  - destruct (Z.ltb_spec 0 z); [|discriminate]. intros E. injection E as <-. lia.
Qed.

Lemma count_not_last (a n : nat) :
  length (List.filter (fun k => (k + 1 <? a + n)%nat) (seq a n)) = n - 1.
Proof.
  revert a. induction n as [|n IH]; intros a; [reflexivity|].
  cbn [seq List.filter].
  replace (a + S n) with (S a + n) by lia.
  destruct (Nat.ltb_spec (a + 1) (S a + n)); cbn [length]; rewrite IH; lia.
Qed.

Section RunEffort.

Variable generate : nat -> list string -> outcome.
Variable uniform : nat -> Q -> Q -> Q.
Variable json_loads : string -> option pyval.

Lemma process_batch_effort (domains : list string) (batch_size total_batches : nat)
  (w : world) (results : gmap string verdict) (i : nat) :
  let w' := fst (process_batch generate uniform json_loads domains batch_size
                   total_batches (w, results) i) in
  exists added,
    sleeps w' = sleeps w ++ added
    /\ Batching.count_sleeps Backoff added <= 2
    /\ Batching.count_sleeps RateLimit added
       = (if (i / batch_size + 1 <? total_batches)%nat then 1 else 0)
    /\ calls w < calls w' <= calls w + 3.
Proof.
  unfold process_batch.
  set (batch := take _ _). set (batch_num := _ + 1).
  set (w0 := emit _ w).
  pose proof (attempt_loop_effort generate uniform json_loads max_retries 0 batch
                batch_num w0 results) as (added & A & B & C & D & E & F & G).
  destruct (attempt_loop _ _ _ _ _ _ _ _ _) as [w1 results1]. cbn [fst] in *.
  destruct (count_backoff_all added B) as [Hb Hr].
  unfold max_retries in *. specialize (G ltac:(lia)).
  unfold w0 in A, F, G. simpl in A, D, F, G.
  destruct (batch_num <? total_batches)%nat.
  - eexists (added ++ [(RateLimit, _)]). cbn [fst sleeps calls sleep emit tick_draw].
    rewrite A, app_assoc. split; [reflexivity|].
    rewrite !count_sleeps_app, Hb, Hr. unfold Batching.count_sleeps. simpl.
    repeat split; lia.
  - exists added. cbn [fst]. rewrite Hb, Hr. repeat split; auto; lia.
Qed.

Lemma batches_effort (domains : list string) (batch_size total_batches : nat)
  (ks : list nat) (w : world) (results : gmap string verdict) :
  0 < batch_size ->
  let w' := fst (foldl (process_batch generate uniform json_loads domains batch_size
                          total_batches) (w, results)
                   (map (fun k => k * batch_size) ks)) in
  exists added,
    sleeps w' = sleeps w ++ added
    /\ Batching.count_sleeps Backoff added <= 2 * length ks
    /\ Batching.count_sleeps RateLimit added
       = length (List.filter (fun k => (k + 1 <? total_batches)%nat) ks)
    /\ calls w + length ks <= calls w' <= calls w + 3 * length ks.
Proof.
  intros Hpos. revert w results.
  induction ks as [|k ks IH]; intros w results.
  - exists []. simpl. rewrite app_nil_r. repeat split; auto; lia.
  - cbn [map foldl].
    pose proof (process_batch_effort domains batch_size total_batches w results
                  (k * batch_size)) as (a1 & A1 & B1 & C1 & D1).
    destruct (process_batch _ _ _ _ _ _ _ _) as [w1 results1]. cbn [fst] in *.
    destruct (IH w1 results1) as (a2 & A2 & B2 & C2 & D2).
    exists (a1 ++ a2). cbv zeta in *.
    rewrite A2, A1, app_assoc, !count_sleeps_app, C1, C2.
    rewrite Nat.div_mul by lia.
    cbn [List.filter length].
    split; [reflexivity|].
    destruct (k + 1 <? total_batches)%nat; cbn [length]; repeat split; lia.
Qed.

Lemma analyze_domains_effort_aux (api_key : option string) (domains : list string)
  (batch_size : pyval) (w : world) :
  let total :=
    Batching.total_batches domains (default default_batch_size
                                      (valid_batch_size batch_size)) in
  let run := analyze_domains generate uniform json_loads api_key domains batch_size w in
  (is_configured api_key = false ->
   calls (fst run) = calls w /\ sleeps (fst run) = sleeps w /\ snd run = ∅)
  /\ (is_configured api_key = true ->
      exists added,
        sleeps (fst run) = sleeps w ++ added
        /\ calls w + total <= calls (fst run) <= calls w + 3 * total
        /\ Batching.count_sleeps Backoff added <= 2 * total
        /\ Batching.count_sleeps RateLimit added = total - 1).
Proof.
  intros total run. unfold run, analyze_domains. split; intros Hk; rewrite Hk.
  { simpl. auto. }
  cbn [negb].
  set (bs := default default_batch_size (valid_batch_size batch_size)) in *.
  assert (Hbs : 0 < bs).
  { unfold bs. destruct (valid_batch_size batch_size) eqn:E; simpl.
    - eapply valid_batch_size_pos, E.
    - unfold default_batch_size. lia. }
  set (choice := match valid_batch_size batch_size with
                 | Some n => (w, n)
                 | None => _ end).
  assert (Hc : snd choice = bs
               /\ calls (fst choice) = calls w /\ sleeps (fst choice) = sleeps w).
  { unfold choice, bs. destruct (valid_batch_size batch_size); simpl; auto. }
  destruct choice as [w1 n]. cbn [fst snd] in Hc. destruct Hc as (-> & Hc1 & Hs1).
  unfold range_step. fold (Batching.total_batches domains bs). fold total.
  match goal with
  | |- context [foldl ?f (?w2, ∅) _] =>
      pose proof (batches_effort domains bs total (seq 0 total) w2 ∅ Hbs)
        as (added & A & B & C & D)
  end.
  cbv zeta in *.
  destruct (foldl _ _ _) as [w3 results]. cbn [fst snd] in *.
  simpl in A, D. rewrite Hs1 in A. rewrite Hc1 in D.
  rewrite length_seq in B, D.
  pose proof (count_not_last 0 total) as Hn. cbn [Nat.add] in Hn.
  rewrite Hn in C.
  exists added. simpl. repeat split; auto; lia.
Qed.

(** X5: without a usable key the client sends no request, does not sleep
    and returns no verdict.  With one, whatever the service answers, it sends
    at least one and at most three requests per batch, sleeps for a backoff
    at most twice per batch, and pauses exactly once between two consecutive
    batches (never after the last). *)
Theorem analyze_domains_effort (api_key : option string) (domains : list string)
  (batch_size : pyval) (w : world) :
  let total :=
    Batching.total_batches domains (default default_batch_size
                                      (valid_batch_size batch_size)) in
  let run := analyze_domains generate uniform json_loads api_key domains batch_size w in
  (is_configured api_key = false ->
   calls (fst run) = calls w /\ sleeps (fst run) = sleeps w /\ snd run = ∅)
  /\ (is_configured api_key = true ->
      exists added,
        sleeps (fst run) = sleeps w ++ added
        /\ calls w + total <= calls (fst run) <= calls w + 3 * total
        /\ Batching.count_sleeps Backoff added <= 2 * total
        /\ Batching.count_sleeps RateLimit added = total - 1).
Proof. apply analyze_domains_effort_aux. Qed.

End RunEffort.

(** ** The batches announced in the log *)

Lemma processing_app (l l' : list log_event) :
  Batching.processing (l ++ l') = Batching.processing l ++ Batching.processing l'.
Proof. apply flat_map_app. Qed.

Lemma adds_refl (w : world) : adds w w [].
Proof. exists []. rewrite app_nil_r. auto. Qed.

Lemma adds_trans (w1 w2 w3 : world) (a b : list (nat * nat * nat)) :
  adds w1 w2 a -> adds w2 w3 b -> adds w1 w3 (a ++ b).
Proof.
  intros (l1 & H1 & <-) (l2 & H2 & <-). exists (l1 ++ l2).
  rewrite H2, H1, app_assoc, processing_app. auto.
Qed.

Lemma adds_quiet (w1 w2 w3 : world) (a : list (nat * nat * nat)) :
  adds w1 w2 a -> adds w2 w3 [] -> adds w1 w3 a.
Proof. intros H1 H2. rewrite <- (app_nil_r a). eapply adds_trans; eassumption. Qed.

Lemma adds_emit (e : log_event) (w : world) :
  adds w (emit e w) (Batching.processing [e]).
Proof. exists [e]. auto. Qed.

Ltac adds_by_log :=
  eexists; split;
  [ cbn [log emit sleep tick_draw tick_call set_tokens]; rewrite <- ?app_assoc;
    reflexivity
  | reflexivity ].

Lemma adds_same (w w' : world) : log w' = log w -> adds w w' [].
Proof. intros E. exists []. rewrite app_nil_r. auto. Qed.

Lemma adds_emits (events : list log_event) (w : world) :
  adds w (foldl (fun acc e => emit e acc) w events) (Batching.processing events).
Proof.
  revert w. induction events as [|e events IH]; intros w; cbn [foldl].
  - apply adds_refl.
  - change (e :: events) with ([e] ++ events). rewrite processing_app.
    eapply adds_trans; [apply adds_emit|apply IH].
Qed.

Section ClientLog.

Variable generate : nat -> list string -> outcome.
Variable uniform : nat -> Q -> Q -> Q.
Variable json_loads : string -> option pyval.

Lemma parse_response_quiet (response_text : string) (batch_domains : list string) :
  Batching.processing (snd (parse_response_log json_loads response_text batch_domains))
  = [].
Proof.
  unfold parse_response_log.
  destruct (search_braces response_text); [|reflexivity].
  destruct (json_loads _); [|reflexivity].
  destruct (build_results _ _); reflexivity.
Qed.

Lemma account_quiet (u : option usage_metadata) (batch_num : nat) (w : world) :
  match account u batch_num w with
  | inl w' | inr w' => adds w w' []
  end.
Proof.
  unfold account.
  destruct u as [[[i|] [o|] [t|]]|]; cbn [prompt_token_count candidates_token_count
    total_token_count];
    first [ apply adds_same; reflexivity | adds_by_log ].
Qed.

Lemma try_body_quiet (batch : list string) (batch_num : nat) (w : world)
  (results : gmap string verdict) :
  match try_body generate json_loads batch batch_num w results with
  | Break w' _ | FallThrough w' | Except w' _ => adds w w' []
  end.
Proof.
  unfold try_body.
  assert (H0 : adds w (tick_call w) []) by (apply adds_same; reflexivity).
  destruct (generate _ _) as [msg|[r|]]; try exact H0.
  destruct (text r) as [response_text|]; try exact H0.
  destruct (PyStr.nonempty response_text); try exact H0.
  pose proof (parse_response_quiet response_text batch) as Hq.
  destruct (usage r) as [u|].
  - pose proof (account_quiet u batch_num (tick_call w)) as Ha.
    destruct (account u batch_num (tick_call w)) as [w2|w2].
    + destruct (parse_response_log _ _ _) as [batch_results events]. cbn [snd] in Hq.
      eapply adds_quiet; [eapply adds_quiet; [exact H0|exact Ha]|].
      rewrite <- Hq. apply adds_emits.
    + eapply adds_quiet; [exact H0|exact Ha].
  - destruct (parse_response_log _ _ _) as [batch_results events]. cbn [snd] in Hq.
    eapply adds_quiet; [exact H0|]. rewrite <- Hq. apply adds_emits.
Qed.

Lemma attempt_loop_quiet (remaining attempt : nat) (batch : list string)
  (batch_num : nat) (w : world) (results : gmap string verdict) :
  adds w
    (fst (attempt_loop generate uniform json_loads remaining attempt batch
            batch_num w results)) [].
Proof.
  revert attempt w results.
  induction remaining as [|remaining IH]; intros attempt w results; cbn [attempt_loop].
  - apply adds_refl.
  - pose proof (try_body_quiet batch batch_num w results) as Ht.
    destruct (try_body _ _ _ _ _ _) as [w' results'|w'|w' msg]; cbn [fst].
    + exact Ht.
    + eapply adds_quiet; [exact Ht|apply IH].
    + destruct (is_overload msg).
      * destruct (Nat.ltb _ _).
        -- eapply adds_quiet; [|apply IH].
           eapply adds_quiet; [exact Ht|]. adds_by_log.
        -- eapply adds_quiet; [|apply IH].
           eapply adds_quiet; [exact Ht|]. adds_by_log.
      * cbn [fst]. eapply adds_quiet; [exact Ht|]. adds_by_log.
Qed.

Lemma process_batch_adds (domains : list string) (batch_size total_batches : nat)
  (st : world * gmap string verdict) (i : nat) :
  adds (fst st)
    (fst (process_batch generate uniform json_loads domains batch_size
            total_batches st i))
    [(i / batch_size + 1, total_batches, length (take batch_size (drop i domains)))].
Proof.
  destruct st as [w results]. unfold process_batch.
  set (batch := take _ _). set (batch_num := _ + 1).
  pose proof (attempt_loop_quiet max_retries 0 batch batch_num
                (emit (InfoProcessingBatch batch_num total_batches (length batch)) w)
                results) as H.
  destruct (attempt_loop _ _ _ _ _ _ _ _ _) as [w1 results1]. cbn [fst] in *.
  assert (H1 : adds w w1 [(batch_num, total_batches, length batch)]).
  { eapply adds_quiet; [|exact H]. apply adds_emit. }
  destruct (batch_num <? total_batches)%nat; cbn [fst]; [|exact H1].
  eapply adds_quiet; [exact H1|]. adds_by_log.
Qed.

Lemma batches_adds (domains : list string) (batch_size total_batches : nat)
  (starts : list nat) (st : world * gmap string verdict) :
  adds (fst st)
    (fst (foldl (process_batch generate uniform json_loads domains batch_size
                   total_batches) st starts))
    (map (fun i => (i / batch_size + 1, total_batches,
                    length (take batch_size (drop i domains)))) starts).
Proof.
  revert st. induction starts as [|i starts IH]; intros st; cbn [foldl map].
  - apply adds_refl.
  - change (?x :: map ?f starts) with ([x] ++ map f starts).
    eapply adds_trans; [apply process_batch_adds|apply IH].
Qed.

(** The log of a run of the client: the warning when the batch size is
    replaced, the two lines that announce the number of batches and the batch
    size in use, then one [Processing batch] line per slice of that size, in
    order. *)
Lemma analyze_domains_announces (api_key : option string) (domains : list string)
  (batch_size : pyval) (w : world) :
  is_configured api_key = true ->
  let size := default default_batch_size (valid_batch_size batch_size) in
  let total := Batching.total_batches domains size in
  let w' := fst (analyze_domains generate uniform json_loads api_key domains
                   batch_size w) in
  exists l,
    log w'
    = log w
      ++ (match valid_batch_size batch_size with
          | Some _ => []
          | None => [WarnInvalidBatchSize batch_size]
          end)
      ++ [InfoAnalyzing (length domains) total size; InfoRateLimits total] ++ l
    /\ Batching.processing l
       = map (fun k => (k + 1, total, length (take size (drop (k * size) domains))))
           (seq 0 total).
Proof.
  intros Hk size total w'. unfold w', analyze_domains. rewrite Hk. cbn [negb].
  assert (Hsize : 0 < size).
  { unfold size. destruct (valid_batch_size batch_size) eqn:E; cbn [default].
    - eapply valid_batch_size_pos, E.
    - unfold default_batch_size. lia. }
  set (heading := match valid_batch_size batch_size with
                  | Some _ => []
                  | None => [WarnInvalidBatchSize batch_size]
                  end).
  set (choice := match valid_batch_size batch_size with
                 | Some n => (w, n)
                 | None => _ end).
  assert (Hc : snd choice = size /\ log (fst choice) = log w ++ heading).
  { unfold choice, size, heading.
    destruct (valid_batch_size batch_size); cbn; rewrite ?app_nil_r; auto. }
  destruct choice as [w1 n]. cbn [fst snd] in Hc. destruct Hc as [-> Hw1].
  fold (Batching.total_batches domains size). fold total.
  match goal with
  | |- context [foldl ?f ?st ?starts] =>
      pose proof (batches_adds domains size total starts st) as (l & Hl & Hp);
      destruct (foldl f st starts) as [w3 results]
  end.
  cbn [fst] in *. exists (l ++ [InfoTotalTokenUsage (total_input_tokens w3)
                                  (total_output_tokens w3) (total_tokens_used w3)]).
  split.
  - cbn [emit log] in *. rewrite Hl, Hw1. rewrite <- !app_assoc. reflexivity.
  - rewrite processing_app, Hp. cbn. rewrite app_nil_r.
    unfold range_step. fold (Batching.total_batches domains size). fold total.
    rewrite map_map. apply map_ext. intros k.
    rewrite Nat.div_mul by lia. reflexivity.
Qed.

End ClientLog.

(** ** A batch size that is not a positive integer *)

Section InvalidBatchSize.

Variable generate : nat -> list string -> outcome.
Variable uniform : nat -> Q -> Q -> Q.
Variable json_loads : string -> option pyval.
Variable read : string -> option (list string).
Variable now : string.
Variable os_error :
  list ResultsProcessor.fs_event -> ResultsProcessor.fs_event -> bool.

(** C9: in a run that reaches the client with a batch size that is not a
    positive integer (0 for example), the client logs the warning and then
    works with batches of 200: its log starts with the warning and with the
    announcement of [ceil (n / 200)] batches of 200 for the [n] domains that
    contain the keyword; it has one [Processing batch] line per slice of 200
    domains, numbered from 1, with the length of the slice; it sends between
    one and three requests for each of these batches; and its state and
    verdicts are those of the run with batch size 200 that starts after the
    warning.  The metadata of the result built from these verdicts still
    carries the batch size the caller gave.  The run returns this result,
    unless an output path is given and saving raises. *)
Theorem C9_metadata_keeps_invalid_batch_size (api_key : option string)
  (domains_file brand_name : string)
  (company_name industry description output_path : option string)
  (batch_size : pyval) (all_domains : list string) :
  is_configured api_key = true ->
  PyStr.nonempty brand_name = true ->
  BrandProtectionAgent.load_domains read domains_file = Some all_domains ->
  DomainLoader.filter_full_word_matches all_domains brand_name <> [] ->
  valid_batch_size batch_size = None ->
  let relevant_domains :=
    DomainLoader.filter_full_word_matches all_domains brand_name in
  let total := Batching.total_batches relevant_domains 200 in
  let run :=
    BrandProtectionAgent.analyze_domains generate uniform json_loads read now os_error
      api_key domains_file (Some brand_name) company_name industry description
      output_path batch_size in
  exists r,
    (run = inr r \/ exists failed, run = inl (BrandProtectionAgent.OSError failed r))
    /\ (Py.or_str output_path EmptyString = EmptyString -> run = inr r)
    /\ AnalysisMetadata.batch_size
         (BrandAnalysisResult.metadata (BrandProtectionAgent.result r)) = batch_size
    /\ (exists l,
          log (BrandProtectionAgent.final r)
          = [WarnInvalidBatchSize batch_size;
             InfoAnalyzing (length relevant_domains) total 200;
             InfoRateLimits total] ++ l)
    /\ 0 < total
    /\ Batching.processing (log (BrandProtectionAgent.final r))
       = map (fun k => (k + 1, total,
                        length (take 200 (drop (k * 200) relevant_domains))))
           (seq 0 total)
    /\ total <= calls (BrandProtectionAgent.final r) <= 3 * total
    /\ (let client_200 :=
          analyze_domains generate uniform json_loads api_key relevant_domains
            (PInt 200) (emit (WarnInvalidBatchSize batch_size) initial_world) in
        BrandProtectionAgent.final r = fst client_200
        /\ BrandProtectionAgent.result r
           = ResultsProcessor.process_results relevant_domains (snd client_200)
               (BrandProtectionConfig._create_dynamic_brand_config brand_name
                  company_name industry description)
               batch_size now).
Proof.
  intros Hk Hb Hl Hne Hv relevant_domains total run.
  destruct (agent_run_classified generate uniform json_loads read now os_error
              api_key domains_file brand_name company_name
              industry description output_path batch_size all_domains Hk Hb Hl Hne)
    as [written [E E']].
  fold relevant_domains in E, E'. fold run in E, E'.
  eexists. split; [exact E|]. split; [exact E'|].
  cbn [BrandProtectionAgent.result BrandProtectionAgent.final].
  split; [apply process_results_metadata|].
  destruct (analyze_domains_announces generate uniform json_loads api_key
              relevant_domains batch_size initial_world Hk) as (l & Hlog & Hp).
  destruct (proj2 (analyze_domains_effort_aux generate uniform json_loads api_key
                     relevant_domains batch_size initial_world) Hk)
    as (added & _ & Hcalls & _).
  rewrite Hv in Hlog, Hp, Hcalls. cbn [default] in Hlog, Hp, Hcalls.
  change default_batch_size with 200 in Hlog, Hp, Hcalls.
  fold total in Hlog, Hp, Hcalls. cbn [log initial_world calls app] in Hlog, Hcalls.
  split; [exists l; exact Hlog|].
  split.
  { assert (Hlen : 0 < length relevant_domains).
    { unfold relevant_domains.
      destruct (DomainLoader.filter_full_word_matches all_domains brand_name);
        [contradiction|cbn [length]; lia]. }
    unfold total, Batching.total_batches. apply Nat.div_str_pos. lia. }
  split; [rewrite Hlog; exact Hp|].
  split; [lia|].
  rewrite (analyze_domains_invalid_batch_size generate uniform json_loads
             api_key _ batch_size initial_world Hk Hv).
  split; reflexivity.
Qed.

End InvalidBatchSize.

(** ** The shape of the verdicts *)

Lemma within_empty (domains : list string) : within domains ∅.
Proof. intros d v H. rewrite lookup_empty in H. discriminate. Qed.

Lemma within_insert (domains : list string) (results : gmap string verdict)
  (d : string) (v : verdict) :
  In d domains -> well_formed d v -> within domains results ->
  within domains (<[d := v]> results).
Proof.
  intros Hd Hv Hr d' v' H.
  destruct (string_dec d d') as [<-|Hne].
  - rewrite lookup_insert_eq in H. injection H as <-. auto.
  - rewrite lookup_insert_ne in H by exact Hne. apply Hr, H.
Qed.

Lemma within_assign_all (domains : list string) (f : string -> verdict)
  (batch : list string) (results : gmap string verdict) :
  (forall d, In d batch -> In d domains) ->
  (forall d, well_formed d (f d)) ->
  within domains results -> within domains (assign_all f batch results).
Proof.
  intros Hb Hf. revert results.
  induction batch as [|b batch IH]; intros results Hr; simpl; [exact Hr|].
  apply IH.
  - intros d Hd. apply Hb. right. exact Hd.
  - apply within_insert; auto. apply Hb. left. reflexivity.
Qed.

Lemma within_union (domains : list string) (r1 r2 : gmap string verdict) :
  within domains r1 -> within domains r2 -> within domains (r1 ∪ r2).
Proof.
  intros H1 H2 d v H. apply lookup_union_Some_raw in H as [H|[_ H]]; auto.
Qed.

Lemma within_mono (batch domains : list string) (results : gmap string verdict) :
  (forall d, In d batch -> In d domains) ->
  within batch results -> within domains results.
Proof. intros Hb Hr d v H. destruct (Hr d v H). auto. Qed.

Lemma well_formed_no_threat (d : string) : well_formed d (no_threat d).
Proof. repeat eexists. Qed.

Lemma well_formed_overloaded (d : string) : well_formed d (overloaded_fallback d).
Proof. repeat eexists. Qed.

Lemma well_formed_error (error_msg d : string) :
  well_formed d (error_fallback error_msg d).
Proof. repeat eexists. Qed.

Lemma well_formed_threat (threat : pyval) (d : string) (v : verdict) :
  threat_verdict threat d = Some v -> well_formed d v.
Proof.
  unfold threat_verdict.
  destruct (Py.get threat "confidence" _) as [c|]; [|discriminate].
  destruct (Py.get threat "reason" _) as [r|]; [|discriminate].
  destruct (Py.get threat "risk_level" _) as [[| | | |s| |]|]; try discriminate.
  cbn [Py.lower]. intros H. injection H as <-. repeat eexists.
Qed.

Lemma covers_insert (batch : list string) (results : gmap string verdict)
  (d : string) (v : verdict) :
  covers batch results -> covers batch (<[d := v]> results).
Proof.
  intros H d' Hd'. destruct (string_dec d d') as [<-|Hne].
  - rewrite lookup_insert_eq. eauto.
  - rewrite lookup_insert_ne by exact Hne. apply H, Hd'.
Qed.

Lemma covers_assign_all (f : string -> verdict) (batch : list string)
  (results : gmap string verdict) :
  covers batch (assign_all f batch results).
Proof.
  intros d Hd. rewrite (proj1 (assign_all_lookup f batch results d) Hd). eauto.
Qed.

Lemma update_threats_keeps (batch_domains : list string) (threats : list pyval)
  (results results' : gmap string verdict) :
  update_threats threats batch_domains results = Some results' ->
  covers batch_domains results -> within batch_domains results ->
  covers batch_domains results' /\ within batch_domains results'.
Proof.
  revert results. induction threats as [|threat rest IH]; intros results H Hc Hw.
  - injection H as <-. auto.
  - cbn [update_threats] in H.
    destruct (Py.get threat "domain" PNone) as [domain|]; [|discriminate].
    destruct domain as [| | | |d| |]; try (eapply IH; eassumption).
    destruct (bool_decide_reflect (d ∈ batch_domains)) as [Hin|_];
      [|eapply IH; eassumption].
    destruct (threat_verdict threat d) as [v|] eqn:Ev; [|discriminate].
    eapply IH; [exact H|apply covers_insert, Hc|].
    apply within_insert; [apply list_elem_of_In, Hin| |exact Hw].
    eapply well_formed_threat, Ev.
Qed.

Lemma build_results_keeps (data : pyval) (batch_domains : list string)
  (results : gmap string verdict) :
  build_results data batch_domains = Some results ->
  covers batch_domains results /\ within batch_domains results.
Proof.
  unfold build_results.
  destruct (Py.get data "threats" _) as [threats|]; [|discriminate].
  destruct (Py.iter threats) as [items|]; [|discriminate].
  intros H. eapply update_threats_keeps; [exact H| |].
  - apply covers_assign_all.
  - apply within_assign_all; auto using well_formed_no_threat, within_empty.
Qed.

Section ParseShape.

Variable json_loads : string -> option pyval.

Lemma parse_response_keeps (response_text : string) (batch_domains : list string) :
  let r := _parse_response json_loads response_text batch_domains in
  (r = ∅ \/ covers batch_domains r) /\ within batch_domains r.
Proof.
  unfold _parse_response, parse_response_log.
  destruct (search_braces response_text) as [json_str|];
    [|split; [left; reflexivity|apply within_empty]].
  destruct (json_loads json_str) as [data|];
    [|split; [left; reflexivity|apply within_empty]].
  destruct (build_results data batch_domains) as [results|] eqn:E;
    [|split; [left; reflexivity|apply within_empty]].
  destruct (build_results_keeps _ _ _ E). cbn [fst]. auto.
Qed.

(** X6: whatever the decoder and the response, the result of
    [_parse_response] is all or nothing: it is empty, or it has a verdict for
    every domain of the batch; a failure half-way through the threats leaves
    no partial result.  It never has a verdict for a domain outside the
    batch, and every verdict records its domain, a boolean [relevant] and a
    risk level that is a string. *)
Theorem parse_response_all_or_nothing (response_text : string)
  (batch_domains : list string) :
  let r := _parse_response json_loads response_text batch_domains in
  (r = ∅ \/ forall d, In d batch_domains -> is_Some (r !! d))
  /\ (forall d v,
        r !! d = Some v ->
        In d batch_domains
        /\ exists relevant confidence reason risk,
             v = domain_verdict d relevant confidence reason (PStr risk)).
Proof. apply parse_response_keeps. Qed.

End ParseShape.

Section ClientShape.

Variable generate : nat -> list string -> outcome.
Variable uniform : nat -> Q -> Q -> Q.
Variable json_loads : string -> option pyval.

Lemma attempt_loop_within (domains : list string) (remaining attempt : nat)
  (batch : list string) (batch_num : nat) (w : world) (results : gmap string verdict) :
  (forall d, In d batch -> In d domains) ->
  within domains results ->
  within domains
    (snd (attempt_loop generate uniform json_loads remaining attempt batch
            batch_num w results)).
Proof.
  intros Hb. revert attempt w results.
  induction remaining as [|remaining IH]; intros attempt w results Hr; [exact Hr|].
  cbn [attempt_loop]. unfold try_body.
  destruct (generate _ _) as [msg|[r|]].
  - destruct (is_overload msg).
    + destruct (Nat.ltb _ _); apply IH; [exact Hr|].
      apply within_assign_all; auto using well_formed_overloaded.
    + cbn [snd]. apply within_assign_all; auto using well_formed_error.
  - destruct (text r) as [response_text|]; [|apply IH, Hr].
    destruct (PyStr.nonempty response_text); [|apply IH, Hr].
    assert (Hp : within domains (_parse_response json_loads response_text batch)).
    { eapply within_mono; [exact Hb|apply parse_response_keeps]. }
    unfold _parse_response in Hp.
    destruct (match usage r with Some u => _ | None => _ end) as [w2|w2].
    + destruct (parse_response_log _ _ _) as [batch_results events].
      cbn [snd fst] in *. apply within_union; assumption.
    + destruct (is_overload type_error).
      * destruct (Nat.ltb _ _); apply IH; [exact Hr|].
        apply within_assign_all; auto using well_formed_overloaded.
      * cbn [snd]. apply within_assign_all; auto using well_formed_error.
  - apply IH, Hr.
Qed.

Lemma in_take_drop (domains : list string) (n i : nat) (d : string) :
  In d (take n (drop i domains)) -> In d domains.
Proof.
  rewrite <- !list_elem_of_In. intros H.
  eapply elem_of_sublist; [exact H|].
  etransitivity; [apply sublist_take|apply sublist_drop].
Qed.

Lemma batches_within (domains : list string) (batch_size total_batches : nat)
  (starts : list nat) (st : world * gmap string verdict) :
  within domains (snd st) ->
  within domains
    (snd (foldl (process_batch generate uniform json_loads domains batch_size
                   total_batches) st starts)).
Proof.
  revert st. induction starts as [|i starts IH]; intros [w results] Hr; [exact Hr|].
  cbn [foldl]. apply IH. unfold process_batch.
  match goal with
  | |- context [attempt_loop _ _ _ ?rem ?att ?b ?bn ?w0 results] =>
      pose proof (attempt_loop_within domains rem att b bn w0 results
                    (in_take_drop domains batch_size i) Hr) as Ha;
      destruct (attempt_loop generate uniform json_loads rem att b bn w0 results)
        as [w1 results1]
  end.
  cbn [snd] in Ha. destruct (Nat.ltb _ _); exact Ha.
Qed.

Lemma analyze_domains_within (api_key : option string) (domains : list string)
  (batch_size : pyval) (w : world) (d : string) (v : verdict) :
  snd (analyze_domains generate uniform json_loads api_key domains batch_size w) !! d
  = Some v ->
  In d domains
  /\ exists relevant confidence reason risk,
       v = domain_verdict d relevant confidence reason (PStr risk).
Proof.
  unfold analyze_domains.
  destruct (is_configured api_key); cbn [negb].
  2:{ cbn [snd]. rewrite lookup_empty. discriminate. }
  destruct (match valid_batch_size batch_size with
            | Some n => _ | None => _ end) as [w1 n].
  match goal with
  | |- context [foldl ?f ?st ?l] =>
      pose proof (batches_within domains n ((length domains + n - 1) / n) l st
                    (within_empty domains)) as Hw;
      destruct (foldl f st l) as [w3 results]
  end.
  cbn [snd] in *. apply Hw.
Qed.

(** X7: whatever the service, the random source and the decoder do, the
    mapping returned by the client only has verdicts for domains it was given,
    and the verdict of a domain records that domain, a boolean [relevant],
    a confidence, a reason, and a risk level that is a string. *)
Theorem analyze_domains_verdicts (api_key : option string) (domains : list string)
  (batch_size : pyval) (w : world) (d : string) (v : verdict) :
  snd (analyze_domains generate uniform json_loads api_key domains batch_size w) !! d
  = Some v ->
  In d domains
  /\ exists relevant confidence reason risk,
       v = domain_verdict d relevant confidence reason (PStr risk).
Proof. apply analyze_domains_within. Qed.

End ClientShape.

(** ** Whole runs *)

Lemma domain_verdict_lookups (d : string) (relevant : bool)
  (confidence reason risk_level : pyval) :
  let v := domain_verdict d relevant confidence reason risk_level in
  v !! "domain" = Some (PStr d)
  /\ v !! "relevant" = Some (PBool relevant)
  /\ v !! "confidence" = Some confidence
  /\ v !! "reason" = Some reason
  /\ v !! "risk_level" = Some risk_level.
Proof. repeat split; reflexivity. Qed.

Lemma threat_analysis_of_within (domains : list string)
  (llm_results : gmap string verdict) (timestamp d : string) :
  within domains llm_results ->
  let ta := ResultsProcessor.threat_analysis llm_results timestamp d in
  ThreatAnalysis.domain ta = d
  /\ (exists b, ThreatAnalysis.is_threat ta = PBool b)
  /\ (exists risk, ThreatAnalysis.risk_level ta = PStr risk).
Proof.
  intros Hw. unfold ResultsProcessor.threat_analysis.
  cbn [ThreatAnalysis.domain ThreatAnalysis.is_threat ThreatAnalysis.risk_level].
  split; [reflexivity|].
  destruct (llm_results !! d) as [v|] eqn:E.
  - destruct (Hw d v E) as [_ (b & c & r & rl & ->)]. cbn [default]. unfold id.
    destruct (domain_verdict_lookups d b c r (PStr rl)) as (_ & -> & _ & _ & ->).
    cbn [default]. unfold id. eauto.
  - cbn. eauto.
Qed.

Lemma process_results_booleans (domains all : list string)
  (llm_results : gmap string verdict) (brand_config : BrandConfig.t)
  (batch_size : pyval) (timestamp : string) :
  within all llm_results ->
  let r := ResultsProcessor.process_results domains llm_results brand_config
             batch_size timestamp in
  Forall (fun ta => ThreatAnalysis.is_threat ta = PBool true
                    /\ exists risk, ThreatAnalysis.risk_level ta = PStr risk)
    (BrandAnalysisResult.threats r)
  /\ Forall (fun ta => ThreatAnalysis.is_threat ta = PBool false
                       /\ exists risk, ThreatAnalysis.risk_level ta = PStr risk)
       (BrandAnalysisResult.filtered r).
Proof.
  intros Hw r.
  destruct (process_results_partition_facts domains llm_results brand_config
              batch_size timestamp) as (Ht & Hf & _).
  cbv zeta in Ht, Hf. fold r in Ht, Hf. rewrite Ht, Hf.
  split; apply List.Forall_forall; intros ta Hin;
    apply filter_In in Hin as [Hin Htr];
    apply in_map_iff in Hin as (d & <- & _);
    destruct (threat_analysis_of_within all llm_results timestamp d Hw)
      as (_ & [b Hb] & Hrisk);
    rewrite Hb in Htr |- *; destruct b; try discriminate; auto.
Qed.

(** [perform] carries out the operations in order up to the first one that
    is refused. *)
Lemma perform_spec
  (os_error : list ResultsProcessor.fs_event -> ResultsProcessor.fs_event -> bool)
  (done todo : list ResultsProcessor.fs_event) :
  match ResultsProcessor.perform os_error done todo with
  | (written, None) =>
      written = done ++ todo
      /\ forall before op after,
            todo = before ++ op :: after -> os_error (done ++ before) op = false
  | (written, Some failed) =>
      exists before after,
        todo = before ++ failed :: after
        /\ written = done ++ before
        /\ os_error written failed = true
  end.
Proof.
  revert done. induction todo as [|op rest IH]; intros done; cbn [ResultsProcessor.perform].
  - split; [rewrite app_nil_r; reflexivity|].
    intros [|? ?] ? ? E; discriminate.
  - destruct (os_error done op) eqn:Eop.
    + exists [], rest. rewrite app_nil_r. auto.
    + specialize (IH (done ++ [op])).
      destruct (ResultsProcessor.perform os_error (done ++ [op]) rest)
        as [written [failed|]].
      * destruct IH as (before & after & -> & -> & Hf).
        exists (op :: before), after. rewrite <- app_assoc in *. auto.
      * destruct IH as [-> IH]. split; [rewrite <- app_assoc; reflexivity|].
        intros [|b before] op' after E; injection E as <- E.
        -- rewrite app_nil_r. exact Eop.
        -- specialize (IH before op' after E). rewrite <- app_assoc in IH. exact IH.
Qed.

Section Runs.

Variable generate : nat -> list string -> outcome.
Variable uniform : nat -> Q -> Q -> Q.
Variable json_loads : string -> option pyval.
Variable read : string -> option (list string).
Variable now : string.
Variable os_error :
  list ResultsProcessor.fs_event -> ResultsProcessor.fs_event -> bool.

(** What a run that returns has gone through. *)
Lemma agent_run_inv (api_key : option string) (domains_file : string)
  (brand_name company_name industry description output_path : option string)
  (batch_size : pyval) (r : BrandProtectionAgent.run) :
  BrandProtectionAgent.analyze_domains generate uniform json_loads read now os_error api_key
    domains_file brand_name company_name industry description output_path batch_size
  = inr r ->
  exists brand all_domains,
    brand_name = Some brand
    /\ PyStr.nonempty brand = true
    /\ is_configured api_key = true
    /\ BrandProtectionAgent.load_domains read domains_file = Some all_domains
    /\ let relevant := DomainLoader.filter_full_word_matches all_domains brand in
       let brand_config :=
         BrandProtectionConfig._create_dynamic_brand_config brand company_name
           industry description in
       (relevant = []
        /\ r = BrandProtectionAgent.mk_run
                 (BrandAnalysisResult.mk
                    (AnalysisMetadata.mk (BrandConfig.name brand_config) brand 0 0 0
                       "0.0%" now batch_size) [] [])
                 initial_world [])
       \/ (relevant <> []
           /\ let client :=
                analyze_domains generate uniform json_loads api_key relevant
                  batch_size initial_world in
              BrandProtectionAgent.result r
              = ResultsProcessor.process_results relevant (snd client) brand_config
                  batch_size now
              /\ BrandProtectionAgent.final r = fst client
              /\ BrandProtectionAgent.written r
                 = match output_path with
                   | Some path =>
                       if PyStr.nonempty path
                       then ResultsProcessor.save_results
                              (BrandProtectionAgent.result r) path
                       else []
                   | None => []
                   end).
Proof.
  unfold BrandProtectionAgent.analyze_domains.
  destruct (is_configured api_key) eqn:Hk; [|discriminate]. cbn [negb].
  unfold BrandProtectionConfig.get_brand_config.
  destruct brand_name as [brand|]; [|discriminate].
  destruct (PyStr.nonempty brand) eqn:Hb; [|discriminate].
  destruct (BrandProtectionAgent.load_domains read domains_file) as [all_domains|] eqn:Hl;
    [|discriminate].
  unfold Py.or_str. rewrite Hb.
  intros H. exists brand, all_domains.
  do 4 (split; [first [reflexivity|assumption]|]). cbv zeta.
  destruct (DomainLoader.filter_full_word_matches all_domains brand) as [|d ds] eqn:E.
  - left. injection H as <-. auto.
  - right. split; [discriminate|].
    destruct (analyze_domains _ _ _ _ _ _ _) as [w llm_results].
    destruct output_path as [path|]; [|injection H as <-; cbn; auto].
    destruct (PyStr.nonempty path); [|injection H as <-; cbn; auto].
    match type of H with
    | context [ResultsProcessor.perform os_error [] ?todo] =>
        pose proof (perform_spec os_error [] todo) as Hp;
        destruct (ResultsProcessor.perform os_error [] todo) as [written [failed|]]
    end; [discriminate|].
    destruct Hp as [-> _]. injection H as <-. cbn. auto.
Qed.

(** X8: in every run that returns, the domains analysed are exactly the
    loaded domains in which the lower-cased brand name occurs: the
    domains of [threats] and of [filtered] are a rearrangement of them, the
    counts of the metadata are their numbers, and they add up.  Every entry
    of [threats] has [is_threat] equal to [True], every entry of [filtered]
    has it equal to [False], and every risk level is a string. *)
Theorem run_accounts_for_every_match (api_key : option string) (domains_file : string)
  (brand_name company_name industry description output_path : option string)
  (batch_size : pyval) (r : BrandProtectionAgent.run) :
  BrandProtectionAgent.analyze_domains generate uniform json_loads read now os_error api_key
    domains_file brand_name company_name industry description output_path batch_size
  = inr r ->
  exists brand all_domains,
    brand_name = Some brand
    /\ BrandProtectionAgent.load_domains read domains_file = Some all_domains
    /\ let res := BrandProtectionAgent.result r in
       let m := BrandAnalysisResult.metadata res in
       let matches :=
         List.filter (PyStr.contains (PyStr.lower brand)) all_domains in
       Permutation
         (map ThreatAnalysis.domain
            (BrandAnalysisResult.threats res ++ BrandAnalysisResult.filtered res))
         matches
       /\ AnalysisMetadata.total_domains m = length matches
       /\ AnalysisMetadata.threat_count m = length (BrandAnalysisResult.threats res)
       /\ AnalysisMetadata.filtered_count m
          = length (BrandAnalysisResult.filtered res)
       /\ AnalysisMetadata.threat_count m + AnalysisMetadata.filtered_count m
          = AnalysisMetadata.total_domains m
       /\ Forall (fun ta => ThreatAnalysis.is_threat ta = PBool true
                            /\ exists risk, ThreatAnalysis.risk_level ta = PStr risk)
            (BrandAnalysisResult.threats res)
       /\ Forall (fun ta => ThreatAnalysis.is_threat ta = PBool false
                            /\ exists risk, ThreatAnalysis.risk_level ta = PStr risk)
            (BrandAnalysisResult.filtered res).
Proof.
  intros H.
  destruct (agent_run_inv _ _ _ _ _ _ _ _ _ H)
    as (brand & all_domains & -> & Hb & Hk & Hl & Hcases).
  exists brand, all_domains. split; [reflexivity|]. split; [exact Hl|].
  pose proof (filter_full_word_matches_spec all_domains brand) as Hm.
  cbv zeta in *. rewrite Hm in Hcases.
  destruct Hcases as [[Hnil ->]|[Hne (Hres & _ & _)]].
  - rewrite Hnil. cbn. repeat split; auto.
  - rewrite Hres.
    match goal with
    | |- context [ResultsProcessor.process_results ?ds ?llm ?cfg ?bs ?ts] =>
        destruct (process_results_partition_facts ds llm cfg bs ts)
          as (_ & _ & Hperm & _ & Hlen & Htot & Hth & Hfl & _);
        destruct (process_results_booleans ds ds llm cfg bs ts) as [Ht Hf]
    end.
    { intros d v Hv. eapply analyze_domains_within, Hv. }
    cbv zeta in *. rewrite Htot, Hth, Hfl.
    repeat split; auto.
Qed.

(** X9: when the lower-cased brand name occurs in no loaded domain, the run
    returns a
    result with empty lists, zero counts and 0.0%, whose keyword is the brand
    name as given; it sends no request to the service and writes no file,
    even when an output path is given. *)
Theorem run_without_match (api_key : option string) (domains_file brand : string)
  (company_name industry description output_path : option string)
  (batch_size : pyval) (all_domains : list string) :
  is_configured api_key = true ->
  PyStr.nonempty brand = true ->
  BrandProtectionAgent.load_domains read domains_file = Some all_domains ->
  (forall d, In d all_domains -> PyStr.contains (PyStr.lower brand) d = false) ->
  exists r,
    BrandProtectionAgent.analyze_domains generate uniform json_loads read now os_error api_key
      domains_file (Some brand) company_name industry description output_path
      batch_size
    = inr r
    /\ BrandAnalysisResult.threats (BrandProtectionAgent.result r) = []
    /\ BrandAnalysisResult.filtered (BrandProtectionAgent.result r) = []
    /\ BrandAnalysisResult.metadata (BrandProtectionAgent.result r)
       = AnalysisMetadata.mk
           (PyStr.upper (Py.or_str company_name brand)) brand 0 0 0 "0.0%" now
           batch_size
    /\ calls (BrandProtectionAgent.final r) = 0
    /\ sleeps (BrandProtectionAgent.final r) = []
    /\ BrandProtectionAgent.written r = [].
Proof.
  intros Hk Hb Hl Hnone.
  assert (E : DomainLoader.filter_full_word_matches all_domains brand = []).
  { rewrite filter_full_word_matches_spec.
    induction all_domains as [|d ds IH] in Hnone |- *; [reflexivity|]. simpl.
    rewrite (Hnone d) by (left; reflexivity). apply IH.
    intros d' Hd'. apply Hnone. right. exact Hd'. }
  unfold BrandProtectionAgent.analyze_domains.
  rewrite Hk. cbn [negb]. unfold BrandProtectionConfig.get_brand_config.
  rewrite Hb, Hl.
  change (Py.or_str (Some brand)) with
    (fun dflt : string => if PyStr.nonempty brand then brand else dflt).
  cbv beta. rewrite Hb, E.
  eexists. split; [reflexivity|]. repeat split; reflexivity.
Qed.

End Runs.

(** ** A service that is always overloaded *)

Lemma assign_batches_lookup (f : string -> verdict) (batches : list (list string))
  (results : gmap string verdict) (d : string) :
  (In d (concat batches) ->
   foldl (fun acc b => assign_all f b acc) results batches !! d = Some (f d))
  /\ (~ In d (concat batches) ->
      foldl (fun acc b => assign_all f b acc) results batches !! d = results !! d).
Proof.
  revert results. induction batches as [|b batches IH]; intros results.
  - simpl. split; [intros []|reflexivity].
  - cbn [foldl concat]. destruct (IH (assign_all f b results)) as [IH1 IH2].
    destruct (assign_all_lookup f b results d) as [A1 A2].
    destruct (in_dec string_dec d (concat batches)) as [Hin|Hnin].
    + split; [intros _; apply IH1, Hin|].
      intros H. exfalso. apply H, in_or_app. right. exact Hin.
    + rewrite IH2 by exact Hnin. split.
      * intros H. apply in_app_or in H as [H|H]; [apply A1, H|contradiction].
      * intros H. apply A2. intros Hb. apply H, in_or_app. left. exact Hb.
Qed.

Section AlwaysOverloaded.

Variable generate : nat -> list string -> outcome.
Variable uniform : nat -> Q -> Q -> Q.
Variable json_loads : string -> option pyval.

Hypothesis overloaded :
  forall n batch, exists error_msg,
    generate n batch = Raises error_msg /\ is_overload error_msg = true.

Lemma process_batch_overloaded (domains : list string) (batch_size total_batches : nat)
  (w : world) (results : gmap string verdict) (i : nat) :
  let st := process_batch generate uniform json_loads domains batch_size
              total_batches (w, results) i in
  snd st = assign_all overloaded_fallback (take batch_size (drop i domains)) results
  /\ calls (fst st) = calls w + 3.
Proof.
  unfold process_batch.
  set (batch := take _ _). set (batch_num := _ + 1). set (w0 := emit _ w).
  destruct (overloaded (calls w0) batch) as (m0 & G0 & O0).
  unfold max_retries.
  rewrite attempt_loop_overload_retry with (error_msg := m0) by (auto; lia).
  cbv zeta.
  match goal with
  | |- context [attempt_loop _ _ _ 2 1 batch batch_num ?w1 results] =>
      destruct (overloaded (calls w1) batch) as (m1 & G1 & O1);
      rewrite attempt_loop_overload_retry with (error_msg := m1) by (auto; lia)
  end.
  cbv zeta.
  match goal with
  | |- context [attempt_loop _ _ _ 1 2 batch batch_num ?w2 results] =>
      destruct (overloaded (calls w2) batch) as (m2 & G2 & O2);
      rewrite attempt_loop_overload_last with (error_msg := m2) by (auto; lia)
  end.
  cbn [attempt_loop].
  destruct (batch_num <? total_batches)%nat; cbn; split; try reflexivity; lia.
Qed.

Lemma batches_overloaded (domains : list string) (batch_size total_batches : nat)
  (starts : list nat) (w : world) (results : gmap string verdict) :
  let st := foldl (process_batch generate uniform json_loads domains batch_size
                     total_batches) (w, results) starts in
  snd st
  = foldl (fun acc b => assign_all overloaded_fallback b acc) results
      (map (fun i => take batch_size (drop i domains)) starts)
  /\ calls (fst st) = calls w + 3 * length starts.
Proof.
  revert w results. induction starts as [|i starts IH]; intros w results.
  - cbn. split; [reflexivity|lia].
  - cbn [foldl map length].
    pose proof (process_batch_overloaded domains batch_size total_batches w results i)
      as [A B].
    destruct (process_batch _ _ _ _ _ _ _ _) as [w1 results1]. cbn [fst snd] in A, B.
    subst results1. destruct (IH w1 (assign_all overloaded_fallback
                                       (take batch_size (drop i domains)) results))
      as [A' B'].
    cbv zeta in *. rewrite A', B', B. split; [reflexivity|lia].
Qed.

(** X10: against a service that answers every request with an overload
    error, a configured client sends exactly three requests per batch and
    returns the overload fallback (relevant, confidence 0.5, reason API
    overloaded after 3 retries, risk medium) for every domain it was given,
    and nothing else. *)
Theorem always_overloaded_gives_fallback_everywhere (api_key : option string)
  (domains : list string) (batch_size : pyval) (w : world) :
  is_configured api_key = true ->
  let run := analyze_domains generate uniform json_loads api_key domains batch_size w in
  let total :=
    Batching.total_batches domains
      (default default_batch_size (valid_batch_size batch_size)) in
  calls (fst run) = calls w + 3 * total
  /\ (forall d, In d domains ->
        snd run !! d
        = Some (domain_verdict d true (PFloat half)
                  (PStr "API overloaded after 3 retries") (PStr "medium")))
  /\ (forall d, ~ In d domains -> snd run !! d = None).
Proof.
  intros Hk run total. unfold run, analyze_domains. rewrite Hk. cbn [negb].
  set (bs := default default_batch_size (valid_batch_size batch_size)) in *.
  assert (Hbs : 0 < bs).
  { unfold bs. destruct (valid_batch_size batch_size) eqn:E; simpl.
    - eapply valid_batch_size_pos, E.
    - unfold default_batch_size. lia. }
  set (choice := match valid_batch_size batch_size with
                 | Some n => (w, n)
                 | None => _ end).
  assert (Hc : snd choice = bs /\ calls (fst choice) = calls w).
  { unfold choice, bs. destruct (valid_batch_size batch_size); simpl; auto. }
  destruct choice as [w1 n]. cbn [fst snd] in Hc. destruct Hc as (-> & Hc1).
  match goal with
  | |- context [foldl ?f (?w2, ∅) ?l] =>
      pose proof (batches_overloaded domains bs ((length domains + bs - 1) / bs)
                    l w2 ∅) as [A B]
  end.
  cbv zeta in *. destruct (foldl _ _ _) as [w3 results]. cbn [fst snd] in *.
  subst results.
  destruct (batches_partition_aux domains bs Hbs) as (Hconcat & Hlen & _).
  unfold Batching.batches in Hconcat, Hlen.
  rewrite length_map in Hlen.
  split.
  { cbn. rewrite B. cbn. rewrite Hc1, Hlen. reflexivity. }
  split; intros d Hd.
  - apply assign_batches_lookup. rewrite Hconcat. exact Hd.
  - rewrite (proj2 (assign_batches_lookup _ _ _ d)) by (rewrite Hconcat; exact Hd).
    apply lookup_empty.
Qed.

End AlwaysOverloaded.

(** ** Responses without text, with text, and with a missing token count *)

Section Responses.

Variable generate : nat -> list string -> outcome.
Variable uniform : nat -> Q -> Q -> Q.
Variable json_loads : string -> option pyval.

Lemma emits_tokens (events : list log_event) (w : world) :
  let w' := foldl (fun acc e => emit e acc) w events in
  total_input_tokens w' = total_input_tokens w
  /\ total_output_tokens w' = total_output_tokens w
  /\ total_tokens_used w' = total_tokens_used w.
Proof.
  revert w. induction events as [|e events IH]; intros w; simpl; [auto|].
  destruct (IH (emit e w)) as (A & B & C). simpl in *. auto.
Qed.

Lemma attempt_loop_without_text (remaining attempt : nat) (batch : list string)
  (batch_num : nat) (w : world) (results : gmap string verdict) :
  without_text (generate (calls w) batch) ->
  attempt_loop generate uniform json_loads (S remaining) attempt batch batch_num w
    results
  = attempt_loop generate uniform json_loads remaining (S attempt) batch batch_num
      (tick_call w) results.
Proof.
  intros H. cbn [attempt_loop]. unfold try_body.
  destruct (generate (calls w) batch) as [msg|[r|]]; [destruct H| |reflexivity].
  cbn in H. destruct (text r) as [t|]; [|reflexivity]. rewrite H. reflexivity.
Qed.

(** X11: for every batch, when each of the three attempts gets a response
    without text, the client sends three requests one after the other without
    sleeping for a backoff, writes no verdict for the batch and leaves the
    verdicts of the other batches as they were. *)
Theorem responses_without_text_leave_no_verdict
  (domains : list string) (batch_size total_batches : nat)
  (w : world) (results : gmap string verdict) (i : nat) :
  let batch := take batch_size (drop i domains) in
  let batch_num := i / batch_size + 1 in
  (forall k, k < 3 -> without_text (generate (calls w + k) batch)) ->
  let st := process_batch generate uniform json_loads domains batch_size
              total_batches (w, results) i in
  snd st = results
  /\ calls (fst st) = calls w + 3
  /\ sleeps (fst st)
     = sleeps w
       ++ (if (batch_num <? total_batches)%nat
           then [(RateLimit, rate_limit_wait (uniform (draws w) 0 3))]
           else []).
Proof.
  intros batch batch_num H.
  pose proof (H 0 ltac:(lia)) as H0. pose proof (H 1 ltac:(lia)) as H1.
  pose proof (H 2 ltac:(lia)) as H2.
  rewrite Nat.add_0_r in H0.
  replace (calls w + 1) with (S (calls w)) in H1 by lia.
  replace (calls w + 2) with (S (S (calls w))) in H2 by lia.
  unfold process_batch. fold batch. fold batch_num. unfold max_retries.
  rewrite !attempt_loop_without_text by assumption.
  cbn [attempt_loop].
  destruct (batch_num <? total_batches)%nat; cbn;
    repeat split; try reflexivity; try lia.
  rewrite app_nil_r. reflexivity.
Qed.

(** X12: for every batch, when the first attempt gets a response with text
    and token counts, the client sends one request and does not sleep for a
    backoff; the verdicts parsed from the text replace those the mapping had
    for the same domains and the others stay; the token counters grow by the
    counts of the response. *)
Theorem response_with_text_is_merged
  (domains : list string) (batch_size total_batches : nat)
  (w : world) (results : gmap string verdict) (i : nat)
  (response_text : string) (input_tokens output_tokens total_tokens : nat) :
  let batch := take batch_size (drop i domains) in
  let batch_num := i / batch_size + 1 in
  generate (calls w) batch
  = Returns (Some (mk_response (Some response_text)
                     (Some (Some (mk_usage (Some input_tokens) (Some output_tokens)
                                    (Some total_tokens)))))) ->
  PyStr.nonempty response_text = true ->
  let st := process_batch generate uniform json_loads domains batch_size
              total_batches (w, results) i in
  let parsed := _parse_response json_loads response_text batch in
  (forall d,
     snd st !! d = match parsed !! d with
                   | Some v => Some v
                   | None => results !! d
                   end)
  /\ calls (fst st) = S (calls w)
  /\ sleeps (fst st)
     = sleeps w
       ++ (if (batch_num <? total_batches)%nat
           then [(RateLimit, rate_limit_wait (uniform (draws w) 0 3))]
           else [])
  /\ total_input_tokens (fst st) = total_input_tokens w + input_tokens
  /\ total_output_tokens (fst st) = total_output_tokens w + output_tokens
  /\ total_tokens_used (fst st) = total_tokens_used w + total_tokens.
Proof.
  intros batch batch_num Hg Hne.
  unfold process_batch. fold batch. fold batch_num. unfold max_retries.
  cbn [attempt_loop]. unfold try_body. cbn [calls emit]. rewrite Hg.
  cbn [text usage]. rewrite Hne. cbn [account prompt_token_count
    candidates_token_count total_token_count].
  unfold _parse_response.
  destruct (parse_response_log json_loads response_text batch)
    as [batch_results events].
  cbn [fst].
  match goal with
  | |- context [foldl (fun acc e => emit e acc) ?w2 events] =>
      destruct (emits_frame events w2) as (A & B & C);
      destruct (emits_tokens events w2) as (T1 & T2 & T3);
      set (w3 := foldl (fun acc e => emit e acc) w2 events) in *
  end.
  cbv zeta in A, B, C, T1, T2, T3. cbn in A, B, C, T1, T2, T3.
  assert (Hl : forall d,
            (batch_results ∪ results) !! d
            = match batch_results !! d with
              | Some v => Some v
              | None => results !! d
              end).
  { intros d. rewrite lookup_union.
    destruct (batch_results !! d), (results !! d); reflexivity. }
  destruct (batch_num <? total_batches)%nat; cbn [fst snd];
    (split; [exact Hl|]); cbn; rewrite ?A, ?B, ?C, ?app_nil_r; auto.
Qed.

(** The message of the [TypeError] does not indicate overload. *)
Lemma type_error_is_not_overload : is_overload type_error = false.
Proof. unfold is_overload, type_error. on_ascii. reflexivity. Qed.

(** X13: for every batch, when the first attempt gets a response with text
    whose output token count is [None], adding it to the counter raises and
    the client treats the response as a failed request: the text is not
    parsed, every domain of the batch gets the error fallback with the
    message of the [TypeError], there is no retry, and the input token count
    has already been added. *)
Theorem missing_token_count_discards_response
  (domains : list string) (batch_size total_batches : nat)
  (w : world) (results : gmap string verdict) (i : nat)
  (response_text : string) (input_tokens : nat) (total_tokens : option nat) :
  let batch := take batch_size (drop i domains) in
  generate (calls w) batch
  = Returns (Some (mk_response (Some response_text)
                     (Some (Some (mk_usage (Some input_tokens) None total_tokens))))) ->
  PyStr.nonempty response_text = true ->
  let st := process_batch generate uniform json_loads domains batch_size
              total_batches (w, results) i in
  snd st = assign_all (error_fallback type_error) batch results
  /\ (forall d, In d batch ->
        snd st !! d
        = Some (domain_verdict d true (PFloat half)
                  (PStr "API error: unsupported operand type(s) for +=: 'int' and 'NoneType'")
                  (PStr "medium")))
  /\ calls (fst st) = S (calls w)
  /\ total_input_tokens (fst st) = total_input_tokens w + input_tokens
  /\ total_output_tokens (fst st) = total_output_tokens w.
Proof.
  intros batch Hg Hne.
  unfold process_batch. fold batch. unfold max_retries.
  cbn [attempt_loop]. unfold try_body. cbn [calls emit]. rewrite Hg.
  cbn [text usage]. rewrite Hne.
  cbn [account prompt_token_count candidates_token_count total_token_count].
  rewrite type_error_is_not_overload.
  pose proof (assign_all_lookup (error_fallback type_error) batch results) as Hl.
  destruct (Nat.ltb _ _); cbn [fst snd];
    (split; [reflexivity|]); (split; [intros d Hd; apply Hl, Hd|]);
    cbn; auto.
Qed.

End Responses.

(** ** What the log of the client announces *)

Section Announcements.

Variable generate : nat -> list string -> outcome.
Variable uniform : nat -> Q -> Q -> Q.
Variable json_loads : string -> option pyval.

(** X14: the log of a run of the configured client extends the log it
    started with by: the warning when the batch size is replaced by 200; the
    announcement of the number of domains, of [ceil (n / size)] batches and of
    the batch size in use; then, among other lines, exactly one
    [Processing batch] line per slice of that size, numbered from 1 and in
    order, each with the number of batches and the length of the slice. *)
Theorem client_log_announces_batches (api_key : option string)
  (domains : list string) (batch_size : pyval) (w : world) :
  is_configured api_key = true ->
  let size := default default_batch_size (valid_batch_size batch_size) in
  let total := Batching.total_batches domains size in
  let w' := fst (analyze_domains generate uniform json_loads api_key domains
                   batch_size w) in
  exists l,
    log w'
    = log w
      ++ (match valid_batch_size batch_size with
          | Some _ => []
          | None => [WarnInvalidBatchSize batch_size]
          end)
      ++ [InfoAnalyzing (length domains) total size; InfoRateLimits total] ++ l
    /\ Batching.processing l
       = map (fun k => (k + 1, total, length (take size (drop (k * size) domains))))
           (seq 0 total).
Proof. apply analyze_domains_announces. Qed.

End Announcements.

(** ** Saving under data/ *)

Lemma string_app_assoc (a b c : string) :
  ((a ++ b) ++ c)%string = (a ++ b ++ c)%string.
Proof.
  induction a as [|x a IH]; [reflexivity|].
  change (String x ((a ++ b) ++ c)%string = String x (a ++ b ++ c)%string).
  rewrite IH. reflexivity.
Qed.

(** X15: for an output path that does not start with data/ or with data
    followed by a backslash, and whose name without the extensions .csv and
    .json does not start with a slash, [save_results] makes the directory
    data and works under it only: the base path is data/ followed by that
    name, each CSV file is the base path followed by _threats.csv or
    _filtered.csv, and the JSON file is the base path followed by
    _complete.json and holds the whole result. *)
Theorem save_results_relative_path_under_data (results : BrandAnalysisResult.t)
  (output_path : string) :
  PyStr.startswith output_path "data/" = false ->
  PyStr.startswith output_path "data\" = false ->
  let base_name := PyStr.remove_all ".json" (PyStr.remove_all ".csv" output_path) in
  PyStr.startswith base_name "/" = false ->
  forall op,
    In op (ResultsProcessor.save_results results output_path) ->
    match op with
    | ResultsProcessor.Mkdir path => path = "data"
    | ResultsProcessor.MkdirParentOf path => path = ("data/" ++ base_name)%string
    | ResultsProcessor.WriteCsv path columns rows =>
        (path = ("data/" ++ base_name ++ "_threats.csv")%string
         /\ rows = map ResultsProcessor.threat_to_dict
                     (BrandAnalysisResult.threats results)
         \/ path = ("data/" ++ base_name ++ "_filtered.csv")%string
            /\ rows = map ResultsProcessor.threat_to_dict
                        (BrandAnalysisResult.filtered results))
        /\ rows <> []
    | ResultsProcessor.WriteJson path content =>
        path = ("data/" ++ base_name ++ "_complete.json")%string
        /\ content = ResultsProcessor.result_to_dict results
    end.
Proof.
  intros H1 H2 base_name H3 op.
  assert (E : ResultsProcessor.output_base_path output_path
              = ("data/" ++ base_name)%string).
  { unfold ResultsProcessor.output_base_path. rewrite H1, H2. cbn [negb andb].
    fold base_name. unfold OsPath.join. rewrite H3. reflexivity. }
  unfold ResultsProcessor.save_results. cbv zeta. rewrite E, !string_app_assoc.
  destruct (BrandAnalysisResult.threats results) as [|t ts];
    destruct (BrandAnalysisResult.filtered results) as [|f fs];
    cbn [app In]; intros H;
    repeat match type of H with _ \/ _ => destruct H as [H|H] end;
    try contradiction; subst op;
    first [ reflexivity
          | split; [reflexivity|reflexivity]
          | split; [left; split; reflexivity|discriminate]
          | split; [right; split; reflexivity|discriminate] ].
Qed.

(** X16: every row that [save_results] writes to a CSV file is a dictionary
    whose keys are exactly the columns of the file, in order, so that the
    writer never meets a key it has no column for; and the JSON document has
    the three keys metadata, relevant_domains and filtered_domains, the two
    lists being as long as the counts of threats and filtered domains. *)
Theorem save_results_rows_match_columns (results : BrandAnalysisResult.t)
  (output_path : string) :
  (forall path columns rows,
     In (ResultsProcessor.WriteCsv path columns rows)
        (ResultsProcessor.save_results results output_path) ->
     columns = ["domain"; "is_threat"; "confidence"; "reason"; "risk_level"; "timestamp"]
     /\ Forall (fun row => exists kvs, row = PDict kvs /\ map fst kvs = columns) rows)
  /\ (forall path content,
        In (ResultsProcessor.WriteJson path content)
           (ResultsProcessor.save_results results output_path) ->
        exists metadata relevant filtered,
          content = PDict [("metadata", PDict metadata);
                           ("relevant_domains", PList relevant);
                           ("filtered_domains", PList filtered)]
          /\ map fst metadata
             = ["brand"; "keyword"; "total_domains"; "threat_count"; "filtered_count";
                "false_positive_reduction"; "timestamp"; "batch_size"]
          /\ length relevant = length (BrandAnalysisResult.threats results)
          /\ length filtered = length (BrandAnalysisResult.filtered results)).
Proof.
  assert (Hrows : forall l,
            Forall (fun row => exists kvs, row = PDict kvs
                               /\ map fst kvs = ResultsProcessor.fieldnames)
              (map ResultsProcessor.threat_to_dict l)).
  { intros l. apply List.Forall_forall. intros row Hrow.
    apply in_map_iff in Hrow as (ta & <- & _). eexists. split; reflexivity. }
  rewrite save_results_files. cbv zeta. split.
  - intros path columns rows. rewrite !in_app_iff. intros H.
    repeat in_cases H; try discriminate;
      injection H as _ <- <-; (split; [reflexivity|apply Hrows]).
  - intros path content. rewrite !in_app_iff. intros H.
    repeat in_cases H; try discriminate.
    injection H as _ <-. unfold ResultsProcessor.result_to_dict.
    do 3 eexists. split; [reflexivity|]. split; [reflexivity|].
    rewrite !length_map. auto.
Qed.

(** ** The prompt *)

Lemma add_domains_spec (i : nat) (domains : list string) (prompt : string) :
  Prompt.add_domains i domains prompt
  = (prompt ++ Prompt.add_domains i domains EmptyString)%string.
Proof.
  revert i prompt. induction domains as [|d ds IH]; intros i prompt;
    cbn [Prompt.add_domains].
  - rewrite append_empty_r. reflexivity.
  - rewrite IH, (IH (S i) (EmptyString ++ _)%string), !string_app_assoc. reflexivity.
Qed.

Lemma substring_of_app_l (needle hay post : string) :
  PyStr.substring_of needle hay -> PyStr.substring_of needle (hay ++ post)%string.
Proof.
  intros (a & b & ->). exists a, (b ++ post)%string.
  rewrite !string_app_assoc. reflexivity.
Qed.

Lemma substring_of_app_r (needle pre hay : string) :
  PyStr.substring_of needle hay -> PyStr.substring_of needle (pre ++ hay)%string.
Proof.
  intros (a & b & ->). exists (pre ++ a)%string, b.
  rewrite !string_app_assoc. reflexivity.
Qed.

Lemma add_domains_lists (i k : nat) (domains : list string) (d : string) :
  domains !! k = Some d ->
  PyStr.substring_of (pretty (i + k) ++ ". " ++ d ++ Prompt.nl)%string
    (Prompt.add_domains i domains EmptyString).
Proof.
  revert i k. induction domains as [|d' ds IH]; intros i k H; [discriminate|].
  cbn [Prompt.add_domains]. rewrite add_domains_spec.
  destruct k as [|k]; cbn in H.
  - injection H as ->. rewrite Nat.add_0_r. apply substring_of_app_l.
    exists EmptyString, EmptyString. cbn [String.append].
    rewrite !string_app_assoc, append_empty_r. reflexivity.
  - apply substring_of_app_r. replace (i + S k) with (S i + k) by lia.
    apply IH, H.
Qed.

(** X17: the prompt built for a batch contains every domain of the batch
    on a line of its own, numbered from 1 by its position in the batch, and
    ends with the JSON format asked of the service. *)
Theorem prompt_lists_every_domain (domains : list string)
  (brand_config : BrandConfig.t) :
  let prompt := Prompt.create_evaluation_prompt domains brand_config in
  (forall k d,
     domains !! k = Some d ->
     PyStr.substring_of (pretty (S k) ++ ". " ++ d ++ Prompt.nl)%string prompt)
  /\ exists before, prompt = (before ++ Prompt.format)%string.
Proof.
  intros prompt. unfold prompt, Prompt.create_evaluation_prompt.
  rewrite add_domains_spec. split.
  - intros k d Hk. do 2 apply substring_of_app_l. apply substring_of_app_r.
    apply (add_domains_lists 1 k domains d Hk).
  - eexists. reflexivity.
Qed.

(** ** Analyst modes *)

(** X18: whatever the mode, the generation configuration has seed 42, at
    most 65536 output tokens, JSON as response type, [top_k] between 1 and 5
    and a temperature that is 0, 0.1 or 0.2; a mode other than junior, senior
    and expert is reported and gets the configuration of senior, and is the
    only one described as unknown. *)
Theorem generation_config_of_every_mode (mode : string) :
  let cfg := fst (AnalystMode.get_generation_config mode) in
  let fell_back := snd (AnalystMode.get_generation_config mode) in
  AnalystMode.seed cfg = 42%Z
  /\ AnalystMode.max_output_tokens cfg = 65536%Z
  /\ AnalystMode.response_mime_type cfg = "application/json"
  /\ (1 <= AnalystMode.top_k cfg <= 5)%Z
  /\ AnalystMode.temperature cfg = AnalystMode.top_p cfg
  /\ In (AnalystMode.temperature cfg)
       [PInt 0; PFloat (PyFloat.float_lit 1 10); PFloat (PyFloat.float_lit 2 10)]
  /\ (fell_back = true <-> mode <> "junior" /\ mode <> "senior" /\ mode <> "expert")
  /\ (fell_back = true -> cfg = AnalystMode.senior)
  /\ (AnalystMode.get_mode_description mode = "Unknown analyst level" <->
      fell_back = true).
Proof.
  unfold AnalystMode.get_generation_config, AnalystMode.get_mode_description.
  destruct (String.eqb_spec mode "junior") as [->|H1].
  { cbn. repeat split; auto; try lia; try discriminate; intros (? & _); congruence. }
  destruct (String.eqb_spec mode "senior") as [->|H2].
  { cbn. repeat split; auto; try lia; try discriminate; intros (_ & ? & _); congruence. }
  destruct (String.eqb_spec mode "expert") as [->|H3].
  { cbn. repeat split; auto; try lia; try discriminate; intros (_ & _ & ?); congruence. }
  cbn. repeat split; auto; lia.
Qed.

(** ** The API key and the command line *)

(** X19: [get_api_key] takes the key from the first source that has a
    non-empty one, in the order argument, environment, .env file, prompt;
    what is typed at the prompt is stripped, and a blank input raises
    [ValueError]; an interrupted prompt exits with status 1, the only exit
    status; and a key that is returned is never the empty text when it comes
    from the argument, the environment or the .env file, or from a prompt
    answered in ASCII text. *)
Theorem get_api_key_sources (arg env env_dotenv : option string)
  (input : ApiKey.interactive) :
  let r := ApiKey.get_api_key arg env env_dotenv input in
  (forall k, arg = Some k -> PyStr.nonempty k = true -> r = ApiKey.Key k)
  /\ (ApiKey.truthy arg = false ->
      (forall k, env = Some k -> PyStr.nonempty k = true -> r = ApiKey.Key k)
      /\ (ApiKey.truthy env = false ->
          (forall k, env_dotenv = Some k -> PyStr.nonempty k = true -> r = ApiKey.Key k)
          /\ (ApiKey.truthy env_dotenv = false ->
              match input with
              | ApiKey.Interrupted => r = ApiKey.Exit 1
              | ApiKey.Typed typed =>
                  if PyStr.nonempty (PyStr.strip typed)
                  then r = ApiKey.Key (PyStr.strip (PyStr.strip typed))
                  else r = ApiKey.ValueError "No API key provided"
              end)))
  /\ (forall status, r = ApiKey.Exit status -> status = 1%Z)
  /\ (forall k, r = ApiKey.Key k ->
        (match input with
         | ApiKey.Typed typed => PyStr.is_ascii typed = true
         | ApiKey.Interrupted => True
         end) ->
        PyStr.nonempty k = true).
Proof.
  intros r. unfold r, ApiKey.get_api_key. split; [|split; [|split]].
  - intros k -> Hk. cbn [ApiKey.truthy]. rewrite Hk. reflexivity.
  - intros Ha. rewrite Ha. split.
    + intros k -> Hk. cbn [ApiKey.truthy]. rewrite Hk. reflexivity.
    + intros He. rewrite He. split.
      * intros k -> Hk. cbn [ApiKey.truthy]. rewrite Hk. reflexivity.
      * intros Hd. rewrite Hd. destruct input as [typed|]; [|reflexivity].
        destruct (PyStr.nonempty (PyStr.strip typed)); reflexivity.
  - intros status.
    destruct (ApiKey.truthy arg); [discriminate|].
    destruct (ApiKey.truthy env); [discriminate|].
    destruct (ApiKey.truthy env_dotenv); [discriminate|].
    destruct input as [typed|]; [|intros H; injection H as <-; reflexivity].
    destruct (PyStr.nonempty (PyStr.strip typed)); discriminate.
  - intros k.
    destruct arg as [a|]; cbn [ApiKey.truthy default];
      [destruct (PyStr.nonempty a) eqn:Ea;
       [intros H _; injection H as <-; exact Ea|]|];
      (destruct env as [e|]; cbn [ApiKey.truthy default];
       [destruct (PyStr.nonempty e) eqn:Ee;
        [intros H _; injection H as <-; exact Ee|]|]);
      (destruct env_dotenv as [e'|]; cbn [ApiKey.truthy default];
       [destruct (PyStr.nonempty e') eqn:Ee';
        [intros H _; injection H as <-; exact Ee'|]|]);
      (destruct input as [typed|]; [|discriminate]);
      (destruct (PyStr.nonempty (PyStr.strip typed)) eqn:Et; [|discriminate]);
      intros H Hascii; injection H as <-;
      rewrite (PyStr.strip_on_ascii typed Hascii) in *;
      rewrite (PyStr.strip_on_ascii _ (is_ascii_strip typed Hascii)), strip_idem;
      exact Et.
Qed.

Section CommandLine.

Variable generate : nat -> list string -> outcome.
Variable uniform : nat -> Q -> Q -> Q.
Variable json_loads : string -> option pyval.
Variable read : string -> option (list string).
Variable now : string.
Variable os_error :
  list ResultsProcessor.fs_event -> ResultsProcessor.fs_event -> bool.
Variable env env_dotenv : option string.
Variable input : ApiKey.interactive.

(** X20: [main] exits with status 1 or returns; it returns only when the
    file argument and the brand name are not empty, a key was found that is
    not blank, and the run of the agent with that key returned; the summary
    it logs then carries the metadata of the result and the analyst mode in
    upper case, and the domains it lists for investigation are exactly the
    threats of the result. *)
Theorem main_exits_with_1_or_reports_the_run (a : Main.args) :
  match Main.main generate uniform json_loads read now os_error env env_dotenv
          input a with
  | Main.Exit status => status = 1%Z
  | Main.Return s r =>
      PyStr.nonempty (Main.domains a) = true
      /\ PyStr.nonempty (Main.brand_name a) = true
      /\ (exists key,
            ApiKey.get_api_key (Main.api_key a) env env_dotenv input = ApiKey.Key key
            /\ is_configured (Some key) = true
            /\ BrandProtectionAgent.analyze_domains generate uniform json_loads read
                 now os_error (Some key) (Main.domains a) (Some (Main.brand_name a))
                 (Main.company_name a) (Main.industry a) (Main.description a)
                 (Main.output a) (PInt (Main.batch_size a))
               = inr r)
      /\ Main.metadata s = BrandAnalysisResult.metadata (BrandProtectionAgent.result r)
      /\ Main.mode s = PyStr.upper (Main.analyst a)
      /\ Main.investigate s = BrandAnalysisResult.threats (BrandProtectionAgent.result r)
  end.
Proof.
  unfold Main.main.
  destruct (PyStr.nonempty (Main.domains a)) eqn:Hd; cbn [negb]; [|reflexivity].
  destruct (PyStr.nonempty (Main.brand_name a)) eqn:Hb; cbn [negb]; [|reflexivity].
  pose proof (get_api_key_sources (Main.api_key a) env env_dotenv input)
    as (_ & _ & Hexit & _).
  cbv zeta in Hexit.
  destruct (ApiKey.get_api_key (Main.api_key a) env env_dotenv input)
    as [key|status|msg] eqn:Hkey; [|apply Hexit; reflexivity|reflexivity].
  destruct (PyStr.nonempty key) eqn:Hne; cbn [negb]; [|reflexivity].
  destruct (BrandProtectionAgent.analyze_domains _ _ _ _ _ _ _ _ _ _ _ _ _ _)
    as [e|r] eqn:Hrun; [reflexivity|].
  cbn [Main.metadata Main.mode Main.investigate].
  destruct (agent_run_inv _ _ _ _ _ _ _ _ _ _ _ _ _ _ _ Hrun)
    as (brand & all_domains & _ & _ & Hk & _ & Hcases).
  split; [reflexivity|]. split; [reflexivity|].
  split; [exists key; auto|]. split; [reflexivity|]. split; [reflexivity|].
  cbv zeta in Hcases. destruct Hcases as [[_ ->]|[_ (Hres & _)]]; [reflexivity|].
  rewrite Hres.
  match goal with
  | |- context [ResultsProcessor.process_results ?ds ?llm ?cfg ?bs ?ts] =>
      destruct (process_results_partition_facts ds llm cfg bs ts)
        as (_ & _ & _ & _ & _ & _ & Hth & _)
  end.
  cbv zeta in Hth. rewrite Hth.
  destruct (BrandAnalysisResult.threats _); reflexivity.
Qed.

End CommandLine.

End Properties.

(** * A company name outside ASCII *)

Section OutsideAscii.

#[local] Existing Instance Sample.with_dotless_i.

(** C10 (as stated) fails outside ASCII.  The company name written with a
    dotless i followed by bm differs from the brand name ibm, case ignored:
    their lower-cased forms differ.  [str.upper] turns it into IBM, so the
    recorded keyword is ibm, which is the brand name the domains were
    filtered with. *)
Lemma C10_company_outside_ascii_records_brand_name :
  let company_name := (Sample.dotless_i ++ "bm")%string in
  PyStr.lower company_name <> PyStr.lower "ibm"
  /\ PyStr.upper company_name = "IBM"
  /\ DomainLoader.filter_full_word_matches ["ibm-cloud.com"; "other.com"] "ibm"
     = ["ibm-cloud.com"]
  /\ exists r,
       BrandProtectionAgent.analyze_domains Sample.generate Sample.uniform Json.loads
         Sample.read_ibm Sample.now Sample.os_error (Some "key") "domains.txt"
         (Some "ibm") (Some company_name) None None None (PInt 200)
       = inr r
       /\ AnalysisMetadata.keyword
            (BrandAnalysisResult.metadata (BrandProtectionAgent.result r)) = "ibm"
       /\ map ThreatAnalysis.domain
            (BrandAnalysisResult.threats (BrandProtectionAgent.result r)
               ++ BrandAnalysisResult.filtered (BrandProtectionAgent.result r))
          = ["ibm-cloud.com"].
Proof.
  split; [vm_compute; discriminate|]. split; [reflexivity|]. split; [reflexivity|].
  eexists. split; [vm_compute; reflexivity|]. split; reflexivity.
Qed.

End OutsideAscii.

(** * Closed instances

    The instances below are evaluated on ASCII text, in the structure in
    which the three methods are the ASCII functions. *)

#[local] Existing Instance PyStr.ascii_only.

Lemma C2_filter_on_lowercase_domains_witness :
  DomainLoader.filter_full_word_matches ["tui-corp.com"; "intuitively.com"; "other.com"] "TUI"
  = List.filter (PyStr.contains_ci "TUI") ["tui-corp.com"; "intuitively.com"; "other.com"].
Proof.
  apply (C2_filter_on_lowercase_domains
           ["tui-corp.com"; "intuitively.com"; "other.com"] "TUI").
  repeat constructor.
Defined.

Lemma C3_overload_three_attempts_then_fallback_witness :
  exists w' results',
    process_batch Sample.overloaded Sample.uniform
      Json.loads ["a.com"; "b.com"] 200 1 (initial_world, ∅) 0 = (w', results')
    /\ calls w' = 3.
Proof.
  destruct (C3_overload_three_attempts_then_fallback
              Sample.overloaded Sample.uniform
              Json.loads ["a.com"; "b.com"] 200 1 initial_world ∅ 0)
    as (w' & results' & E & Hc & _).
  - intros k _. exists "503 Service Unavailable". split; reflexivity.
  - intros n. split; [unfold Qle; simpl; lia|reflexivity].
  - exists w', results'. split; [exact E|exact Hc].
Defined.

Lemma C4_other_error_single_attempt_witness :
  exists w' results',
    process_batch Sample.failing Sample.uniform
      Json.loads ["a.com"; "b.com"] 200 1 (initial_world, ∅) 0 = (w', results')
    /\ calls w' = 1.
Proof.
  destruct (C4_other_error_single_attempt
              Sample.failing Sample.uniform
              Json.loads ["a.com"; "b.com"] 200 1 initial_world ∅ 0
              "400 Bad Request")
    as (w' & results' & E & Hc & _).
  - reflexivity.
  - reflexivity.
  - exists w', results'. split; [exact E|exact Hc].
Defined.

(** C5 (as stated) fails when the decoded JSON is well formed and has the
    wrong shape: here the entry for a.com has a null risk level, calling
    [lower] on it raises, and neither a.com nor b.com gets a verdict. *)
Lemma C5_null_risk_level_gives_no_verdict :
  let response_text :=
    Json.q "{'threats': [{'domain': 'a.com', 'risk_level': null}]}" in
  search_braces response_text = Some response_text
  /\ Json.loads response_text
     = Some (PDict [("threats",
                     PList [PDict [("domain", PStr "a.com"); ("risk_level", PNone)]])])
  /\ _parse_response Json.loads response_text ["a.com"; "b.com"] = ∅.
Proof. vm_compute. repeat split; reflexivity. Qed.

Lemma C9_metadata_keeps_invalid_batch_size_witness :
  exists r,
    BrandProtectionAgent.analyze_domains Sample.generate Sample.uniform Json.loads
      Sample.read Sample.now Sample.os_error (Some "key") "domains.txt" (Some "tui")
      None None None None (PInt 0)
    = inr r
    /\ AnalysisMetadata.batch_size
         (BrandAnalysisResult.metadata (BrandProtectionAgent.result r)) = PInt 0
    /\ Batching.processing (log (BrandProtectionAgent.final r))
       = map (fun k => (k + 1, 1,
                        length (take 200 (drop (k * 200)
                                            ["tui-corp.com"; "mytuiglobal.net"]))))
           (seq 0 1).
Proof.
  destruct (C9_metadata_keeps_invalid_batch_size Sample.generate Sample.uniform
              Json.loads Sample.read Sample.now Sample.os_error (Some "key")
              "domains.txt" "tui" None None None None (PInt 0)
              ["tui-corp.com"; "other.com"; "mytuiglobal.net"])
    as (r & _ & E & Hb & _ & _ & Hp & _).
  - reflexivity.
  - reflexivity.
  - reflexivity.
  - vm_compute. discriminate.
  - reflexivity.
  - exists r. split; [exact (E eq_refl)|]. split; [exact Hb|exact Hp].
Defined.

Lemma C10_recorded_keyword_is_not_filter_keyword_witness :
  exists r,
    BrandProtectionAgent.analyze_domains Sample.generate Sample.uniform Json.loads
      Sample.read Sample.now Sample.os_error (Some "key") "domains.txt" (Some "tui")
      (Some "TUI AG") None None None (PInt 200)
    = inr r
    /\ AnalysisMetadata.keyword
         (BrandAnalysisResult.metadata (BrandProtectionAgent.result r)) = "tui ag".
Proof.
  destruct (C10_recorded_keyword_is_not_filter_keyword Sample.generate
              Sample.uniform Json.loads Sample.read Sample.now Sample.os_error
              (Some "key") "domains.txt" "tui" "TUI AG" None None None (PInt 200)
              ["tui-corp.com"; "other.com"; "mytuiglobal.net"])
    as (r & _ & E & _ & _ & Hk & _).
  - reflexivity.
  - reflexivity.
  - reflexivity.
  - reflexivity.
  - vm_compute. discriminate.
  - exists r. split; [exact (E eq_refl)|exact Hk].
Defined.

(** The percentage on a few counts, ties included (6.25 prints as 6.2 and
    18.75 as 18.8). *)
Example false_positive_reduction_samples :
  map (fun '(part, whole) => ResultsProcessor.false_positive_reduction part whole)
    [(1, 3); (2, 3); (1, 16); (3, 16); (1, 2000); (5, 5); (0, 7); (0, 0)]
  = ["33.3%"; "66.7%"; "6.2%"; "18.8%"; "0.1%"; "100.0%"; "0.0%"; "0.0%"].
Proof. vm_compute. reflexivity. Qed.

(** Base paths: relative paths go under data/, a path that is or becomes
    absolute does not. *)
Example output_base_path_samples :
  map ResultsProcessor.output_base_path
    ["tui_results.csv"; "data/tui_results.csv"; "out/x.json"; "/tmp/out.csv";
     ".csv/tmp/x"]
  = ["data/tui_results"; "data/tui_results"; "data/out/x"; "/tmp/out"; "/tmp/x"].
Proof. vm_compute. reflexivity. Qed.

(** A response naming one domain of the batch, with text around the JSON. *)
Example parse_response_sample :
  let r :=
    _parse_response Json.loads
      (Json.q "Result: {'threats': [{'domain': 'a.com', 'risk_level': 'HIGH'}, {'domain': 'z.com'}]} done")
      ["a.com"; "b.com"] in
  r !! "a.com"
  = Some (domain_verdict "a.com" true (PFloat (PyFloat.float_lit 8 10))
            (PStr "Potential threat") (PStr "high"))
  /\ r !! "b.com" = Some (no_threat "b.com")
  /\ r !! "z.com" = None.
Proof. vm_compute. repeat split; reflexivity. Qed.

(** Two objects in one response: the match spans both and does not decode. *)
Example parse_response_two_objects :
  _parse_response Json.loads (Json.q "{'threats': []} {'note': 1}") ["a.com"] = ∅.
Proof. vm_compute. reflexivity. Qed.

(** A whole run on the sample file, with keyword tui. *)
Example agent_run_sample :
  match BrandProtectionAgent.analyze_domains Sample.generate Sample.uniform Json.loads
          Sample.read Sample.now Sample.os_error (Some "key") "domains.txt" (Some "tui")
          (Some "TUI AG") None None (Some "tui_results.csv") (PInt 200) with
  | inr r =>
      let res := BrandProtectionAgent.result r in
      let m := BrandAnalysisResult.metadata res in
      map ThreatAnalysis.domain (BrandAnalysisResult.threats res) = ["tui-corp.com"]
      /\ map ThreatAnalysis.domain (BrandAnalysisResult.filtered res)
         = ["mytuiglobal.net"]
      /\ AnalysisMetadata.false_positive_reduction m = "50.0%"
      /\ AnalysisMetadata.brand m = "TUI AG"
      /\ AnalysisMetadata.keyword m = "tui ag"
      /\ calls (BrandProtectionAgent.final r) = 1
      /\ length (BrandProtectionAgent.written r) = 5
  | inl _ => False
  end.
Proof. vm_compute. repeat split; reflexivity. Qed.

(** Three domains in batches of two against a service that is always
    overloaded: three requests per batch, two backoff sleeps per batch and
    one pause between the batches, and the fallback for every domain. *)
Example always_overloaded_run :
  let '(w, results) :=
    analyze_domains Sample.overloaded Sample.uniform Json.loads (Some "key")
      ["a.com"; "b.com"; "c.com"] (PInt 2) initial_world in
  calls w = 6
  /\ map fst (sleeps w) = [Backoff; Backoff; RateLimit; Backoff; Backoff]
  /\ results !! "a.com" = Some (overloaded_fallback "a.com")
  /\ results !! "c.com" = Some (overloaded_fallback "c.com").
Proof. vm_compute. repeat split; reflexivity. Qed.

Lemma filter_of_loaded_domains_ignores_case_witness :
  DomainLoader.filter_full_word_matches
    ["tui-corp.com"; "other.com"; "mytuiglobal.net"] "TUI"
  = List.filter (PyStr.contains_ci "TUI")
      ["tui-corp.com"; "other.com"; "mytuiglobal.net"].
Proof.
  apply (filter_of_loaded_domains_ignores_case Sample.read "domains.txt" "TUI").
  - intros path lines H. injection H as <-. repeat constructor.
  - reflexivity.
Defined.

Lemma batches_partition_witness :
  concat (Batching.batches ["a.com"; "b.com"; "c.com"] 2) = ["a.com"; "b.com"; "c.com"].
Proof. apply (batches_partition ["a.com"; "b.com"; "c.com"] 2). lia. Defined.

Lemma analyze_domains_verdicts_witness :
  In "c.com" ["a.com"; "b.com"; "c.com"].
Proof.
  apply (analyze_domains_verdicts Sample.overloaded Sample.uniform Json.loads
           (Some "key") ["a.com"; "b.com"; "c.com"] (PInt 2) initial_world "c.com"
           (overloaded_fallback "c.com")).
  vm_compute. reflexivity.
Defined.

Lemma run_accounts_for_every_match_witness :
  exists brand all_domains,
    Some "tui" = Some brand
    /\ BrandProtectionAgent.load_domains Sample.read "domains.txt" = Some all_domains.
Proof.
  destruct (BrandProtectionAgent.analyze_domains Sample.generate Sample.uniform
              Json.loads Sample.read Sample.now Sample.os_error (Some "key") "domains.txt"
              (Some "tui") None None None None (PInt 200)) as [e|r] eqn:E.
  - vm_compute in E. discriminate.
  - destruct (run_accounts_for_every_match Sample.generate Sample.uniform Json.loads
                Sample.read Sample.now Sample.os_error (Some "key") "domains.txt" (Some "tui")
                None None None None (PInt 200) r E)
      as (brand & all_domains & Hb & Hl & _).
    exists brand, all_domains. split; [exact Hb|exact Hl].
Defined.

Lemma run_without_match_witness :
  exists r,
    BrandProtectionAgent.analyze_domains Sample.generate Sample.uniform Json.loads
      Sample.read Sample.now Sample.os_error (Some "key") "domains.txt" (Some "nike") None None None
      (Some "out.csv") (PInt 200)
    = inr r
    /\ BrandProtectionAgent.written r = [].
Proof.
  destruct (run_without_match Sample.generate Sample.uniform Json.loads Sample.read
              Sample.now Sample.os_error (Some "key") "domains.txt" "nike" None None None
              (Some "out.csv") (PInt 200)
              ["tui-corp.com"; "other.com"; "mytuiglobal.net"])
    as (r & E & _ & _ & _ & _ & _ & Hw).
  - reflexivity.
  - reflexivity.
  - reflexivity.
  - intros d [<-|[<-|[<-|[]]]]; reflexivity.
  - exists r. split; [exact E|exact Hw].
Defined.

Lemma always_overloaded_gives_fallback_everywhere_witness :
  calls (fst (analyze_domains Sample.overloaded Sample.uniform Json.loads (Some "key")
                ["a.com"; "b.com"; "c.com"] (PInt 2) initial_world))
  = calls initial_world
    + 3 * Batching.total_batches ["a.com"; "b.com"; "c.com"]
            (default default_batch_size (valid_batch_size (PInt 2))).
Proof.
  apply (always_overloaded_gives_fallback_everywhere Sample.overloaded Sample.uniform
           Json.loads).
  - intros n batch. exists "503 Service Unavailable". split; reflexivity.
  - reflexivity.
Defined.

Lemma responses_without_text_leave_no_verdict_witness :
  calls (fst (process_batch Sample.no_text Sample.uniform Json.loads ["a.com"] 200 1
                (initial_world, ∅) 0)) = 3.
Proof.
  apply (responses_without_text_leave_no_verdict Sample.no_text Sample.uniform
           Json.loads ["a.com"] 200 1 initial_world ∅ 0).
  intros k _. exact I.
Defined.

Lemma response_with_text_is_merged_witness :
  total_tokens_used
    (fst (process_batch Sample.with_counts Sample.uniform Json.loads ["a.com"] 200 1
            (initial_world, ∅) 0)) = 15.
Proof.
  apply (response_with_text_is_merged Sample.with_counts Sample.uniform Json.loads
           ["a.com"] 200 1 initial_world ∅ 0 (Json.q "{'threats': []}") 10 5 15);
    reflexivity.
Defined.

Lemma missing_token_count_discards_response_witness :
  total_input_tokens
    (fst (process_batch Sample.missing_count Sample.uniform Json.loads ["a.com"] 200 1
            (initial_world, ∅) 0)) = 10.
Proof.
  apply (missing_token_count_discards_response Sample.missing_count Sample.uniform
           Json.loads ["a.com"] 200 1 initial_world ∅ 0 (Json.q "{'threats': []}")
           10 (Some 10));
    reflexivity.
Defined.

Lemma client_log_announces_batches_witness :
  exists l,
    log (fst (analyze_domains Sample.generate Sample.uniform Json.loads (Some "key")
                ["a.com"; "b.com"; "c.com"] (PInt 2) initial_world))
    = [InfoAnalyzing 3 2 2; InfoRateLimits 2] ++ l
    /\ Batching.processing l = [(1, 2, 2); (2, 2, 1)].
Proof.
  apply (client_log_announces_batches Sample.generate Sample.uniform Json.loads
           (Some "key") ["a.com"; "b.com"; "c.com"] (PInt 2) initial_world).
  reflexivity.
Defined.

Lemma save_results_relative_path_under_data_witness :
  forall op,
    In op (ResultsProcessor.save_results
             (BrandAnalysisResult.mk
                (AnalysisMetadata.mk "TUI" "tui" 0 0 0 "0.0%" Sample.now (PInt 200)) [] [])
             "tui_results.csv") ->
    match op with
    | ResultsProcessor.Mkdir path => path = "data"
    | ResultsProcessor.MkdirParentOf path => path = "data/tui_results"
    | ResultsProcessor.WriteCsv path columns rows => False
    | ResultsProcessor.WriteJson path content => path = "data/tui_results_complete.json"
    end.
Proof.
  intros op Hop.
  pose proof (save_results_relative_path_under_data
                (BrandAnalysisResult.mk
                   (AnalysisMetadata.mk "TUI" "tui" 0 0 0 "0.0%" Sample.now (PInt 200))
                   [] [])
                "tui_results.csv" eq_refl eq_refl eq_refl op Hop) as H.
  destruct op as [path|path|path columns rows|path content].
  - exact H.
  - exact H.
  - destruct H as [[[_ ->]|[_ ->]] Hne]; apply Hne; reflexivity.
  - exact (proj1 H).
Defined.
